(** * excel_cleaner: the four-stage spreadsheet cleaning pipeline

    A shallow embedding of [src/excel_cleaner.py] (class
    [DataCleaningPipeline]) and the properties of its specification.

    The pipeline is written against pandas.  The part of pandas it calls
    is modelled here as executable functions on a small table type, with
    the behaviour of the pandas 2.x releases (copy-on-write off, so the
    in-place fill of [df[column]] reaches the frame):

    - a cell is a tagged value; a number of dtype float64 is an IEEE
      binary64 float (Rocq's primitive floats, so [nan] is the missing
      marker of a float column and every comparison with it is false),
      an integer is a [Z]; the missing markers are NaN, NaT and NA
      (an empty spreadsheet cell is decoded as NaN; Python's [None],
      the bool dtype and the unsigned 64-bit dtype are left out: a
      whole number beyond the signed 64-bit range is carried as the
      nearest float);
    - a frame is a list of rows under a list of typed columns, rows are
      told apart by position and the row labels of pandas are left out;
      a column name is looked up at its first position;
    - a method of the pipeline is a function from the instance to a
      result (a value or a raised exception) and the instance after it;
    - what pandas delegates to other libraries or decides by rules of
      its own that the pipeline does not depend on (the
      regular-expression engine, which texts are numbers and which are
      dates, the text of the exception of a failed cast, the text form
      of floats and timestamps) is an interface, [Externals]: the
      properties hold for every instance, and an instance is chosen
      only in examples. *)

From Stdlib Require Import ZArith List String Ascii Bool Arith Lia.
From Stdlib Require Import Sorted Permutation.
From Stdlib Require Import DecimalString.
From Stdlib Require Import PrimFloat SpecFloat FloatOps FloatAxioms.
Import ListNotations.

Local Open Scope string_scope.
Local Open Scope list_scope.

(** ** Floats and integers *)

Module F64.

(** The float nearest to an integer (round to nearest, ties to even). *)
Definition of_Z (z : Z) : float :=
  SF2Prim (binary_normalize prec emax z 0 false).

(** The integer a float denotes, when it denotes one. *)
Definition to_Z (f : float) : option Z :=
  match Prim2SF f with
  | S754_zero _ => Some 0%Z
  | S754_finite s m e =>
      let v := if s then Z.neg m else Z.pos m in
      if (0 <=? e)%Z then Some (v * 2 ^ e)%Z
      else if (Z.pos m mod 2 ^ (- e) =? 0)%Z
           then Some (v / 2 ^ (- e))%Z
           else None
  | S754_infinity _ | S754_nan => None
  end.

(** Largest integer below a finite float; [0] for [nan] and infinities,
    which no caller passes. *)
Definition floor (f : float) : Z :=
  match Prim2SF f with
  | S754_finite s m e =>
      let v := if s then Z.neg m else Z.pos m in
      if (0 <=? e)%Z then (v * 2 ^ e)%Z else (v / 2 ^ (- e))%Z
  | _ => 0%Z
  end.

Definition nan : float := PrimFloat.nan.
Definition is_nan (f : float) : bool := PrimFloat.is_nan f.
Definition lt (a b : float) : bool := PrimFloat.ltb a b.
Definition le (a b : float) : bool := PrimFloat.leb a b.

End F64.

Definition int64_min : Z := (- 2 ^ 63)%Z.
Definition int64_max : Z := (2 ^ 63 - 1)%Z.
Definition in_int64 (z : Z) : bool :=
  ((int64_min <=? z) && (z <=? int64_max))%Z.

(** ** Cells, columns, frames *)

(** A cell.  [VFloat nan] is NaN, [VNaT] the missing timestamp, [VNA] the
    missing marker of the nullable integer dtype. *)
Inductive value : Type :=
| VInt (z : Z)
| VFloat (f : float)
| VStr (s : string)
| VTime (ns : Z)
| VNaT
| VNA.

Inductive dtype : Type := int64 | float64 | object | datetime64 | Int64.

Definition dtype_eqb (a b : dtype) : bool :=
  match a, b with
  | int64, int64 | float64, float64 | object, object
  | datetime64, datetime64 | Int64, Int64 => true
  | _, _ => false
  end.

(** [pd.isnull] on one cell. *)
Definition isnull (v : value) : bool :=
  match v with
  | VFloat f => F64.is_nan f
  | VNaT | VNA => true
  | VInt _ | VStr _ | VTime _ => false
  end.

Record Series : Type := mkSeries { s_dtype : dtype; s_values : list value }.

(** A frame: the header (column names with their dtypes, in table order)
    and the rows, each row holding one cell per column. *)
Record DataFrame : Type :=
  mkFrame { columns : list (string * dtype); rows : list (list value) }.

(** [len(df)] *)
Definition len (df : DataFrame) : nat := List.length (rows df).

Fixpoint index_of (c : string) (names : list string) : option nat :=
  match names with
  | [] => None
  | n :: rest =>
      if String.eqb c n then Some 0
      else option_map S (index_of c rest)
  end.

(** Position of a column in the header; [None] is [column not in df.columns]. *)
Definition column_index (c : string) (df : DataFrame) : option nat :=
  index_of c (map fst (columns df)).

Definition cell (i : nat) (r : list value) : value := nth i r (VFloat F64.nan).

Definition dtype_at (i : nat) (df : DataFrame) : dtype :=
  nth i (map snd (columns df)) object.

(** [df[column]], for the column at position [i]. *)
Definition getitem (i : nat) (df : DataFrame) : Series :=
  mkSeries (dtype_at i df) (map (cell i) (rows df)).

Fixpoint set_nth {A} (i : nat) (x : A) (l : list A) : list A :=
  match l, i with
  | [], _ => []
  | _ :: t, O => x :: t
  | h :: t, S j => h :: set_nth j x t
  end.

Fixpoint set_cells (i : nat) (rs : list (list value)) (vs : list value)
  : list (list value) :=
  match rs, vs with
  | r :: rs', v :: vs' => set_nth i v r :: set_cells i rs' vs'
  | _, _ => rs
  end.

Fixpoint set_dtype (i : nat) (d : dtype) (cols : list (string * dtype))
  : list (string * dtype) :=
  match cols, i with
  | [], _ => []
  | (c, _) :: t, O => (c, d) :: t
  | h :: t, S j => h :: set_dtype j d t
  end.

(** [df[column] = s], for the column at position [i]. *)
Definition setitem (i : nat) (s : Series) (df : DataFrame) : DataFrame :=
  mkFrame (set_dtype i (s_dtype s) (columns df))
          (set_cells i (rows df) (s_values s)).

(** [df.dropna(subset=[column])] *)
Definition dropna (i : nat) (df : DataFrame) : DataFrame :=
  mkFrame (columns df) (filter (fun r => negb (isnull (cell i r))) (rows df)).

(** [series.isnull().sum()] *)
Definition count_null (s : Series) : nat :=
  List.length (filter isnull (s_values s)).

(** A boolean mask may hold NA (comparing a nullable integer column); as
    an indexer NA selects nothing. *)
Definition selects (m : option bool) : bool :=
  match m with Some true => true | _ => false end.

Fixpoint take_rows (rs : list (list value)) (mask : list (option bool))
  : list (list value) :=
  match rs, mask with
  | r :: rs', m :: mask' =>
      if selects m then r :: take_rows rs' mask' else take_rows rs' mask'
  | _, _ => []
  end.

(** [df[mask]] *)
Definition boolean_index (mask : list (option bool)) (df : DataFrame)
  : DataFrame :=
  mkFrame (columns df) (take_rows (rows df) mask).

(** ** Python objects the pipeline handles *)

(** [CastError] stands for what a failed cast raises ([TypeError] or
    [OverflowError], which the pipeline does not tell apart), with its
    text. *)
Inductive exn : Type :=
| KeyError (key : string)
| TypeError (msg : string)
| ReError (pattern : string)
| CastError (msg : string).

Inductive result (A : Type) : Type :=
| Ok (a : A)
| Raise (e : exn).
Arguments Ok {A} a.
Arguments Raise {A} e.

(** [str(e)] *)
Definition exn_message (e : exn) : string :=
  match e with
  | KeyError k => "'" ++ k ++ "'"
  | TypeError m => m
  | ReError p => "bad pattern " ++ p
  | CastError m => m
  end.

Fixpoint mapM {A B} (f : A -> result B) (l : list A) : result (list B) :=
  match l with
  | [] => Ok []
  | x :: t =>
      match f x with
      | Raise e => Raise e
      | Ok y => match mapM f t with
                | Raise e => Raise e
                | Ok ys => Ok (y :: ys)
                end
      end
  end.

(** A number written in a schema ([min_value], [max_value]). *)
Inductive number : Type := NInt (z : Z) | NFloat (f : float).

(** The value stored under a rule's ['type'] key: a string, or one of the
    built-in classes [int], [float], [str]. *)
Inductive type_tag : Type :=
| Tag (s : string)
| PyInt
| PyFloat
| PyStr.

(** One schema entry, a dict: a field is [None] when the key is absent. *)
Record ColumnRule : Type := mkRule {
  rule_type : option type_tag;
  required : option bool;
  min_value : option number;
  max_value : option number;
  pattern : option string
}.

(** The schema, a dict iterated in insertion order. *)
Definition Schema : Type := list (string * ColumnRule).

(** [column in self.schema] *)
Definition in_schema (c : string) (schema : Schema) : bool :=
  existsb (String.eqb c) (map fst schema).

(** What pandas leaves to other libraries. *)
Class Externals : Type := {
  (** [re.compile(p)], then [compiled.match] at the start of a string;
      [None] when the pattern does not compile. *)
  re_compile : string -> option (string -> bool);
  (** How [pd.to_numeric] reads one text: the number it denotes, an
      integer or a float, and [None] when the text is not a number. *)
  parse_numeric : string -> option number;
  (** How [pd.to_datetime] reads one text or number of a column, in
      nanoseconds since the epoch, and [None] when it cannot.  The
      format is inferred from the column, so the values of the column
      come first. *)
  parse_datetime : list value -> value -> option Z;
  (** [str(e)] of the exception that the cast of these values to the
      nullable integer dtype raises when it fails. *)
  cast_error_text : list value -> string;
  (** [str(x)] of a float that is not NaN, and of a timestamp. *)
  float_repr : float -> string;
  timestamp_str : Z -> string
}.

(** ** Text and numbers *)

(** [str(n)] of an integer. *)
Definition str_Z (z : Z) : string := NilZero.string_of_int (Z.to_int z).
Definition str_nat (n : nat) : string := str_Z (Z.of_nat n).

(** An integer cell when it fits 64 bits, else the nearest float. *)
Definition int_or_float (z : Z) : value :=
  if in_int64 z then VInt z else VFloat (F64.of_Z z).

(** ** Column routines of pandas *)

(** The numbers of a column that are present, as floats. *)
Definition present (v : value) : option float :=
  match v with
  | VInt z => Some (F64.of_Z z)
  | VFloat f => if F64.is_nan f then None else Some f
  | _ => None
  end.

Fixpoint present_numbers (vs : list value) : list float :=
  match vs with
  | [] => []
  | v :: t => match present v with
              | Some f => f :: present_numbers t
              | None => present_numbers t
              end
  end.

Fixpoint insert_sorted (x : float) (l : list float) : list float :=
  match l with
  | [] => [x]
  | y :: t => if F64.le x y then x :: l else y :: insert_sorted x t
  end.

Definition sort_floats (l : list float) : list float :=
  fold_right insert_sorted [] l.

(** [series.median()]: missing values skipped, NaN when none is left. *)
Definition median (s : Series) : float :=
  let xs := sort_floats (present_numbers (s_values s)) in
  let n := List.length xs in
  match n with
  | O => F64.nan
  | _ =>
      if Nat.odd n then nth (n / 2) xs F64.nan
      else PrimFloat.div
             (PrimFloat.add (nth (n / 2 - 1) xs F64.nan) (nth (n / 2) xs F64.nan))
             2%float
  end.

(** numpy's interpolation between two neighbours. *)
Definition lerp (a b t : float) : float :=
  let d := PrimFloat.sub b a in
  if F64.lt t 0.5%float
  then PrimFloat.add a (PrimFloat.mul d t)
  else PrimFloat.sub b (PrimFloat.mul d (PrimFloat.sub 1%float t)).

(** [series.quantile(q)], linear interpolation: missing values skipped,
    NaN when none is left. *)
Definition quantile (q : float) (s : Series) : float :=
  let xs := sort_floats (present_numbers (s_values s)) in
  let n := List.length xs in
  match n with
  | O => F64.nan
  | S m =>
      let pos := PrimFloat.mul (F64.of_Z (Z.of_nat m)) q in
      let lo := Z.to_nat (F64.floor pos) in
      let gamma := PrimFloat.sub pos (F64.of_Z (Z.of_nat lo)) in
      lerp (nth lo xs F64.nan) (nth (Nat.min (S lo) m) xs F64.nan) gamma
  end.

(** [series.fillna(fill)].  Nothing changes when no value is missing.  A
    text filled into a column of another dtype turns the column into
    object, except the nullable integer dtype, which refuses it. *)
Definition fillna (fill : value) (s : Series) : result Series :=
  if Nat.eqb (count_null s) 0 then Ok s
  else
    let filled := map (fun v => if isnull v then fill else v) (s_values s) in
    match fill, s_dtype s with
    | VStr text, Int64 =>
        Raise (TypeError ("Invalid value '" ++ text ++ "' for dtype Int64"))
    | VStr _, _ => Ok (mkSeries object filled)
    | _, d => Ok (mkSeries d filled)
    end.

Section Conversions.

Context {ext : Externals}.

Definition is_int (v : value) : bool :=
  match v with VInt _ => true | _ => false end.

Definition as_float (v : value) : value :=
  match v with VInt z => VFloat (F64.of_Z z) | other => other end.

(** What [pd.to_numeric(..., errors='coerce')] makes of one cell of an
    object column. *)
Definition numeric_cell (v : value) : value :=
  match v with
  | VInt z => VInt z
  | VFloat f => VFloat f
  | VStr s => match parse_numeric s with
              | Some (NInt z) => int_or_float z
              | Some (NFloat f) => VFloat f
              | None => VFloat F64.nan
              end
  | VTime _ | VNaT | VNA => VFloat F64.nan
  end.

(** [pd.to_numeric(series, errors='coerce')]: numeric columns pass
    through, timestamps become their integer, an object column becomes
    int64 when every cell reads as an integer and float64 otherwise. *)
Definition to_numeric (s : Series) : Series :=
  match s_dtype s with
  | int64 | float64 | Int64 => s
  | datetime64 =>
      mkSeries int64
        (map (fun v => match v with VTime t => VInt t | _ => VInt int64_min end)
             (s_values s))
  | object =>
      let vs := map numeric_cell (s_values s) in
      if forallb is_int vs then mkSeries int64 vs
      else mkSeries float64 (map as_float vs)
  end.

(** The exception of a cast that fails on these values. *)
Definition unsafe_cast (vs : list value) : exn :=
  CastError (cast_error_text vs).

(** One cell of the cast to the nullable integer dtype; [e] is the
    exception of the cast as a whole. *)
Definition nullable_int_cell (e : exn) (v : value) : result value :=
  match v with
  | VFloat f =>
      if F64.is_nan f then Ok VNA
      else match F64.to_Z f with
           | Some z => if in_int64 z then Ok (VInt z) else Raise e
           | None => Raise e
           end
  | other => Ok other
  end.

(** [series.astype('Int64')] on a numeric column: NaN becomes NA, a float
    that is not a whole number of the 64-bit range is refused. *)
Definition astype_Int64 (s : Series) : result Series :=
  match mapM (nullable_int_cell (unsafe_cast (s_values s))) (s_values s) with
  | Ok vs => Ok (mkSeries Int64 vs)
  | Raise e => Raise e
  end.

End Conversions.

(** Comparison of one cell with a number, as the ordering operators of
    pandas do it: a numpy missing value compares false, the nullable
    missing value compares NA, a text or a timestamp is not comparable. *)
Inductive ordering : Type := GE | LE | LT | GT.

Definition number_float (b : number) : float :=
  match b with NInt z => F64.of_Z z | NFloat f => f end.

Definition compare_floats (op : ordering) (x y : float) : bool :=
  match op with
  | GE => F64.le y x
  | LE => F64.le x y
  | LT => F64.lt x y
  | GT => F64.lt y x
  end.

Definition compare_ints (op : ordering) (x y : Z) : bool :=
  match op with
  | GE => (y <=? x)%Z
  | LE => (x <=? y)%Z
  | LT => (x <? y)%Z
  | GT => (y <? x)%Z
  end.

Definition compare_cell (op : ordering) (b : number) (v : value)
  : result (option bool) :=
  match v with
  | VInt z =>
      match b with
      | NInt k => Ok (Some (compare_ints op z k))
      | NFloat f => Ok (Some (compare_floats op (F64.of_Z z) f))
      end
  | VFloat x => Ok (Some (compare_floats op x (number_float b)))
  | VNA => Ok None
  | VNaT => Ok (Some false)
  | VStr _ => Raise (TypeError "'>=' not supported between 'str' and a number")
  | VTime _ =>
      Raise (TypeError "'>=' not supported between 'Timestamp' and a number")
  end.

(** [series >= b], [series <= b], [series < b], [series > b] *)
Definition compare_series (op : ordering) (b : number) (s : Series)
  : result (list (option bool)) :=
  match s_dtype s with
  | datetime64 =>
      Raise (TypeError "Invalid comparison between dtype=datetime64[ns] and a number")
  | _ => mapM (compare_cell op b) (s_values s)
  end.

(** [m1 | m2] and [~m] on masks that may hold NA. *)
Definition mask_or (a b : option bool) : option bool :=
  match a, b with
  | Some true, _ | _, Some true => Some true
  | Some false, Some false => Some false
  | _, _ => None
  end.

Definition mask_not (a : option bool) : option bool := option_map negb a.

(** [mask.sum()]: NA is skipped. *)
Definition mask_sum (m : list (option bool)) : nat :=
  List.length (filter selects m).

Section WithExternals.

Context {ext : Externals}.

(** One cell of [pd.to_datetime] on the column [vs]. *)
Definition datetime_cell (vs : list value) (v : value) : value :=
  match v with
  | VTime t => VTime t
  | VNaT | VNA => VNaT
  | VFloat f =>
      if F64.is_nan f then VNaT
      else match parse_datetime vs v with Some t => VTime t | None => VNaT end
  | VInt _ | VStr _ =>
      match parse_datetime vs v with Some t => VTime t | None => VNaT end
  end.

(** [pd.to_datetime(series, errors='coerce')]: every value is read with
    the format inferred from the column. *)
Definition to_datetime (s : Series) : Series :=
  match s_dtype s with
  | datetime64 => s
  | _ => mkSeries datetime64 (map (datetime_cell (s_values s)) (s_values s))
  end.

(** [str(x)] of one cell, as [series.astype(str)] applies it: a missing
    value becomes a text like any other. *)
Definition astype_str (v : value) : string :=
  match v with
  | VStr s => s
  | VInt z => str_Z z
  | VFloat f => if F64.is_nan f then "nan" else float_repr f
  | VTime t => timestamp_str t
  | VNaT => "NaT"
  | VNA => "<NA>"
  end.

(** [series.astype(str).str.match(compiled, na=False)] *)
Definition str_match (compiled : string -> bool) (s : Series)
  : list (option bool) :=
  map (fun v => Some (compiled (astype_str v))) (s_values s).

End WithExternals.

(** ** The pipeline object *)

Inductive level : Type := INFO | WARNING | ERROR.

(** The instance fields of [DataCleaningPipeline] that a run changes, and
    what the run has sent to the logger.  The schema is set once by
    [__init__] and passed along as an argument. *)
Record Pipeline : Type := mkPipeline {
  errors : list string;
  cleaned_rows : nat;
  total_rows : nat;
  logged : list (level * string)
}.

(** [DataCleaningPipeline(schema)] *)
Definition init : Pipeline := mkPipeline [] 0 0 [].

(** A method body: it reads and updates the instance, and returns or
    raises.  What it did to the instance before raising stays done. *)
Definition M (A : Type) : Type := Pipeline -> result A * Pipeline.

Definition ret {A} (a : A) : M A := fun p => (Ok a, p).

Definition bind {A B} (c : M A) (k : A -> M B) : M B :=
  fun p => match c p with
           | (Ok a, p') => k a p'
           | (Raise e, p') => (Raise e, p')
           end.

Definition raise {A} (e : exn) : M A := fun p => (Raise e, p).

Definition lift {A} (r : result A) : M A := fun p => (r, p).

(** [try: c  except Exception as e: handler(e)] *)
Definition try_except {A} (c : M A) (handler : exn -> M A) : M A :=
  fun p => match c p with
           | (Ok a, p') => (Ok a, p')
           | (Raise e, p') => handler e p'
           end.

Declare Scope pipeline_scope.
Delimit Scope pipeline_scope with pipeline.
Notation "x <- c ;; k" := (bind c (fun x => k))
  (at level 61, c at next level, right associativity) : pipeline_scope.
Notation "c ;;; k" := (bind c (fun _ => k))
  (at level 61, right associativity) : pipeline_scope.
Local Open Scope pipeline_scope.

(** [self.errors.append(msg)] *)
Definition errors_append (msg : string) : M unit :=
  fun p => (Ok tt, mkPipeline (errors p ++ [msg]) (cleaned_rows p)
                              (total_rows p) (logged p)).

(** [self.logger.info], [.warning], [.error] *)
Definition log (l : level) (msg : string) : M unit :=
  fun p => (Ok tt, mkPipeline (errors p) (cleaned_rows p) (total_rows p)
                              (logged p ++ [(l, msg)])).

Definition set_total_rows (n : nat) : M unit :=
  fun p => (Ok tt, mkPipeline (errors p) (cleaned_rows p) n (logged p)).

Definition set_cleaned_rows (n : nat) : M unit :=
  fun p => (Ok tt, mkPipeline (errors p) n (total_rows p) (logged p)).

Definition get_errors : M (list string) := fun p => (Ok (errors p), p).
Definition get_counts : M (nat * nat) :=
  fun p => (Ok (cleaned_rows p, total_rows p), p).

(** [for column, rules in self.schema.items(): df = body(column, rules, df)] *)
Fixpoint for_each {K} (body : K -> DataFrame -> M DataFrame)
  (items : list K) (df : DataFrame) : M DataFrame :=
  match items with
  | [] => ret df
  | item :: rest => df' <- body item df ;; for_each body rest df'
  end.

(** ** The four stages *)

Section Stages.

Context {ext : Externals}.
Variable schema : Schema.

(** [rules.get('required', False)], as a condition *)
Definition is_required (rules : ColumnRule) : bool :=
  match required rules with Some b => b | None => false end.

(** The body of the loop of [_handle_missing_values].  The fill is in
    place ([inplace=True] on [df[column]]). *)
Definition handle_missing_column (item : string * ColumnRule)
  (df : DataFrame) : M DataFrame :=
  let (column, rules) := item in
  match column_index column df with
  | None => ret df
  | Some i =>
      if is_required rules then
        let missing_count := count_null (getitem i df) in
        if (0 <? missing_count)%nat then
          errors_append ("Removed " ++ str_nat missing_count
                         ++ " rows with missing " ++ column) ;;;
          ret (dropna i df)
        else ret df
      else if dtype_eqb (dtype_at i df) int64
              || dtype_eqb (dtype_at i df) float64 then
        s <- lift (fillna (VFloat (median (getitem i df))) (getitem i df)) ;;
        ret (setitem i s df)
      else
        s <- lift (fillna (VStr "Unknown") (getitem i df)) ;;
        ret (setitem i s df)
  end.

Definition _handle_missing_values (df : DataFrame) : M DataFrame :=
  for_each handle_missing_column schema df.

(** The three branches on [expected_type] in [_validate_data_types];
    any other tag assigns nothing. *)
Definition coerce (expected_type : type_tag) (i : nat) (df : DataFrame)
  : M DataFrame :=
  match expected_type with
  | Tag t =>
      if String.eqb t "datetime"
      then ret (setitem i (to_datetime (getitem i df)) df)
      else ret df
  | PyInt =>
      s <- lift (astype_Int64 (to_numeric (getitem i df))) ;;
      ret (setitem i s df)
  | PyFloat => ret (setitem i (to_numeric (getitem i df)) df)
  | PyStr => ret df
  end.

(** The body of the loop of [_validate_data_types]: [rules['type']] is
    read before the [try]. *)
Definition validate_column (item : string * ColumnRule) (df : DataFrame)
  : M DataFrame :=
  let (column, rules) := item in
  match column_index column df with
  | None => ret df
  | Some i =>
      match rule_type rules with
      | None => raise (KeyError "type")
      | Some expected_type =>
          try_except
            (df1 <- coerce expected_type i df ;;
             let invalid_count := count_null (getitem i df1) in
             if (0 <? invalid_count)%nat then
               errors_append ("Removed " ++ str_nat invalid_count
                              ++ " rows with invalid " ++ column) ;;;
               ret (dropna i df1)
             else ret df1)
            (fun e =>
               log ERROR ("Type conversion error for " ++ column ++ ": "
                          ++ exn_message e) ;;;
               ret df)
      end
  end.

Definition _validate_data_types (df : DataFrame) : M DataFrame :=
  for_each validate_column schema df.

(** [df = df[df[column] >= bound]] and its mirror, when the key is there *)
Definition bound_filter (op : ordering) (bound : option number) (i : nat)
  (df : DataFrame) : M DataFrame :=
  match bound with
  | None => ret df
  | Some b =>
      mask <- lift (compare_series op b (getitem i df)) ;;
      ret (boolean_index mask df)
  end.

Definition pattern_filter (pat : option string) (i : nat) (df : DataFrame)
  : M DataFrame :=
  match pat with
  | None => ret df
  | Some p =>
      if dtype_eqb (dtype_at i df) object then
        match re_compile p with
        | None => raise (ReError p)
        | Some compiled =>
            ret (boolean_index (str_match compiled (getitem i df)) df)
        end
      else ret df
  end.

(** The body of the loop of [_apply_constraints]. *)
Definition constrain_column (item : string * ColumnRule) (df : DataFrame)
  : M DataFrame :=
  let (column, rules) := item in
  match column_index column df with
  | None => ret df
  | Some i =>
      let initial_count := len df in
      df1 <- bound_filter GE (min_value rules) i df ;;
      df2 <- bound_filter LE (max_value rules) i df1 ;;
      df3 <- pattern_filter (pattern rules) i df2 ;;
      let removed_count := (initial_count - len df3)%nat in
      if (0 <? removed_count)%nat then
        errors_append ("Removed " ++ str_nat removed_count ++ " rows failing "
                       ++ column ++ " constraints") ;;;
        ret df3
      else ret df3
  end.

Definition _apply_constraints (df : DataFrame) : M DataFrame :=
  for_each constrain_column schema df.

(** [df.select_dtypes(include=[np.number]).columns] *)
Definition is_number_dtype (d : dtype) : bool :=
  match d with
  | int64 | float64 | Int64 => true
  | object | datetime64 => false
  end.

Definition numeric_columns (df : DataFrame) : list string :=
  map fst (filter (fun c => is_number_dtype (snd c)) (columns df)).

(** [(df[column] < lower_bound) | (df[column] > upper_bound)] *)
Definition outlier_mask (lower upper : float) (s : Series)
  : result (list (option bool)) :=
  match compare_series LT (NFloat lower) s with
  | Raise e => Raise e
  | Ok below =>
      match compare_series GT (NFloat upper) s with
      | Raise e => Raise e
      | Ok above =>
          Ok (map (fun p => mask_or (fst p) (snd p)) (combine below above))
      end
  end.

Definition lower_bound (s : Series) : float :=
  let Q1 := quantile 0.25%float s in
  let Q3 := quantile 0.75%float s in
  let IQR := PrimFloat.sub Q3 Q1 in
  PrimFloat.sub Q1 (PrimFloat.mul 1.5%float IQR).

Definition upper_bound (s : Series) : float :=
  let Q1 := quantile 0.25%float s in
  let Q3 := quantile 0.75%float s in
  let IQR := PrimFloat.sub Q3 Q1 in
  PrimFloat.add Q3 (PrimFloat.mul 1.5%float IQR).

(** The body of the loop of [_remove_outliers]. *)
Definition remove_outliers_column (column : string) (df : DataFrame)
  : M DataFrame :=
  if in_schema column schema then
    match column_index column df with
    | None => ret df
    | Some i =>
        let s := getitem i df in
        outliers <- lift (outlier_mask (lower_bound s) (upper_bound s) s) ;;
        let outlier_count := mask_sum outliers in
        if (0 <? outlier_count)%nat then
          let df' := boolean_index (map mask_not outliers) df in
          errors_append ("Removed " ++ str_nat outlier_count
                         ++ " outliers from " ++ column) ;;;
          ret df'
        else ret df
    end
  else ret df.

Definition _remove_outliers (df : DataFrame) : M DataFrame :=
  for_each remove_outliers_column (numeric_columns df) df.

Definition _generate_report : M unit :=
  counts <- get_counts ;;
  log INFO ("Pipeline completed: " ++ str_nat (fst counts) ++ "/"
            ++ str_nat (snd counts) ++ " rows retained") ;;;
  es <- get_errors ;;
  fold_left (fun acc e => acc ;;; log WARNING e) es (ret tt).

Definition clean_and_validate (df : DataFrame) : M DataFrame :=
  set_total_rows (len df) ;;;
  log INFO ("Starting pipeline with " ++ str_nat (len df) ++ " rows") ;;;
  df <- _handle_missing_values df ;;
  df <- _validate_data_types df ;;
  df <- _apply_constraints df ;;
  df <- _remove_outliers df ;;
  set_cleaned_rows (len df) ;;;
  _generate_report ;;;
  ret df.

End Stages.

(** ** The caller: the "Clean Data" button of streamlit_app.py *)

(** [df.head(n)] *)
Definition head (n : nat) (df : DataFrame) : DataFrame :=
  mkFrame (columns df) (firstn n (rows df)).

(** What the page shows after a click: the two metrics, the preview of
    the cleaned table, the cleaning log (a warning per entry, shown when
    there is one) and the table written to the download. *)
Record CleanView : Type := mkView {
  rows_retained : string;
  errors_fixed : nat;
  cleaned_preview : DataFrame;
  cleaning_log : list string;
  download : DataFrame
}.

(** The body of [if st.button("Clean Data")]: a new pipeline on the
    schema, one run, then the widgets.  An exception of the run is not
    caught by the page. *)
Definition clean_data_clicked {ext : Externals} (VALIDATION_SCHEMA : Schema)
  (df : DataFrame) : result CleanView :=
  let pipeline := init in
  match clean_and_validate VALIDATION_SCHEMA df pipeline with
  | (Raise e, _) => Raise e
  | (Ok cleaned_df, pipeline) =>
      Ok (mkView
            (str_nat (cleaned_rows pipeline) ++ "/"
             ++ str_nat (total_rows pipeline))
            (List.length (errors pipeline))
            (head 10 cleaned_df)
            (errors pipeline)
            cleaned_df)
  end.

(** ** Sample data *)

Module Examples.

(** The numerals of the examples: an optional sign, decimal digits and
    an optional fraction, without blanks or exponent. *)
Definition digit_of (a : ascii) : option Z :=
  let n := nat_of_ascii a in
  if ((48 <=? n) && (n <=? 57))%nat then Some (Z.of_nat (n - 48)) else None.

Fixpoint read_digits (s : string) (acc : Z) : option Z :=
  match s with
  | EmptyString => Some acc
  | String a rest =>
      match digit_of a with
      | Some d => read_digits rest (10 * acc + d)%Z
      | None => None
      end
  end.

Fixpoint split_dot (s : string) : string * option string :=
  match s with
  | EmptyString => (EmptyString, None)
  | String a rest =>
      if Ascii.eqb a "."%char then (EmptyString, Some rest)
      else let (i, f) := split_dot rest in (String a i, f)
  end.

Definition negate (n : number) : number :=
  match n with
  | NInt z => NInt (- z)
  | NFloat f => NFloat (PrimFloat.opp f)
  end.

Definition unsigned_numeral (s : string) : option number :=
  match split_dot s with
  | (EmptyString, None) => None
  | (i, None) => option_map NInt (read_digits i 0)
  | (EmptyString, Some EmptyString) => None
  | (i, Some f) =>
      match read_digits i 0, read_digits f 0 with
      | Some a, Some b =>
          let scale := (10 ^ Z.of_nat (String.length f))%Z in
          Some (NFloat (PrimFloat.div (F64.of_Z (a * scale + b))
                                      (F64.of_Z scale)))
      | _, _ => None
      end
  end.

Definition decimal_numeral (s : string) : option number :=
  match s with
  | String a rest =>
      if Ascii.eqb a "-"%char then option_map negate (unsigned_numeral rest)
      else if Ascii.eqb a "+"%char then unsigned_numeral rest
      else unsigned_numeral s
  | EmptyString => None
  end.

(** An instance of [Externals] for the examples: a pattern is read as a
    literal text that must start the string, which is what [re] does for a
    pattern made of plain letters; a text is a number when it is a
    decimal numeral; no text is read as a date; the text of a failed
    cast is not spelled out. *)
#[export] Instance literal_externals : Externals := {
  re_compile := fun p => Some (String.prefix p);
  parse_numeric := decimal_numeral;
  parse_datetime := fun _ _ => None;
  cast_error_text := fun _ => "cannot safely cast";
  float_repr := fun _ => "";
  timestamp_str := fun _ => ""
}.

Definition rule (t : type_tag) (req : bool) : ColumnRule :=
  mkRule (Some t) (Some req) None None None.

(** A one-column frame of floats. *)
Definition floats (name : string) (l : list float) : DataFrame :=
  mkFrame [(name, float64)] (map (fun f => [VFloat f]) l).

(** A one-column frame of texts. *)
Definition texts (name : string) (l : list string) : DataFrame :=
  mkFrame [(name, object)] (map (fun s => [VStr s]) l).

Definition mixed (name : string) (l : list value) : DataFrame :=
  mkFrame [(name, object)] (map (fun v => [v]) l).

Definition ten_ages : DataFrame :=
  floats "age" [31; F64.nan; 40; 28; F64.nan; 35; 52; F64.nan; 47; 39]%float.

End Examples.

(** A table with a column the schema does not name, and a schema with an
    entry for a column the table does not have. *)
Definition roster : DataFrame :=
  mkFrame [("name", object); ("age", float64); ("note", object)]
    [[VStr "ann"; VFloat 31; VStr "first"];
     [VStr "bob"; VFloat F64.nan; VStr "second"];
     [VStr "cy"; VFloat 200; VStr "third"];
     [VStr "dee"; VFloat 40; VFloat F64.nan];
     [VStr "eve"; VFloat 35; VStr "fifth"]].

Definition age_rule : ColumnRule :=
  mkRule (Some PyFloat) (Some true) (Some (NInt 0)) (Some (NInt 120)) None.

Definition roster_schema : Schema :=
  [("age", age_rule);
   ("name", mkRule (Some PyStr) None None None None);
   ("email", mkRule None (Some true) None None None)].

Definition roster_cleaned : DataFrame :=
  mkFrame [("name", object); ("age", float64); ("note", object)]
    [[VStr "ann"; VFloat 31; VStr "first"];
     [VStr "dee"; VFloat 40; VFloat F64.nan];
     [VStr "eve"; VFloat 35; VStr "fifth"]].

Definition roster_done : Pipeline :=
  mkPipeline
    ["Removed 1 rows with missing age"; "Removed 1 rows failing age constraints"]
    3 5
    [(INFO, "Starting pipeline with 5 rows");
     (INFO, "Pipeline completed: 3/5 rows retained");
     (WARNING, "Removed 1 rows with missing age");
     (WARNING, "Removed 1 rows failing age constraints")].

(** ** Notions the properties are stated with *)

(** [b] keeps the header of [a] and some of its rows, in order. *)
Definition selection (a b : DataFrame) : Prop :=
  columns b = columns a /\ exists f, rows b = filter f (rows a).

(** [b] has the column names of [a] and no more rows. *)
Definition shrinks (a b : DataFrame) : Prop :=
  map fst (columns b) = map fst (columns a) /\ len b <= len a.

Definition same_counts (p q : Pipeline) : Prop :=
  cleaned_rows q = cleaned_rows p /\ total_rows q = total_rows p.

(** Whether one cell lies outside the bounds, as the mask of stage 4 has it. *)
Definition outlier_cell (lower upper : float) (v : value) : option bool :=
  match compare_cell LT (NFloat lower) v, compare_cell GT (NFloat upper) v with
  | Ok below, Ok above => mask_or below above
  | _, _ => None
  end.

(** Each stage returns a frame with no more rows, and no stage touches
    the two counters. *)
Definition stage_ok (stage : DataFrame -> M DataFrame) : Prop :=
  (forall df p df' p', stage df p = (Ok df', p') ->
                       shrinks df df' /\ same_counts p p')
  /\ (forall df p, same_counts p (snd (stage df p))).

(** The four stages in sequence, as [clean_and_validate] chains them. *)
Definition four_stages {ext : Externals} (schema : Schema) (df : DataFrame)
  : M DataFrame :=
  (d1 <- _handle_missing_values schema df ;;
   d2 <- _validate_data_types schema d1 ;;
   d3 <- _apply_constraints schema d2 ;;
   _remove_outliers schema d3)%pipeline.

(** The instance once [clean_and_validate] has recorded the row count of
    its input and announced the run. *)
Definition started (df : DataFrame) (p : Pipeline) : Pipeline :=
  mkPipeline (errors p) (cleaned_rows p) (len df)
    (logged p
     ++ [(INFO, ("Starting pipeline with " ++ str_nat (len df) ++ " rows")%string)]).

(** The fill value stage 1 picks for a column that is not required. *)
Definition fill_value (i : nat) (df : DataFrame) : value :=
  if dtype_eqb (dtype_at i df) int64 || dtype_eqb (dtype_at i df) float64
  then VFloat (median (getitem i df))
  else VStr "Unknown".

(** The header after the fill: a text filled into a column that is not
    already object makes it object. *)
Definition filled_columns (i : nat) (df : DataFrame) : list (string * dtype) :=
  match fill_value i df with
  | VStr _ =>
      if Nat.eqb (count_null (getitem i df)) 0 then columns df
      else set_dtype i object (columns df)
  | _ => columns df
  end.

(** The instance after [self.errors.append(entry)]. *)
Definition with_error (entry : string) (p : Pipeline) : Pipeline :=
  mkPipeline (errors p ++ [entry]) (cleaned_rows p) (total_rows p) (logged p).

(** The instance after [self.logger.error(msg)]. *)
Definition with_logged_error (msg : string) (p : Pipeline) : Pipeline :=
  mkPipeline (errors p) (cleaned_rows p) (total_rows p)
             (logged p ++ [(ERROR, msg)]).

(** The number of values that are missing after a coercion and were not
    before it: what "newly missing" means. *)
Definition newly_missing (before after : list value) : nat :=
  List.length
    (filter (fun ba => negb (isnull (fst ba)) && isnull (snd ba))
            (combine before after)).

Definition is_nullable_int (v : value) : bool :=
  match v with VInt _ | VNA => true | _ => false end.

Definition is_number (v : value) : bool :=
  match v with VInt _ | VFloat _ => true | _ => false end.

(** Whether the value of a row lies strictly outside [lower, upper]. *)
Definition outside (lower upper : float) (v : value) : bool :=
  match v with
  | VInt z => F64.lt (F64.of_Z z) lower || F64.lt upper (F64.of_Z z)
  | VFloat f => F64.lt f lower || F64.lt upper f
  | _ => false
  end.

(** What an iteration on the column at position [j] leaves alone: the
    names, every other column's dtype, and every other cell of each row
    it keeps. *)
Definition touches_only (j : nat) (a b : DataFrame) : Prop :=
  map fst (columns b) = map fst (columns a)
  /\ (forall i, i <> j -> dtype_at i b = dtype_at i a)
  /\ (forall r', In r' (rows b) ->
        exists r, In r (rows a) /\ forall i, i <> j -> cell i r' = cell i r).

(** A fact about one column: about its dtype, and about each of its cells
    given the dtype. *)
Definition column_holds (D : dtype -> Prop) (V : dtype -> value -> Prop)
  (i : nat) (df : DataFrame) : Prop :=
  D (dtype_at i df) /\ forall r, In r (rows df) -> V (dtype_at i df) (cell i r).

(** What the coercion of stage 2 leaves as it is. *)
Definition stable_dtype (t : type_tag) (d : dtype) : Prop :=
  match t with
  | Tag s => if String.eqb s "datetime" then d = datetime64 else True
  | PyInt => d = Int64
  | PyFloat => is_number_dtype d = true
  | PyStr => True
  end.

Definition stable_cell (t : type_tag) (v : value) : Prop :=
  isnull v = false
  /\ match t, v with
     | PyInt, VFloat _ => False
     | _, _ => True
     end.

(** After stage 2 has gone through a schema entry without a conversion
    error, its column holds no missing value and is of the rule's type. *)
Definition typed (item : string * ColumnRule) (df : DataFrame) : Prop :=
  forall i, column_index (fst item) df = Some i ->
    exists t, rule_type (snd item) = Some t
              /\ column_holds (stable_dtype t) (fun _ => stable_cell t) i df.

Definition passes (op : ordering) (bound : option number) (v : value) : Prop :=
  match bound with
  | None => True
  | Some b => compare_cell op b v = Ok (Some true)
  end.

(** After stage 3 has gone through a schema entry, every value of its
    column passes the entry's filters. *)
Definition constrained {ext : Externals} (item : string * ColumnRule)
  (df : DataFrame) : Prop :=
  forall i, column_index (fst item) df = Some i ->
    column_holds
      (fun d =>
         (min_value (snd item) <> None \/ max_value (snd item) <> None ->
          d <> datetime64)
         /\ (forall pt, pattern (snd item) = Some pt -> d = object ->
                        re_compile pt <> None))
      (fun d v =>
         passes GE (min_value (snd item)) v
         /\ passes LE (max_value (snd item)) v
         /\ (forall pt compiled,
               pattern (snd item) = Some pt -> d = object ->
               re_compile pt = Some compiled ->
               compiled (astype_str v) = true))
      i df.

(** A cell the ordering operators accept. *)
Definition comparable (v : value) : bool :=
  match v with VStr _ | VTime _ => false | _ => true end.

(** After stage 4 has gone through a column, its cells can be compared
    with a bound. *)
Definition bounded (schema : Schema) (column : string) (df : DataFrame) : Prop :=
  in_schema column schema = true ->
  forall i, column_index column df = Some i ->
    column_holds (fun d => d <> datetime64) (fun _ v => comparable v = true) i df.

(** No value of a numeric column of the schema lies strictly outside the
    quartile bounds computed on the frame itself. *)
Definition no_outliers (schema : Schema) (df : DataFrame) : Prop :=
  forall column i r,
    In column (numeric_columns df) ->
    in_schema column schema = true ->
    column_index column df = Some i ->
    In r (rows df) ->
    outside (lower_bound (getitem i df)) (upper_bound (getitem i df)) (cell i r)
    = false.

(** The logger has received nothing at error severity. *)
Definition quiet (p : Pipeline) : Prop :=
  forall e, In e (logged p) -> fst e <> ERROR.

(** [b] is [a] with some rows dropped and the rows kept changed as [Q]
    allows, in the same order. *)
Inductive kept_rows (Q : list value -> list value -> Prop)
  : list (list value) -> list (list value) -> Prop :=
| kept_nil : kept_rows Q [] []
| kept_drop r rs rs' : kept_rows Q rs rs' -> kept_rows Q (r :: rs) rs'
| kept_keep r r' rs rs' :
    Q r r' -> kept_rows Q rs rs' -> kept_rows Q (r :: rs) (r' :: rs').

(** Two rows with the same cell at every position outside [S]. *)
Definition same_outside (S : nat -> Prop) (r r' : list value) : Prop :=
  forall k, ~ S k -> cell k r' = cell k r.

(** The positions of the table at which a schema key is looked up. *)
Definition schema_position (schema : Schema) (df : DataFrame) (k : nat) : Prop :=
  exists column, in_schema column schema = true
                 /\ column_index column df = Some k.

(** [b] has the column names of [a], the dtypes and the cells of [a]
    outside [S], and its rows in the order of [a]. *)
Definition preserves_outside (S : nat -> Prop) (a b : DataFrame) : Prop :=
  map fst (columns b) = map fst (columns a)
  /\ (forall k, ~ S k -> dtype_at k b = dtype_at k a)
  /\ kept_rows (same_outside S) (rows a) (rows b).

(** The instance only ever gains entries and logger records. *)
Definition grows (p q : Pipeline) : Prop :=
  (exists new, errors q = errors p ++ new)
  /\ (exists records, logged q = logged p ++ records).

(** Entries against rows: [b] has no more rows than [a]; [q] has the
    entries of [p] and then at most one new entry per row removed, and at
    least one when a row was removed. *)
Definition accounts (a : DataFrame) (p : Pipeline) (b : DataFrame)
  (q : Pipeline) : Prop :=
  len b <= len a
  /\ exists new, errors q = errors p ++ new
                 /\ List.length new <= len a - len b
                 /\ (len b < len a -> new <> []).

(** Every row has a cell for every column. *)
Definition rectangular (df : DataFrame) : Prop :=
  forall r, In r (rows df) -> List.length r = List.length (columns df).

(** The line of the report that sums the run up. *)
Definition completed (cleaned total : nat) : string :=
  "Pipeline completed: " ++ str_nat cleaned ++ "/" ++ str_nat total
  ++ " rows retained".

(** No missing value in the column a required entry names. *)
Definition required_present (item : string * ColumnRule) (df : DataFrame) : Prop :=
  is_required (snd item) = true ->
  forall i, column_index (fst item) df = Some i ->
  forall r, In r (rows df) -> isnull (cell i r) = false.

(** [column in df.columns] *)
Definition has_column (c : string) (df : DataFrame) : bool :=
  match column_index c df with Some _ => true | None => false end.

(** The entries of the schema whose column is in the table. *)
Definition present_entries (schema : Schema) (df : DataFrame) : Schema :=
  filter (fun item => has_column (fst item) df) schema.

(** The logger has received error records only. *)
Definition only_failures (p q : Pipeline) : Prop :=
  exists failures, logged q = logged p ++ failures
                   /\ Forall (fun r => fst r = ERROR) failures.

(** What [pd.to_numeric] reads in one cell of a column of dtype [d],
    before the column is given one dtype: a cell of a numeric column is
    taken as it is, a timestamp as its integer. *)
Definition numeric_reading {ext : Externals} (d : dtype) (v : value) : value :=
  match d with
  | object => numeric_cell v
  | datetime64 => match v with VTime t => VInt t | _ => VInt int64_min end
  | int64 | float64 | Int64 => v
  end.

(** A column of objects that do not all read as integers: its readings
    are turned into floats. *)
Definition mixed_readings {ext : Externals} (d : dtype) (vs : list value) : bool :=
  match d with
  | object => negb (forallb is_int (map numeric_cell vs))
  | _ => false
  end.

(** A cell that a column of dtype [d] can hold. *)
Definition holds_dtype (d : dtype) (v : value) : bool :=
  match d, v with
  | int64, VInt _ => true
  | float64, VFloat _ => true
  | Int64, (VInt _ | VNA) => true
  | datetime64, (VTime _ | VNaT) => true
  | object, _ => true
  | _, _ => false
  end.

(** A list of floats in ascending order: no element is below the one
    before it. *)
Definition ascending (xs : list float) : Prop :=
  Sorted (fun a b => F64.lt b a = false) xs.

(** The median of values in ascending order: the middle one, or the mean
    of the two in the middle; NaN when there is none. *)
Definition middle (xs : list float) : float :=
  let n := List.length xs in
  match n with
  | O => F64.nan
  | _ =>
      if Nat.odd n then nth (n / 2) xs F64.nan
      else PrimFloat.div
             (PrimFloat.add (nth (n / 2 - 1) xs F64.nan) (nth (n / 2) xs F64.nan))
             2%float
  end.

(** The quantile [q] of [n] values in ascending order by linear
    interpolation: at the position [(n - 1) q], between the neighbours
    [a] below and [b] above it, [a + (b - a) g] with [g] the fraction of
    the position, which numpy computes from [b] when [g >= 0.5]; NaN
    when there is no value. *)
Definition interpolated (q : float) (xs : list float) : float :=
  match List.length xs with
  | O => F64.nan
  | S m =>
      let position := PrimFloat.mul (F64.of_Z (Z.of_nat m)) q in
      let below := Z.to_nat (F64.floor position) in
      let g := PrimFloat.sub position (F64.of_Z (Z.of_nat below)) in
      let a := nth below xs F64.nan in
      let b := nth (Nat.min (S below) m) xs F64.nan in
      if PrimFloat.ltb g 0.5%float
      then PrimFloat.add a (PrimFloat.mul (PrimFloat.sub b a) g)
      else PrimFloat.sub b (PrimFloat.mul (PrimFloat.sub b a)
                                          (PrimFloat.sub 1%float g))
  end.

(** A fill that pandas refuses: a text into a nullable integer column
    that has a missing value. *)
Definition refused_fill (i : nat) (df : DataFrame) : bool :=
  dtype_eqb (dtype_at i df) Int64 && (0 <? count_null (getitem i df))%nat.

(** Whether a row passes one of the two bound filters of stage 3: a
    bound that the entry does not have lets every row pass. *)
Definition passes_bound (op : ordering) (bound : option number) (i : nat)
  (r : list value) : bool :=
  match bound with
  | None => true
  | Some b => match compare_cell op b (cell i r) with
              | Ok m => selects m
              | Raise _ => false
              end
  end.

(** Whether a row passes the pattern filter of stage 3, which is applied
    to a column of dtype object only: the text of its cell matches the
    pattern from the start. *)
Definition matches_pattern {ext : Externals} (pat : option string) (d : dtype)
  (i : nat) (r : list value) : bool :=
  match pat with
  | None => true
  | Some pt =>
      if dtype_eqb d object then
        match re_compile pt with
        | Some compiled => compiled (astype_str (cell i r))
        | None => false
        end
      else true
  end.

(** The column an entry names holds no missing value if it is of dtype
    object. *)
Definition text_filled (item : string * ColumnRule) (df : DataFrame) : Prop :=
  forall i, column_index (fst item) df = Some i ->
  dtype_at i df = object ->
  forall r, In r (rows df) -> isnull (cell i r) = false.

(** The iterations a loop goes through: each entry with the frame and
    the instance it starts from.  The loop stops after an iteration that
    raises. *)
Fixpoint iterations {K} (body : K -> DataFrame -> M DataFrame)
  (items : list K) (df : DataFrame) (p : Pipeline)
  : list (K * DataFrame * Pipeline) :=
  match items with
  | [] => []
  | k :: rest =>
      (k, df, p)
      :: match body k df p with
         | (Ok d, q) => iterations body rest d q
         | (Raise _, _) => []
         end
  end.

(** What an iteration of stage 2 sends to the logger: the record of the
    conversion that failed, if it did. *)
Definition conversion_failure {ext : Externals}
  (iteration : (string * ColumnRule) * DataFrame * Pipeline)
  : list (level * string) :=
  let '((column, rules), df, p) := iteration in
  match column_index column df, rule_type rules with
  | Some i, Some t =>
      match fst (coerce t i df p) with
      | Raise e =>
          [(ERROR, ("Type conversion error for " ++ column ++ ": "
                    ++ exn_message e)%string)]
      | Ok _ => []
      end
  | _, _ => []
  end.

(** * Properties *)

(** ** Lists, masks and frames *)

Lemma filter_length_split {A} (f : A -> bool) (l : list A) :
  List.length (filter f l) + List.length (filter (fun x => negb (f x)) l)
  = List.length l.
Proof.
  induction l as [|x l IH]; simpl; [reflexivity|].
  destruct (f x); simpl; lia.
Qed.

Lemma filter_length_le {A} (f : A -> bool) (l : list A) :
  List.length (filter f l) <= List.length l.
Proof.
  induction l as [|x l IH]; simpl; [lia|]. destruct (f x); simpl; lia.
Qed.

Lemma filter_map_length {A B} (f : B -> bool) (g : A -> B) (l : list A) :
  List.length (filter f (map g l)) = List.length (filter (fun x => f (g x)) l).
Proof.
  induction l as [|x l IH]; simpl; [reflexivity|].
  destruct (f (g x)); simpl; congruence.
Qed.

Lemma filter_all {A} (f : A -> bool) (l : list A) :
  List.length (filter (fun x => negb (f x)) l) = 0 -> filter f l = l.
Proof.
  induction l as [|x l IH]; simpl; [reflexivity|].
  destruct (f x); simpl; intros E; [f_equal; auto | discriminate].
Qed.

Lemma count_null_rows i df :
  count_null (getitem i df)
  = List.length (filter (fun r => isnull (cell i r)) (rows df)).
Proof. unfold count_null, getitem; simpl. apply filter_map_length. Qed.

Lemma take_rows_map (m : list value -> option bool) rs :
  take_rows rs (map m rs) = filter (fun r => selects (m r)) rs.
Proof.
  induction rs as [|r rs IH]; simpl; [reflexivity|].
  destruct (selects (m r)); rewrite IH; reflexivity.
Qed.

Lemma take_rows_length rs mask : List.length (take_rows rs mask) <= List.length rs.
Proof.
  revert mask; induction rs as [|r rs IH]; intros [|m mask]; simpl; try lia.
  specialize (IH mask). destruct (selects m); simpl; lia.
Qed.

Lemma take_rows_incl rs mask : incl (take_rows rs mask) rs.
Proof.
  revert mask; induction rs as [|r rs IH]; intros [|m mask]; simpl;
    try apply incl_nil_l.
  specialize (IH mask). destruct (selects m).
  - apply incl_cons; [left; reflexivity | apply incl_tl, IH].
  - apply incl_tl, IH.
Qed.

Lemma set_cells_length i rs vs :
  List.length (set_cells i rs vs) = List.length rs.
Proof.
  revert vs; induction rs as [|r rs IH]; intros [|v vs]; simpl; auto.
Qed.

Lemma set_nth_same {A} i (l : list A) d : set_nth i (nth i l d) l = l.
Proof.
  revert i; induction l as [|x l IH]; intros [|i]; simpl; auto.
  f_equal; apply IH.
Qed.

Lemma set_cells_map i (g : value -> value) rs :
  set_cells i rs (map (fun r => g (cell i r)) rs)
  = map (fun r => set_nth i (g (cell i r)) r) rs.
Proof. induction rs as [|r rs IH]; simpl; [reflexivity|]. now rewrite IH. Qed.

Lemma set_cells_same i rs : set_cells i rs (map (cell i) rs) = rs.
Proof.
  induction rs as [|r rs IH]; simpl; [reflexivity|].
  rewrite IH. f_equal. apply set_nth_same.
Qed.

Lemma set_dtype_same i cols :
  set_dtype i (nth i (map snd cols) object) cols = cols.
Proof.
  revert i; induction cols as [|[c d] cols IH]; intros [|i]; simpl; auto.
  f_equal; apply IH.
Qed.

Lemma setitem_getitem i df : setitem i (getitem i df) df = df.
Proof.
  destruct df as [cols rs]; unfold setitem, getitem, dtype_at; simpl.
  now rewrite set_dtype_same, set_cells_same.
Qed.

Lemma set_dtype_names i d cols : map fst (set_dtype i d cols) = map fst cols.
Proof.
  revert i; induction cols as [|[c d'] cols IH]; intros [|i]; simpl; auto.
  f_equal; apply IH.
Qed.

(** ** The loop over schema entries *)

Lemma for_each_app {K} (body : K -> DataFrame -> M DataFrame) xs ys df p :
  for_each body (xs ++ ys) df p
  = match for_each body xs df p with
    | (Ok df', p') => for_each body ys df' p'
    | (Raise e, p') => (Raise e, p')
    end.
Proof.
  revert df p; induction xs as [|x xs IH]; intros df p; simpl.
  - reflexivity.
  - unfold bind. destruct (body x df p) as [[df'|e] p']; [apply IH | reflexivity].
Qed.

(** What every returning iteration guarantees, the loop guarantees. *)
Lemma for_each_returns {K} (body : K -> DataFrame -> M DataFrame)
  (R : DataFrame -> Pipeline -> DataFrame -> Pipeline -> Prop) :
  (forall df p, R df p df p) ->
  (forall a p b q c r, R a p b q -> R b q c r -> R a p c r) ->
  (forall k df p df' p', body k df p = (Ok df', p') -> R df p df' p') ->
  forall items df p df' p',
    for_each body items df p = (Ok df', p') -> R df p df' p'.
Proof.
  intros Hrefl Htrans Hbody items.
  induction items as [|k items IH]; intros df p df' p'; simpl.
  - unfold ret; intros E; inversion E; subst; apply Hrefl.
  - unfold bind. destruct (body k df p) as [[d1|e] p1] eqn:E1; [|discriminate].
    intros E. eapply Htrans; [eapply Hbody; eassumption | eapply IH; eassumption].
Qed.

(** What every iteration does to the instance, returning or raising. *)
Lemma for_each_state {K} (body : K -> DataFrame -> M DataFrame)
  (S : Pipeline -> Pipeline -> Prop) :
  (forall p, S p p) ->
  (forall p q r, S p q -> S q r -> S p r) ->
  (forall k df p, S p (snd (body k df p))) ->
  forall items df p, S p (snd (for_each body items df p)).
Proof.
  intros Hrefl Htrans Hbody items.
  induction items as [|k items IH]; intros df p; simpl.
  - apply Hrefl.
  - unfold bind. specialize (Hbody k df p).
    destruct (body k df p) as [[d1|e] p1]; simpl in *; [|assumption].
    eapply Htrans; [eassumption | apply IH].
Qed.

(** ** What one iteration of each stage can do to the frame *)

Lemma filter_filter {A} (f g : A -> bool) l :
  filter g (filter f l) = filter (fun x => f x && g x) l.
Proof.
  induction l as [|x l IH]; simpl; [reflexivity|].
  destruct (f x); simpl; [destruct (g x); simpl; now rewrite IH | apply IH].
Qed.

Lemma selection_refl a : selection a a.
Proof.
  split; [reflexivity|]. exists (fun _ => true).
  induction (rows a) as [|r l IH]; simpl; congruence.
Qed.

Lemma selection_trans a b c : selection a b -> selection b c -> selection a c.
Proof.
  intros [Hc1 [f Hf]] [Hc2 [g Hg]]. split; [congruence|].
  exists (fun x => f x && g x). rewrite Hg, Hf. apply filter_filter.
Qed.

Lemma selection_shrinks a b : selection a b -> shrinks a b.
Proof.
  intros [Hc [f Hf]]. split; [now rewrite Hc|].
  unfold len. rewrite Hf. apply filter_length_le.
Qed.

Lemma selection_incl a b : selection a b -> incl (rows b) (rows a).
Proof. intros [_ [f Hf]] r. rewrite Hf. intros H; apply filter_In in H; tauto. Qed.

Lemma shrinks_refl a : shrinks a a.
Proof. split; [reflexivity | lia]. Qed.

Lemma shrinks_trans a b c : shrinks a b -> shrinks b c -> shrinks a c.
Proof. intros [H1 H2] [H3 H4]. split; [congruence | lia]. Qed.

Lemma dropna_selection i df : selection df (dropna i df).
Proof. split; [reflexivity|]. eexists; reflexivity. Qed.

Lemma setitem_shrinks i s df : shrinks df (setitem i s df).
Proof.
  split; simpl; [apply set_dtype_names|].
  unfold len; simpl. rewrite set_cells_length. lia.
Qed.

Lemma mapM_ok_map {A B} (f : A -> result B) (d : B) l l' :
  mapM f l = Ok l' ->
  l' = map (fun x => match f x with Ok y => y | Raise _ => d end) l
  /\ Forall (fun x => exists y, f x = Ok y) l.
Proof.
  revert l'; induction l as [|x l IH]; simpl; intros l' E.
  - inversion E; auto.
  - destruct (f x) as [y|e] eqn:Ex; [|discriminate].
    destruct (mapM f l) as [ys|e]; [|discriminate].
    inversion E; subst. destruct (IH ys eq_refl) as [-> HF].
    split; [reflexivity | constructor; eauto].
Qed.

Lemma mapM_ok_of_Forall {A B} (f : A -> result B) l :
  Forall (fun x => exists y, f x = Ok y) l -> exists l', mapM f l = Ok l'.
Proof.
  induction 1 as [|x l [y Hy] _ [ys IH]]; simpl; [eauto|].
  rewrite Hy, IH. eauto.
Qed.

Lemma boolean_index_selection (m : value -> option bool) i df :
  selection df (boolean_index (map m (s_values (getitem i df))) df).
Proof.
  split; [reflexivity|]. exists (fun r => selects (m (cell i r))). simpl.
  rewrite map_map. apply take_rows_map.
Qed.

Lemma compare_series_ok op b i df mask :
  compare_series op b (getitem i df) = Ok mask ->
  mask = map (fun v => match compare_cell op b v with
                       | Ok m => m
                       | Raise _ => None
                       end) (s_values (getitem i df))
  /\ Forall (fun r => exists m, compare_cell op b (cell i r) = Ok m) (rows df).
Proof.
  unfold compare_series. intros E.
  assert (E' : mapM (compare_cell op b) (s_values (getitem i df)) = Ok mask)
    by (destruct (s_dtype (getitem i df)); try discriminate; exact E).
  apply (mapM_ok_map _ None) in E'. destruct E' as [-> HF]. split; [reflexivity|].
  simpl in HF. rewrite Forall_map in HF. exact HF.
Qed.

Lemma bound_filter_returns op bound i df p df' p' :
  bound_filter op bound i df p = (Ok df', p') ->
  p' = p /\ selection df df'.
Proof.
  unfold bound_filter. destruct bound as [b|].
  - unfold bind, lift, ret.
    destruct (compare_series op b (getitem i df)) as [mask|e] eqn:E; [|discriminate].
    intros H; inversion H; subst. split; [reflexivity|].
    apply compare_series_ok in E. destruct E as [-> _].
    apply boolean_index_selection.
  - unfold ret; intros H; inversion H; subst. split; [reflexivity | apply selection_refl].
Qed.

Lemma pattern_filter_returns {ext : Externals} pat i df p df' p' :
  pattern_filter pat i df p = (Ok df', p') ->
  p' = p /\ selection df df'.
Proof.
  unfold pattern_filter. destruct pat as [pt|].
  - destruct (dtype_eqb (dtype_at i df) object).
    + destruct (re_compile pt) as [compiled|]; [|discriminate].
      unfold ret; intros H; inversion H; subst. split; [reflexivity|].
      apply boolean_index_selection.
    + unfold ret; intros H; inversion H; subst.
      split; [reflexivity | apply selection_refl].
  - unfold ret; intros H; inversion H; subst.
    split; [reflexivity | apply selection_refl].
Qed.

(** Unfolds the plumbing of a method body. *)
Ltac unfold_M :=
  unfold bind, ret, lift, raise, try_except, errors_append, log,
    set_total_rows, set_cleaned_rows, get_errors, get_counts in *.

Ltac inv H := inversion H; subst; clear H.

Lemma fillna_length fill s s' :
  fillna fill s = Ok s' -> List.length (s_values s') = List.length (s_values s).
Proof.
  unfold fillna. destruct (Nat.eqb (count_null s) 0).
  - intros E; inv E; reflexivity.
  - destruct fill, (s_dtype s); intros E; inv E; simpl; apply length_map.
Qed.

Lemma handle_missing_column_returns item df p df' p' :
  handle_missing_column item df p = (Ok df', p') ->
  shrinks df df' /\ same_counts p p' /\ logged p' = logged p.
Proof.
  destruct item as [column rules]. unfold handle_missing_column.
  destruct (column_index column df) as [i|].
  2:{ unfold_M; intros E; inv E. repeat split; apply shrinks_refl. }
  destruct (is_required rules).
  - destruct (0 <? count_null (getitem i df))%nat; unfold_M; intros E; inv E.
    + repeat split; apply selection_shrinks, dropna_selection.
    + repeat split; apply shrinks_refl.
  - destruct (dtype_eqb (dtype_at i df) int64 || dtype_eqb (dtype_at i df) float64);
      unfold_M.
    + destruct (fillna _ _) as [s|e]; intros E; inv E.
      repeat split; apply setitem_shrinks.
    + destruct (fillna _ _) as [s|e]; intros E; inv E.
      repeat split; apply setitem_shrinks.
Qed.

Lemma handle_missing_column_state item df p :
  same_counts p (snd (handle_missing_column item df p)).
Proof.
  destruct item as [column rules]. unfold handle_missing_column.
  destruct (column_index column df) as [i|]; [|split; reflexivity].
  destruct (is_required rules).
  - destruct (0 <? count_null (getitem i df))%nat; unfold_M; split; reflexivity.
  - destruct (dtype_eqb (dtype_at i df) int64 || dtype_eqb (dtype_at i df) float64);
      unfold_M; destruct (fillna _ _); split; reflexivity.
Qed.

Lemma coerce_cases {ext : Externals} t i df p :
  exists r, coerce t i df p = (r, p)
    /\ match r with
       | Ok df1 => df1 = df \/ exists s, df1 = setitem i s df
       | Raise _ => True
       end.
Proof.
  destruct t as [t| | |]; simpl; unfold_M.
  - destruct (String.eqb t "datetime");
      eexists; (split; [reflexivity | simpl; eauto]).
  - destruct (astype_Int64 (to_numeric (getitem i df))) as [s|e];
      eexists; (split; [reflexivity | simpl; eauto]).
  - eexists; (split; [reflexivity | simpl; eauto]).
  - eexists; (split; [reflexivity | simpl; eauto]).
Qed.

Lemma validate_column_returns {ext : Externals} item df p df' p' :
  validate_column item df p = (Ok df', p') ->
  shrinks df df' /\ same_counts p p'.
Proof.
  destruct item as [column rules]. unfold validate_column.
  destruct (column_index column df) as [i|].
  2:{ unfold_M; intros E; inv E. repeat split; apply shrinks_refl. }
  destruct (rule_type rules) as [t|]; [|unfold_M; discriminate].
  destruct (coerce_cases t i df p) as [r [Er Hr]].
  unfold try_except, bind at 1. rewrite Er.
  destruct r as [df1|e].
  - assert (Hs : shrinks df df1).
    { destruct Hr as [->|[s ->]]; [apply shrinks_refl | apply setitem_shrinks]. }
    destruct (0 <? count_null (getitem i df1))%nat; unfold_M; intros E; inv E.
    + repeat split; try reflexivity.
      * destruct Hs as [Hn _]. simpl. exact Hn.
      * eapply Nat.le_trans; [|apply Hs].
        apply (selection_shrinks _ _ (dropna_selection i df1)).
    + repeat split; try reflexivity; apply Hs.
  - unfold_M. intros E; inv E. repeat split; apply shrinks_refl.
Qed.

Lemma validate_column_state {ext : Externals} item df p :
  same_counts p (snd (validate_column item df p)).
Proof.
  destruct item as [column rules]. unfold validate_column.
  destruct (column_index column df) as [i|]; [|split; reflexivity].
  destruct (rule_type rules) as [t|]; [|split; reflexivity].
  destruct (coerce_cases t i df p) as [r [Er Hr]].
  unfold try_except, bind at 1. rewrite Er.
  destruct r as [df1|e].
  - destruct (0 <? count_null (getitem i df1))%nat; unfold_M; split; reflexivity.
  - unfold_M; split; reflexivity.
Qed.

Lemma constrain_column_returns {ext : Externals} item df p df' p' :
  constrain_column item df p = (Ok df', p') ->
  selection df df' /\ same_counts p p' /\ logged p' = logged p.
Proof.
  destruct item as [column rules]. unfold constrain_column.
  destruct (column_index column df) as [i|].
  2:{ unfold_M; intros E; inv E. repeat split; apply selection_refl. }
  unfold bind at 1.
  destruct (bound_filter GE (min_value rules) i df p) as [[d1|e] p1] eqn:E1;
    [|discriminate].
  apply bound_filter_returns in E1. destruct E1 as [-> S1].
  unfold bind at 1.
  destruct (bound_filter LE (max_value rules) i d1 p) as [[d2|e] p2] eqn:E2;
    [|discriminate].
  apply bound_filter_returns in E2. destruct E2 as [-> S2].
  unfold bind at 1.
  destruct (pattern_filter (pattern rules) i d2 p) as [[d3|e] p3] eqn:E3;
    [|discriminate].
  apply pattern_filter_returns in E3. destruct E3 as [-> S3].
  assert (S : selection df d3)
    by (eapply selection_trans; [eapply selection_trans|]; eassumption).
  destruct (0 <? len df - len d3)%nat; unfold_M; intros E; inv E;
    repeat split; apply S.
Qed.

Lemma bound_filter_state op bound i df p :
  snd (bound_filter op bound i df p) = p.
Proof.
  unfold bound_filter. destruct bound; unfold_M; [|reflexivity].
  destruct (compare_series _ _ _); reflexivity.
Qed.

Lemma pattern_filter_state {ext : Externals} pat i df p :
  snd (pattern_filter pat i df p) = p.
Proof.
  unfold pattern_filter. destruct pat; unfold_M; [|reflexivity].
  destruct (dtype_eqb _ _); [|reflexivity].
  destruct (re_compile _); reflexivity.
Qed.

Lemma constrain_column_state {ext : Externals} item df p :
  same_counts p (snd (constrain_column item df p)).
Proof.
  destruct item as [column rules]. unfold constrain_column.
  destruct (column_index column df) as [i|]; [|split; reflexivity].
  unfold bind at 1.
  pose proof (bound_filter_state GE (min_value rules) i df p) as H1.
  destruct (bound_filter GE (min_value rules) i df p) as [[d1|e] p1];
    simpl in H1; subst p1; [|split; reflexivity].
  unfold bind at 1.
  pose proof (bound_filter_state LE (max_value rules) i d1 p) as H2.
  destruct (bound_filter LE (max_value rules) i d1 p) as [[d2|e] p2];
    simpl in H2; subst p2; [|split; reflexivity].
  unfold bind at 1.
  pose proof (pattern_filter_state (pattern rules) i d2 p) as H3.
  destruct (pattern_filter (pattern rules) i d2 p) as [[d3|e] p3];
    simpl in H3; subst p3; [|split; reflexivity].
  destruct (0 <? len df - len d3)%nat; unfold_M; split; reflexivity.
Qed.

Lemma combine_map {A B C} (f : A -> B) (g : A -> C) l :
  combine (map f l) (map g l) = map (fun x => (f x, g x)) l.
Proof. induction l as [|x l IH]; simpl; [reflexivity | now rewrite IH]. Qed.

Lemma outlier_mask_ok lower upper i df mask :
  outlier_mask lower upper (getitem i df) = Ok mask ->
  mask = map (fun r => outlier_cell lower upper (cell i r)) (rows df)
  /\ Forall (fun r => exists m, compare_cell LT (NFloat lower) (cell i r) = Ok m)
            (rows df)
  /\ Forall (fun r => exists m, compare_cell GT (NFloat upper) (cell i r) = Ok m)
            (rows df).
Proof.
  unfold outlier_mask.
  destruct (compare_series LT _ _) as [below|e] eqn:E1; [|discriminate].
  destruct (compare_series GT _ _) as [above|e] eqn:E2; [|discriminate].
  apply compare_series_ok in E1. destruct E1 as [-> F1].
  apply compare_series_ok in E2. destruct E2 as [-> F2].
  intros E; inv E. split; [|split; assumption].
  rewrite combine_map. simpl. rewrite !map_map.
  apply map_ext_in. intros r Hr. unfold outlier_cell.
  rewrite Forall_forall in F1, F2.
  destruct (F1 r Hr) as [m1 ->]. destruct (F2 r Hr) as [m2 ->]. reflexivity.
Qed.

Lemma remove_outliers_column_returns schema column df p df' p' :
  remove_outliers_column schema column df p = (Ok df', p') ->
  selection df df' /\ same_counts p p' /\ logged p' = logged p.
Proof.
  unfold remove_outliers_column.
  destruct (in_schema column schema).
  2:{ unfold_M; intros E; inv E. repeat split; apply selection_refl. }
  destruct (column_index column df) as [i|].
  2:{ unfold_M; intros E; inv E. repeat split; apply selection_refl. }
  unfold bind at 1, lift.
  destruct (outlier_mask _ _ _) as [mask|e] eqn:Em; [|discriminate].
  apply outlier_mask_ok in Em. destruct Em as [-> _].
  destruct (0 <? mask_sum _)%nat; unfold_M; intros E; inv E.
  - repeat split; try reflexivity.
    rewrite map_map. simpl. eexists. apply take_rows_map.
  - repeat split; apply selection_refl.
Qed.

Lemma remove_outliers_column_state schema column df p :
  same_counts p (snd (remove_outliers_column schema column df p)).
Proof.
  unfold remove_outliers_column.
  destruct (in_schema column schema); [|split; reflexivity].
  destruct (column_index column df) as [i|]; [|split; reflexivity].
  unfold bind at 1, lift.
  destruct (outlier_mask _ _ _) as [mask|e]; [|split; reflexivity].
  destruct (0 <? mask_sum _)%nat; unfold_M; split; reflexivity.
Qed.

Lemma same_counts_refl p : same_counts p p.
Proof. split; reflexivity. Qed.

Lemma same_counts_trans p q r :
  same_counts p q -> same_counts q r -> same_counts p r.
Proof. intros [A B] [C D]; split; congruence. Qed.

Lemma for_each_stage_ok {K} (body : K -> DataFrame -> M DataFrame) items :
  (forall k, stage_ok (body k)) -> stage_ok (for_each body items).
Proof.
  intros H. split.
  - intros df p df' p' E.
    apply (for_each_returns body
             (fun a p b q => shrinks a b /\ same_counts p q)) in E; auto.
    + intros; split; [apply shrinks_refl | apply same_counts_refl].
    + intros a p0 b q c r [A B] [C D].
      split; [eapply shrinks_trans | eapply same_counts_trans]; eassumption.
    + intros k d q d' q' E'. apply (proj1 (H k)) in E'. exact E'.
  - intros df p. apply for_each_state.
    + apply same_counts_refl.
    + apply same_counts_trans.
    + intros k d q. apply (proj2 (H k)).
Qed.

Lemma stage1_ok schema : stage_ok (_handle_missing_values schema).
Proof.
  apply for_each_stage_ok. intros k; split.
  - intros df p df' p' E. apply handle_missing_column_returns in E. tauto.
  - apply handle_missing_column_state.
Qed.

Lemma stage2_ok {ext : Externals} schema : stage_ok (_validate_data_types schema).
Proof.
  apply for_each_stage_ok. intros k; split.
  - apply validate_column_returns.
  - apply validate_column_state.
Qed.

Lemma stage3_ok {ext : Externals} schema : stage_ok (_apply_constraints schema).
Proof.
  apply for_each_stage_ok. intros k; split.
  - intros df p df' p' E. apply constrain_column_returns in E.
    destruct E as [S [C _]]. split; [apply selection_shrinks, S | exact C].
  - apply constrain_column_state.
Qed.

Lemma stage4_ok schema : stage_ok (_remove_outliers schema).
Proof.
  split.
  - intros df p df' p' E. unfold _remove_outliers in E.
    revert E. generalize (numeric_columns df). intros cols E.
    assert (Hbody : forall k, stage_ok (remove_outliers_column schema k)).
    { intros k; split; [|apply remove_outliers_column_state].
      intros d q d' q' E'. apply remove_outliers_column_returns in E'.
      destruct E' as [Hs [Hc _]]. split; [apply selection_shrinks, Hs | exact Hc]. }
    apply (proj1 (for_each_stage_ok _ cols Hbody)) in E. exact E.
  - intros df p. unfold _remove_outliers.
    apply for_each_state;
      [apply same_counts_refl | apply same_counts_trans
      | apply remove_outliers_column_state].
Qed.

Lemma warnings_run (es : list string) (acc : M unit) p e c t l :
  acc p = (Ok tt, mkPipeline e c t l) ->
  exists l', fold_left (fun a w => (a ;;; log WARNING w)%pipeline) es acc p
             = (Ok tt, mkPipeline e c t (l ++ l')).
Proof.
  revert acc l; induction es as [|w es IH]; intros acc l E; simpl.
  - exists []. now rewrite app_nil_r.
  - destruct (IH (acc ;;; log WARNING w)%pipeline (l ++ [(WARNING, w)]))
      as [l' El'].
    + unfold_M. rewrite E. simpl. reflexivity.
    + exists ((WARNING, w) :: l'). rewrite El'. now rewrite <- app_assoc.
Qed.

(** The report only speaks to the logger. *)
Lemma generate_report_run p :
  exists l, _generate_report p
            = (Ok tt, mkPipeline (errors p) (cleaned_rows p) (total_rows p)
                        (logged p ++ l)).
Proof.
  unfold _generate_report. unfold bind at 1. unfold get_counts.
  unfold bind at 1. unfold log at 1. unfold bind at 1. unfold get_errors at 1.
  cbn [fst snd errors cleaned_rows total_rows logged].
  match goal with
  | |- exists l, fold_left ?f ?es ?acc ?st = _ =>
      destruct (warnings_run es acc st _ _ _ _ eq_refl) as [l' El']
  end.
  eexists. rewrite El'. rewrite <- app_assoc. reflexivity.
Qed.

Lemma four_stages_ok {ext : Externals} schema : stage_ok (four_stages schema).
Proof.
  destruct (stage1_ok schema) as [A1 B1]. destruct (stage2_ok schema) as [A2 B2].
  destruct (stage3_ok schema) as [A3 B3]. destruct (stage4_ok schema) as [A4 B4].
  split.
  - intros df p df' p'. unfold four_stages. unfold bind.
    destruct (_handle_missing_values schema df p) as [[d1|e] p1] eqn:E1; [|discriminate].
    destruct (_validate_data_types schema d1 p1) as [[d2|e] p2] eqn:E2; [|discriminate].
    destruct (_apply_constraints schema d2 p2) as [[d3|e] p3] eqn:E3; [|discriminate].
    intros E4.
    apply A1 in E1. apply A2 in E2. apply A3 in E3. apply A4 in E4.
    destruct E1, E2, E3, E4. split.
    + eapply shrinks_trans; [eassumption|].
      eapply shrinks_trans; [eassumption|].
      eapply shrinks_trans; eassumption.
    + eapply same_counts_trans; [eassumption|].
      eapply same_counts_trans; [eassumption|].
      eapply same_counts_trans; eassumption.
  - intros df p. unfold four_stages. unfold bind.
    specialize (B1 df p).
    destruct (_handle_missing_values schema df p) as [[d1|e] p1]; simpl in *; auto.
    specialize (B2 d1 p1).
    destruct (_validate_data_types schema d1 p1) as [[d2|e] p2]; simpl in *;
      [|eapply same_counts_trans; eassumption].
    specialize (B3 d2 p2).
    destruct (_apply_constraints schema d2 p2) as [[d3|e] p3]; simpl in *;
      [|eapply same_counts_trans; [eassumption|eapply same_counts_trans; eassumption]].
    specialize (B4 d3 p3).
    eapply same_counts_trans; [eassumption|].
    eapply same_counts_trans; [eassumption|].
    eapply same_counts_trans; eassumption.
Qed.

(** How a run unfolds: the counter and the announcement, the four stages,
    then the second counter and the report. *)
Lemma clean_and_validate_unfold {ext : Externals} schema df p :
  match four_stages schema df (started df p) with
  | (Ok out, q) =>
      exists l, clean_and_validate schema df p
                = (Ok out, mkPipeline (errors q) (len out) (total_rows q)
                             (logged q ++ l))
  | (Raise e, q) => clean_and_validate schema df p = (Raise e, q)
  end.
Proof.
  unfold clean_and_validate, four_stages, started, bind, set_total_rows, log.
  cbn [errors cleaned_rows total_rows logged].
  destruct (_handle_missing_values schema df _) as [[d1|e] p1]; [|reflexivity].
  destruct (_validate_data_types schema d1 p1) as [[d2|e] p2]; [|reflexivity].
  destruct (_apply_constraints schema d2 p2) as [[d3|e] p3]; [|reflexivity].
  destruct (_remove_outliers schema d3 p3) as [[out|e] q]; [|reflexivity].
  unfold set_cleaned_rows.
  destruct (generate_report_run
              (mkPipeline (errors q) (len out) (total_rows q) (logged q)))
    as [l El].
  rewrite El. unfold ret. simpl. eauto.
Qed.

(** C3. After a run that returns, [cleaned_rows] is the number of rows of
    the frame the four stages produce in sequence from the input,
    [total_rows] is the number of rows of the input, and
    [cleaned_rows <= total_rows].  A run that raises leaves [cleaned_rows]
    as it was (0 on a fresh instance). *)
Theorem cleaned_rows_le_total_rows {ext : Externals} schema df p :
  match clean_and_validate schema df p with
  | (Ok out, p') =>
      (exists q, four_stages schema df (started df p) = (Ok out, q))
      /\ cleaned_rows p' = len out
      /\ total_rows p' = len df
      /\ cleaned_rows p' <= total_rows p'
  | (Raise e, p') =>
      fst (four_stages schema df (started df p)) = Raise e
      /\ total_rows p' = len df
      /\ cleaned_rows p' = cleaned_rows p
  end.
Proof.
  pose proof (clean_and_validate_unfold schema df p) as U.
  destruct (four_stages_ok schema) as [A B].
  destruct (four_stages schema df (started df p)) as [[out|e] q] eqn:E.
  - destruct U as [l ->]. apply A in E. destruct E as [[_ Hlen] [_ Ht]].
    simpl in *. repeat split; eauto; lia.
  - rewrite U. specialize (B df (started df p)). rewrite E in B.
    destruct B as [Hc Ht]. simpl in *. auto.
Qed.

(** ** Stage 1: missing values *)

Lemma no_null_rows i rs :
  List.length (filter (fun r => isnull (cell i r)) rs) = 0 ->
  forall r, In r rs -> isnull (cell i r) = false.
Proof.
  induction rs as [|x rs IH]; simpl; [tauto|].
  destruct (isnull (cell i x)) eqn:E; simpl; [discriminate|].
  intros H r [<-|Hr]; auto.
Qed.

Lemma fill_rows_none i fill rs :
  List.length (filter (fun r => isnull (cell i r)) rs) = 0 ->
  map (fun r => if isnull (cell i r) then set_nth i fill r else r) rs = rs.
Proof.
  intros H. rewrite <- (map_id rs) at 2. apply map_ext_in.
  intros r Hr. now rewrite (no_null_rows i rs H r Hr).
Qed.

Lemma fill_rows_cells i fill rs :
  set_cells i rs (map (fun v => if isnull v then fill else v) (map (cell i) rs))
  = map (fun r => if isnull (cell i r) then set_nth i fill r else r) rs.
Proof.
  rewrite map_map.
  rewrite (set_cells_map i (fun v => if isnull v then fill else v)).
  apply map_ext. intros r. destruct (isnull (cell i r)); [reflexivity|].
  apply set_nth_same.
Qed.

Lemma present_numbers_skip_null vs :
  present_numbers (filter (fun v => negb (isnull v)) vs) = present_numbers vs.
Proof.
  induction vs as [|v vs IH]; simpl; [reflexivity|].
  destruct v as [z|f| | | |]; simpl; try (rewrite IH; reflexivity); try exact IH.
  unfold F64.is_nan. destruct (PrimFloat.is_nan f) eqn:E; simpl.
  - exact IH.
  - unfold F64.is_nan. rewrite E, IH. reflexivity.
Qed.

(** The median of a column is the median of its values that are present. *)
Lemma median_skips_missing d vs :
  median (mkSeries d vs)
  = median (mkSeries d (filter (fun v => negb (isnull v)) vs)).
Proof. unfold median; simpl. now rewrite present_numbers_skip_null. Qed.

(** *** The order of floats and the sort of pandas *)

Lemma SFcompare_antisym a b :
  SFcompare b a = option_map CompOpp (SFcompare a b).
Proof.
  destruct a as [sa|sa| |sa ma ea], b as [sb|sb| |sb mb eb]; simpl;
    try reflexivity; try (destruct sa; reflexivity); try (destruct sb; reflexivity);
    try (destruct sa, sb; reflexivity).
  destruct sa, sb; simpl; try reflexivity.
  - rewrite (Z.compare_antisym ea eb). destruct (ea ?= eb)%Z; simpl; try reflexivity.
    change (Pcompare mb ma Eq) with (Pos.compare mb ma).
    change (Pcompare ma mb Eq) with (Pos.compare ma mb).
    rewrite (Pos.compare_antisym ma mb). reflexivity.
  - rewrite (Z.compare_antisym ea eb). destruct (ea ?= eb)%Z; simpl; try reflexivity.
    change (Pcompare mb ma Eq) with (Pos.compare mb ma).
    change (Pcompare ma mb Eq) with (Pos.compare ma mb).
    rewrite (Pos.compare_antisym ma mb). reflexivity.
Qed.

Lemma le_not_above x y : F64.le x y = true -> F64.lt y x = false.
Proof.
  unfold F64.le, F64.lt. rewrite leb_spec, ltb_spec. unfold SFleb, SFltb.
  rewrite (SFcompare_antisym (Prim2SF x) (Prim2SF y)).
  destruct (SFcompare (Prim2SF x) (Prim2SF y)) as [[| |]|]; simpl; congruence.
Qed.

Lemma not_le_not_below x y : F64.le x y = false -> F64.lt x y = false.
Proof.
  unfold F64.le, F64.lt. rewrite leb_spec, ltb_spec. unfold SFleb, SFltb.
  destruct (SFcompare (Prim2SF x) (Prim2SF y)) as [[| |]|]; simpl; congruence.
Qed.

Lemma insert_sorted_permutation x l : Permutation (insert_sorted x l) (x :: l).
Proof.
  induction l as [|y t IH]; simpl; [reflexivity|].
  destruct (F64.le x y); [reflexivity|].
  rewrite IH. apply perm_swap.
Qed.

Lemma insert_sorted_head x y t :
  F64.lt x y = false ->
  HdRel (fun a b => F64.lt b a = false) y t ->
  HdRel (fun a b => F64.lt b a = false) y (insert_sorted x t).
Proof.
  intros Hxy Ht. destruct t as [|z t]; simpl.
  - constructor. exact Hxy.
  - destruct (F64.le x z); constructor; [exact Hxy|].
    now inversion Ht.
Qed.

Lemma insert_sorted_ascending x l : ascending l -> ascending (insert_sorted x l).
Proof.
  unfold ascending. induction l as [|y t IH]; simpl; intros H.
  - repeat constructor.
  - inversion H as [|? ? Hs Hh]; subst.
    destruct (F64.le x y) eqn:E.
    + constructor; [exact H|]. constructor. now apply le_not_above.
    + constructor; [now apply IH|].
      apply insert_sorted_head; [now apply not_le_not_below | exact Hh].
Qed.

(** The sort puts the values in ascending order and loses none. *)
Lemma sort_floats_sorts l :
  Permutation (sort_floats l) l /\ ascending (sort_floats l).
Proof.
  unfold sort_floats. induction l as [|x l [IHp IHs]]; simpl.
  - split; [reflexivity | constructor].
  - split.
    + rewrite insert_sorted_permutation. now constructor.
    + now apply insert_sorted_ascending.
Qed.

Lemma median_is_middle s :
  median s = middle (sort_floats (present_numbers (s_values s))).
Proof. reflexivity. Qed.

Lemma handle_missing_optional column rules df p i :
  column_index column df = Some i ->
  is_required rules = false ->
  refused_fill i df = false ->
  handle_missing_column (column, rules) df p
  = (Ok (mkFrame (filled_columns i df)
           (map (fun r => if isnull (cell i r)
                          then set_nth i (fill_value i df) r else r)
                (rows df))), p).
Proof.
  intros Hi Hreq HInt. unfold handle_missing_column. rewrite Hi, Hreq.
  unfold filled_columns, fill_value.
  destruct (dtype_eqb (dtype_at i df) int64 || dtype_eqb (dtype_at i df) float64)
    eqn:Hnum; unfold_M; unfold fillna.
  - destruct (Nat.eqb (count_null (getitem i df)) 0) eqn:Hc.
    + rewrite setitem_getitem. apply Nat.eqb_eq in Hc.
      rewrite count_null_rows in Hc. rewrite fill_rows_none by exact Hc.
      destruct df; reflexivity.
    + simpl. unfold setitem; simpl. rewrite fill_rows_cells.
      unfold dtype_at. rewrite set_dtype_same. reflexivity.
  - destruct (Nat.eqb (count_null (getitem i df)) 0) eqn:Hc.
    + rewrite setitem_getitem. apply Nat.eqb_eq in Hc.
      rewrite count_null_rows in Hc. rewrite fill_rows_none by exact Hc.
      destruct df; reflexivity.
    + simpl. destruct (dtype_at i df) eqn:Hd; simpl in Hnum; try discriminate;
        try (unfold setitem; simpl; rewrite fill_rows_cells; reflexivity).
      apply Nat.eqb_neq in Hc. unfold refused_fill in HInt. rewrite Hd in HInt.
      simpl in HInt. apply Nat.ltb_ge in HInt. lia.
Qed.

(** An optional column of the nullable integer dtype with a missing
    value: the fill with a text raises and nothing is filled. *)
Lemma handle_missing_refused column rules df p i :
  column_index column df = Some i ->
  is_required rules = false ->
  refused_fill i df = true ->
  exists text,
    handle_missing_column (column, rules) df p = (Raise (TypeError text), p).
Proof.
  intros Hi Hreq HInt. unfold handle_missing_column. rewrite Hi, Hreq.
  unfold refused_fill in HInt. apply andb_prop in HInt. destruct HInt as [Hd Hc].
  destruct (dtype_at i df) eqn:Ed; try discriminate. simpl.
  unfold_M. unfold fillna. apply Nat.ltb_lt in Hc.
  destruct (Nat.eqb (count_null (getitem i df)) 0) eqn:E0;
    [apply Nat.eqb_eq in E0; lia|].
  simpl. rewrite Ed. eexists. reflexivity.
Qed.

(** C6. When the loop of stage 1 reaches a required column of the table
    that has [n > 0] missing values, exactly the rows whose value in that
    column is missing are dropped and the entry
    "Removed n rows with missing column" is appended to [errors]; the
    loop goes on from there. *)
Theorem required_column_drops_missing_rows
  (pre post : Schema) column rules df0 p0 df p i :
  _handle_missing_values pre df0 p0 = (Ok df, p) ->
  column_index column df = Some i ->
  required rules = Some true ->
  0 < count_null (getitem i df) ->
  let n := count_null (getitem i df) in
  let kept := filter (fun r => negb (isnull (cell i r))) (rows df) in
  _handle_missing_values (pre ++ (column, rules) :: post) df0 p0
  = _handle_missing_values post (mkFrame (columns df) kept)
      (mkPipeline
         (errors p
          ++ [("Removed " ++ str_nat n ++ " rows with missing " ++ column)%string])
         (cleaned_rows p) (total_rows p) (logged p))
  /\ n = List.length (filter (fun r => isnull (cell i r)) (rows df))
  /\ List.length kept = len df - n.
Proof.
  intros Hpre Hi Hreq Hn n kept. split; [|split].
  - unfold _handle_missing_values in *. rewrite for_each_app, Hpre.
    simpl. unfold bind at 1. unfold handle_missing_column.
    rewrite Hi. unfold is_required. rewrite Hreq.
    apply Nat.ltb_lt in Hn. rewrite Hn. unfold_M. reflexivity.
  - apply count_null_rows.
  - subst n kept. rewrite count_null_rows. unfold len.
    pose proof (filter_length_split (fun r => isnull (cell i r)) (rows df)) as H.
    cbv beta in H. lia.
Qed.

(** C7, as the code has it. When the loop of stage 1 reaches a column of
    the table that is not required, what it does depends on the dtype.
    On a column of dtype int64 or float64 (the code's test for numeric)
    every missing value is replaced by the median of the values present
    in the column at that point: the middle of these values in ascending
    order, or the mean of the two in the middle.  On a column of the
    nullable integer dtype that has a missing value the fill with a text
    is refused: the loop raises [TypeError] and nothing is filled.  On
    any other column every missing value is replaced by the text
    "Unknown".  Nothing else changes and nothing is logged. *)
Theorem optional_column_fills_missing_values
  (pre post : Schema) column rules df0 p0 df p i :
  _handle_missing_values pre df0 p0 = (Ok df, p) ->
  column_index column df = Some i ->
  is_required rules = false ->
  let numeric :=
    dtype_eqb (dtype_at i df) int64 || dtype_eqb (dtype_at i df) float64 in
  let present_values := present_numbers (s_values (getitem i df)) in
  let in_order := sort_floats present_values in
  let fill := if numeric then VFloat (middle in_order) else VStr "Unknown" in
  Permutation in_order present_values
  /\ ascending in_order
  /\ (refused_fill i df = true ->
      exists text,
        _handle_missing_values (pre ++ (column, rules) :: post) df0 p0
        = (Raise (TypeError text), p))
  /\ (refused_fill i df = false ->
      _handle_missing_values (pre ++ (column, rules) :: post) df0 p0
      = _handle_missing_values post
          (mkFrame (filled_columns i df)
             (map (fun r => if isnull (cell i r) then set_nth i fill r else r)
                  (rows df)))
          p)
  /\ map fst (filled_columns i df) = map fst (columns df).
Proof.
  intros Hpre Hi Hreq numeric present_values in_order fill.
  destruct (sort_floats_sorts present_values) as [Hperm Hasc].
  split; [exact Hperm|]. split; [exact Hasc|]. split; [|split].
  - intros Href.
    destruct (handle_missing_refused column rules df p i Hi Hreq Href) as [text E].
    exists text. unfold _handle_missing_values in *. rewrite for_each_app, Hpre.
    cbn [for_each]. unfold bind at 1. rewrite E. reflexivity.
  - intros Href. unfold _handle_missing_values in *. rewrite for_each_app, Hpre.
    cbn [for_each]. unfold bind at 1.
    rewrite (handle_missing_optional column rules df p i Hi Hreq Href).
    replace (fill_value i df) with fill; [reflexivity|].
    unfold fill, fill_value, numeric.
    destruct (dtype_eqb _ _ || dtype_eqb _ _); reflexivity.
  - unfold filled_columns. destruct (fill_value i df); try reflexivity.
    destruct (Nat.eqb _ _); [reflexivity | apply set_dtype_names].
Qed.

Section StageOneExamples.

#[local] Existing Instance Examples.literal_externals.

(** Ten rows, three of them without an age: seven rows are left and the
    entry says so. *)
Lemma required_column_drops_missing_rows_witness :
  _handle_missing_values [("age", Examples.rule PyFloat true)]
    Examples.ten_ages init
  = (Ok (Examples.floats "age" [31; 40; 28; 35; 52; 47; 39]%float),
     mkPipeline ["Removed 3 rows with missing age"] 0 0 []).
Proof.
  destruct (required_column_drops_missing_rows
              [] [] "age" (Examples.rule PyFloat true)
              Examples.ten_ages init Examples.ten_ages init 0
              eq_refl eq_refl eq_refl) as [E _].
  - vm_compute. repeat constructor.
  - exact E.
Defined.

(** [4, missing, 1, 2]: the values present are 1, 2, 4 in ascending
    order and the missing value becomes their median 2; and the example
    of the specification, [1, 2, missing, 4] becomes [1, 2, 2, 4]. *)
Lemma optional_column_fills_missing_values_witness :
  sort_floats (present_numbers [VFloat 4; VFloat F64.nan; VFloat 1; VFloat 2]%float)
  = [1; 2; 4]%float
  /\ _handle_missing_values [("score", Examples.rule PyFloat false)]
       (Examples.floats "score" [4; F64.nan; 1; 2]%float) init
     = (Ok (Examples.floats "score" [4; 2; 1; 2]%float), init)
  /\ _handle_missing_values [("score", Examples.rule PyFloat false)]
       (Examples.floats "score" [1; 2; F64.nan; 4]%float) init
     = (Ok (Examples.floats "score" [1; 2; 2; 4]%float), init).
Proof.
  split; [reflexivity|]. split.
  - destruct (optional_column_fills_missing_values
                [] [] "score" (Examples.rule PyFloat false)
                (Examples.floats "score" [4; F64.nan; 1; 2]%float) init
                (Examples.floats "score" [4; F64.nan; 1; 2]%float) init 0
                eq_refl eq_refl eq_refl) as (_ & _ & _ & E & _).
    exact (E eq_refl).
  - destruct (optional_column_fills_missing_values
                [] [] "score" (Examples.rule PyFloat false)
                (Examples.floats "score" [1; 2; F64.nan; 4]%float) init
                (Examples.floats "score" [1; 2; F64.nan; 4]%float) init 0
                eq_refl eq_refl eq_refl) as (_ & _ & _ & E & _).
    exact (E eq_refl).
Defined.

(** The mean of the two in the middle, when the values present are even
    in number: [7, missing, 1, 2, 4] becomes [7, 3, 1, 2, 4]. *)
Lemma median_of_four_values :
  _handle_missing_values [("score", Examples.rule PyFloat false)]
    (Examples.floats "score" [7; F64.nan; 1; 2; 4]%float) init
  = (Ok (Examples.floats "score" [7; 3; 1; 2; 4]%float), init).
Proof. reflexivity. Qed.

(** A text column is filled with "Unknown". *)
Lemma text_column_filled_with_unknown :
  _handle_missing_values [("name", Examples.rule PyStr false)]
    (Examples.mixed "name" [VStr "bob"; VFloat F64.nan]) init
  = (Ok (Examples.texts "name" ["bob"; "Unknown"]), init).
Proof. reflexivity. Qed.

(** C7, the statement of the specification fails: a column of nullable
    integers [1, NA, 3] that is not required is numeric, yet its missing
    value is replaced neither by the median 2 nor by "Unknown": the
    fill raises [TypeError] in stage 1 and the run stops there. *)
Lemma nullable_integer_column_is_not_filled :
  exists text,
    clean_and_validate [("n", Examples.rule PyInt false)]
      (mkFrame [("n", Int64)] [[VInt 1]; [VNA]; [VInt 3]]) init
    = (Raise (TypeError text),
       mkPipeline [] 0 3 [(INFO, "Starting pipeline with 3 rows")]).
Proof. eexists. reflexivity. Qed.

End StageOneExamples.

(** ** Stage 2: types *)

(** One iteration of stage 2 once the coercion has returned [df1]. *)
Lemma validate_column_coerced {ext : Externals} column rules t df p i df1 :
  column_index column df = Some i ->
  rule_type rules = Some t ->
  coerce t i df p = (Ok df1, p) ->
  validate_column (column, rules) df p
  = if (0 <? count_null (getitem i df1))%nat
    then (Ok (dropna i df1),
          with_error ("Removed " ++ str_nat (count_null (getitem i df1))
                      ++ " rows with invalid " ++ column) p)
    else (Ok df1, p).
Proof.
  intros Hi Ht Hc. unfold validate_column. rewrite Hi, Ht.
  unfold try_except, bind at 1. rewrite Hc.
  destruct (0 <? count_null (getitem i df1))%nat; unfold_M; reflexivity.
Qed.

(** One iteration of stage 2 when the coercion raises: the error goes to
    the logger, the frame and [errors] stay as they were. *)
Lemma validate_column_failed {ext : Externals} column rules t df p i e :
  column_index column df = Some i ->
  rule_type rules = Some t ->
  coerce t i df p = (Raise e, p) ->
  validate_column (column, rules) df p
  = (Ok df, with_logged_error ("Type conversion error for " ++ column ++ ": "
                               ++ exn_message e) p).
Proof.
  intros Hi Ht Hc. unfold validate_column. rewrite Hi, Ht.
  unfold try_except, bind at 1. rewrite Hc. unfold_M. reflexivity.
Qed.

Lemma validate_column_absent {ext : Externals} column rules df p :
  column_index column df = None ->
  validate_column (column, rules) df p = (Ok df, p).
Proof. intros H. unfold validate_column. now rewrite H. Qed.

Lemma validate_column_without_type {ext : Externals} column rules df p i :
  column_index column df = Some i ->
  rule_type rules = None ->
  validate_column (column, rules) df p = (Raise (KeyError "type"), p).
Proof. intros H1 H2. unfold validate_column. now rewrite H1, H2. Qed.

Lemma validate_column_total {ext : Externals} column rules df p :
  rule_type rules <> None ->
  exists df' p', validate_column (column, rules) df p = (Ok df', p').
Proof.
  intros Ht. unfold validate_column.
  destruct (column_index column df) as [i|] eqn:Hi; [|unfold_M; eauto].
  destruct (rule_type rules) as [t|] eqn:Et; [|congruence].
  destruct (coerce_cases t i df p) as [r [Er _]].
  unfold try_except, bind at 1. rewrite Er. destruct r as [df1|e].
  - destruct (0 <? count_null (getitem i df1))%nat; unfold_M; eauto.
  - unfold_M; eauto.
Qed.

Lemma for_each_total {K} (body : K -> DataFrame -> M DataFrame) items :
  (forall k, In k items ->
             forall df p, exists df' p', body k df p = (Ok df', p')) ->
  forall df p, exists df' p', for_each body items df p = (Ok df', p').
Proof.
  induction items as [|k items IH]; intros H df p; simpl.
  - unfold ret; eauto.
  - destruct (H k (or_introl eq_refl) df p) as [d1 [p1 E1]].
    unfold bind. rewrite E1. apply IH. intros k' Hk'. apply H. now right.
Qed.

(** C5, as the code has it. When the loop of stage 2 reaches a column of
    the table and the coercion returns, every value of the column that is
    missing after the coercion is counted, whether the coercion made it
    missing or it was missing before; when the count [n] is positive the
    entry "Removed n rows with invalid column" is appended and exactly
    the rows with a missing value in the column are dropped; otherwise
    the coerced frame goes on unchanged. *)
Theorem invalid_rows_are_all_missing_after_coercion {ext : Externals}
  (pre post : Schema) column rules t df0 p0 df p i df1 :
  _validate_data_types pre df0 p0 = (Ok df, p) ->
  column_index column df = Some i ->
  rule_type rules = Some t ->
  coerce t i df p = (Ok df1, p) ->
  let n := count_null (getitem i df1) in
  n = List.length (filter (fun r => isnull (cell i r)) (rows df1))
  /\ _validate_data_types (pre ++ (column, rules) :: post) df0 p0
     = if (0 <? n)%nat
       then _validate_data_types post
              (mkFrame (columns df1)
                 (filter (fun r => negb (isnull (cell i r))) (rows df1)))
              (with_error ("Removed " ++ str_nat n ++ " rows with invalid "
                           ++ column) p)
       else _validate_data_types post df1 p.
Proof.
  intros Hpre Hi Ht Hc n. split; [apply count_null_rows|].
  unfold _validate_data_types in *. rewrite for_each_app, Hpre.
  cbn [for_each]. unfold bind at 1.
  rewrite (validate_column_coerced column rules t df p i df1 Hi Ht Hc).
  fold n. destruct (0 <? n)%nat; reflexivity.
Qed.

(** C2, as the code has it. Stage 2 raises for no rule that carries a
    ['type'] key, whatever the tag; and when the coercion of a column
    fails, the failure is logged at error severity, the frame is left as
    it was (the column unmodified, no row dropped) and [errors] gets no
    entry.  (A rule without the key raises [KeyError] when its column is
    in the table.) *)
Theorem stage2_raises_only_without_type_key {ext : Externals} schema :
  (forall column rules, In (column, rules) schema -> rule_type rules <> None) ->
  (forall df p, exists df' p', _validate_data_types schema df p = (Ok df', p'))
  /\ (forall column rules t df p i e,
        In (column, rules) schema ->
        column_index column df = Some i ->
        rule_type rules = Some t ->
        coerce t i df p = (Raise e, p) ->
        validate_column (column, rules) df p
        = (Ok df,
           with_logged_error ("Type conversion error for " ++ column ++ ": "
                              ++ exn_message e) p)).
Proof.
  intros Htype. split.
  - apply for_each_total. intros [column rules] Hin df p.
    apply validate_column_total. eapply Htype; eassumption.
  - intros column rules t df p i e _ Hi Ht Hc.
    apply (validate_column_failed column rules t df p i e Hi Ht Hc).
Qed.

Lemma int_or_float_number z : is_number (int_or_float z) = true.
Proof. unfold int_or_float. destruct (in_int64 z); reflexivity. Qed.

Lemma numeric_cell_number {ext : Externals} v : is_number (numeric_cell v) = true.
Proof.
  destruct v; simpl; try reflexivity.
  destruct (parse_numeric s) as [[z|f]|]; try reflexivity.
  apply int_or_float_number.
Qed.

Lemma nullable_int_cell_shape e v v' :
  is_number v = true -> nullable_int_cell e v = Ok v' -> is_nullable_int v' = true.
Proof.
  destruct v; try discriminate; simpl; intros _.
  - intros E; inv E; reflexivity.
  - destruct (F64.is_nan f); [intros E; inv E; reflexivity|].
    destruct (F64.to_Z f) as [z|]; [|discriminate].
    destruct (in_int64 z); [|discriminate]. intros E; inv E; reflexivity.
Qed.

Lemma astype_Int64_ok {ext : Externals} s s' :
  astype_Int64 s = Ok s' ->
  let e := unsafe_cast (s_values s) in
  s_dtype s' = Int64
  /\ s_values s'
     = map (fun v => match nullable_int_cell e v with Ok y => y | Raise _ => VNA end)
           (s_values s)
  /\ Forall (fun v => exists y, nullable_int_cell e v = Ok y) (s_values s).
Proof.
  unfold astype_Int64.
  destruct (mapM (nullable_int_cell _) (s_values s)) as [vs|e] eqn:E;
    [|discriminate].
  intros H; inv H. apply (mapM_ok_map _ VNA) in E. destruct E as [-> HF].
  simpl; auto.
Qed.

Lemma to_numeric_object_numbers {ext : Externals} s :
  s_dtype s = object -> Forall (fun v => is_number v = true) (s_values (to_numeric s)).
Proof.
  intros Hd. unfold to_numeric. rewrite Hd.
  destruct (forallb is_int (map numeric_cell (s_values s))); simpl;
    rewrite ?Forall_map; apply Forall_forall; intros v _.
  - apply numeric_cell_number.
  - pose proof (numeric_cell_number v). destruct (numeric_cell v); try discriminate;
      reflexivity.
Qed.

Lemma to_numeric_length {ext : Externals} s :
  List.length (s_values (to_numeric s)) = List.length (s_values s).
Proof.
  unfold to_numeric. destruct (s_dtype s); simpl; try reflexivity.
  - destruct (forallb _ _); simpl; rewrite ?length_map; reflexivity.
  - apply length_map.
Qed.

Lemma getitem_length i df : List.length (s_values (getitem i df)) = len df.
Proof. unfold getitem, len; simpl. apply length_map. Qed.

(** The values of [to_numeric] are the readings of the cells, turned
    into floats when the column is of objects that do not all read as
    integers. *)
Lemma to_numeric_readings {ext : Externals} s :
  s_values (to_numeric s)
  = let readings := map (numeric_reading (s_dtype s)) (s_values s) in
    if mixed_readings (s_dtype s) (s_values s)
    then map as_float readings else readings.
Proof.
  destruct s as [d vs]. unfold to_numeric, mixed_readings. cbn [s_dtype s_values].
  assert (Hid : forall f : value -> value, (forall v, f v = v) -> vs = map f vs).
  { intros f Hf. rewrite <- (map_id vs) at 1. apply map_ext. intros v.
    now rewrite Hf. }
  destruct d; cbv zeta; cbn [negb].
  - now apply Hid.
  - now apply Hid.
  - destruct (forallb is_int (map numeric_cell vs)); reflexivity.
  - reflexivity.
  - now apply Hid.
Qed.

Lemma numeric_reading_typed {ext : Externals} d v :
  holds_dtype d v = true ->
  is_number (numeric_reading d v) = true \/ numeric_reading d v = VNA.
Proof.
  destruct d; simpl; intros H.
  - destruct v; try discriminate; auto.
  - destruct v; try discriminate; auto.
  - left. apply numeric_cell_number.
  - left. destruct v; reflexivity.
  - destruct v; try discriminate; auto.
Qed.

Lemma as_float_typed v :
  is_number v = true \/ v = VNA ->
  is_number (as_float v) = true \/ as_float v = VNA.
Proof. intros [H| ->]; [left; destruct v; try discriminate; reflexivity | now right]. Qed.

Lemma nullable_int_cell_typed e v y :
  is_number v = true \/ v = VNA ->
  nullable_int_cell e v = Ok y -> is_nullable_int y = true.
Proof.
  intros [H| ->]; [now apply nullable_int_cell_shape|].
  simpl. intros E; inv E. reflexivity.
Qed.

(** C4, as the code has it. The integer coercion is taken when the rule's
    type is the class [int] (the text "integer" is one of the tags that
    coerce nothing), whatever the dtype of the column.  When the
    conversion returns, the column is of the nullable integer dtype
    and of the same length, and cell by cell: a text that the numeric
    parser rejects becomes NA, and so does a value read as NaN; a value
    read as a float is a whole number of the 64-bit range and becomes
    that integer; a value read as an integer stays that integer, except
    that in a column of objects that do not all read as integers it goes
    through float64 like the others and becomes the integer of the
    float nearest to it; and when every cell reads as an integer the
    cells are exactly those integers.  On a column that holds values of
    its dtype every cell is then an integer or NA.  The iteration then
    counts and drops the missing values. *)
Theorem int_class_rule_coerces_to_nullable_integer {ext : Externals}
  column rules df p i s :
  column_index column df = Some i ->
  rule_type rules = Some PyInt ->
  astype_Int64 (to_numeric (getitem i df)) = Ok s ->
  let d := dtype_at i df in
  let cells := s_values (getitem i df) in
  s_dtype s = Int64
  /\ List.length (s_values s) = len df
  /\ (Forall (fun v => holds_dtype d v = true) cells ->
      Forall (fun v => is_nullable_int v = true) (s_values s))
  /\ (forall k txt, d = object ->
                    nth_error cells k = Some (VStr txt) ->
                    parse_numeric txt = None ->
                    nth_error (s_values s) k = Some VNA)
  /\ (forall k v f, nth_error cells k = Some v ->
                    numeric_reading d v = VFloat f -> F64.is_nan f = true ->
                    nth_error (s_values s) k = Some VNA)
  /\ (forall k v f, nth_error cells k = Some v ->
                    numeric_reading d v = VFloat f -> F64.is_nan f = false ->
                    exists z, F64.to_Z f = Some z /\ in_int64 z = true
                              /\ nth_error (s_values s) k = Some (VInt z))
  /\ (forall k v z, nth_error cells k = Some v ->
                    numeric_reading d v = VInt z ->
                    if mixed_readings d cells
                    then F64.is_nan (F64.of_Z z) = false ->
                         exists z', F64.to_Z (F64.of_Z z) = Some z'
                                    /\ in_int64 z' = true
                                    /\ nth_error (s_values s) k = Some (VInt z')
                    else nth_error (s_values s) k = Some (VInt z))
  /\ (forallb is_int (map (numeric_reading d) cells) = true ->
      s_values s = map (numeric_reading d) cells)
  /\ validate_column (column, rules) df p
     = let df1 := setitem i s df in
       let n := count_null (getitem i df1) in
       if (0 <? n)%nat
       then (Ok (dropna i df1),
             with_error ("Removed " ++ str_nat n ++ " rows with invalid "
                         ++ column) p)
       else (Ok df1, p).
Proof.
  intros Hi Ht Hs d cells.
  pose proof (astype_Int64_ok _ _ Hs) as [Hdt [Hv HF]].
  set (e := unsafe_cast (s_values (to_numeric (getitem i df)))) in *.
  pose proof (to_numeric_readings (getitem i df)) as Hnum.
  change (s_dtype (getitem i df)) with d in Hnum.
  change (s_values (getitem i df)) with cells in Hnum.
  cbv zeta in Hnum.
  assert (Hfloat : forall k v f,
            nth_error cells k = Some v -> numeric_reading d v = VFloat f ->
            nth_error (s_values (to_numeric (getitem i df))) k = Some (VFloat f)).
  { intros k v f Hk Hf. rewrite Hnum.
    destruct (mixed_readings d cells);
      rewrite ?nth_error_map, Hk; simpl; rewrite Hf; reflexivity. }
  repeat split.
  - exact Hdt.
  - rewrite Hv, length_map, to_numeric_length. apply getitem_length.
  - intros Htyped. rewrite Hv, Forall_map. rewrite Forall_forall in *.
    intros v Hin. destruct (HF v Hin) as [y Hy]. rewrite Hy.
    apply (nullable_int_cell_typed e v y); [|exact Hy].
    rewrite Hnum in Hin.
    destruct (mixed_readings d cells).
    + apply in_map_iff in Hin. destruct Hin as [w [<- Hw]].
      apply in_map_iff in Hw. destruct Hw as [c [<- Hc]].
      apply as_float_typed, numeric_reading_typed, Htyped, Hc.
    + apply in_map_iff in Hin. destruct Hin as [c [<- Hc]].
      apply numeric_reading_typed, Htyped, Hc.
  - intros k txt Hd Hk Hp.
    assert (Hr : numeric_reading d (VStr txt) = VFloat F64.nan)
      by (rewrite Hd; simpl; now rewrite Hp).
    rewrite Hv, nth_error_map, (Hfloat k _ _ Hk Hr). reflexivity.
  - intros k v f Hk Hf Hnan.
    rewrite Hv, nth_error_map, (Hfloat k _ _ Hk Hf). simpl. now rewrite Hnan.
  - intros k v f Hk Hf Hnan.
    pose proof (Hfloat k _ _ Hk Hf) as Hn.
    rewrite Forall_forall in HF.
    destruct (HF _ (nth_error_In _ _ Hn)) as [y Hy].
    rewrite Hv, nth_error_map, Hn. simpl in *. rewrite Hnan in *.
    destruct (F64.to_Z f) as [z|]; [|discriminate].
    destruct (in_int64 z) eqn:Ez; [|discriminate]. eauto.
  - intros k v z Hk Hz.
    destruct (mixed_readings d cells) eqn:Hmix.
    + intros Hnan.
      assert (Hn : nth_error (s_values (to_numeric (getitem i df))) k
                   = Some (VFloat (F64.of_Z z)))
        by (rewrite Hnum, !nth_error_map, Hk; simpl; rewrite Hz; reflexivity).
      rewrite Forall_forall in HF.
      destruct (HF _ (nth_error_In _ _ Hn)) as [y Hy].
      rewrite Hv, nth_error_map, Hn. simpl in *. rewrite Hnan in *.
      destruct (F64.to_Z (F64.of_Z z)) as [z'|]; [|discriminate].
      destruct (in_int64 z') eqn:Ez; [|discriminate]. eauto.
    + rewrite Hv, Hnum, !nth_error_map, Hk. simpl. rewrite Hz. reflexivity.
  - intros Hall. rewrite Hv, Hnum.
    assert (Hmix : mixed_readings d cells = false).
    { clear - Hall. clearbody d. unfold mixed_readings.
      destruct d; try reflexivity.
      change (forallb is_int (map numeric_cell cells) = true) in Hall.
      now rewrite Hall. }
    rewrite Hmix. rewrite <- (map_id (map (numeric_reading d) cells)) at 2.
    apply map_ext_in. intros v Hin. rewrite forallb_forall in Hall.
    apply Hall in Hin. destruct v; try discriminate. reflexivity.
  - assert (Hc : coerce PyInt i df p = (Ok (setitem i s df), p)).
    { simpl. unfold_M. rewrite Hs. reflexivity. }
    apply (validate_column_coerced column rules PyInt df p i _ Hi Ht Hc).
Qed.

Section StageTwoExamples.

#[local] Existing Instance Examples.literal_externals.

(** A float column [1, NaN, 3] under a rule of type [int]: the column
    becomes [1, NA, 3] of the nullable integer dtype, one row is counted
    and dropped. *)
Lemma int_class_rule_coerces_to_nullable_integer_witness :
  astype_Int64 (to_numeric (getitem 0 (Examples.floats "qty" [1; F64.nan; 3]%float)))
  = Ok (mkSeries Int64 [VInt 1; VNA; VInt 3])
  /\ validate_column ("qty", Examples.rule PyInt false)
       (Examples.floats "qty" [1; F64.nan; 3]%float) init
     = (Ok (mkFrame [("qty", Int64)] [[VInt 1]; [VInt 3]]),
        mkPipeline ["Removed 1 rows with invalid qty"] 0 0 []).
Proof.
  assert (H : astype_Int64
                (to_numeric (getitem 0 (Examples.floats "qty" [1; F64.nan; 3]%float)))
              = Ok (mkSeries Int64 [VInt 1; VNA; VInt 3])) by reflexivity.
  split; [exact H|].
  destruct (int_class_rule_coerces_to_nullable_integer
              "qty" (Examples.rule PyInt false)
              (Examples.floats "qty" [1; F64.nan; 3]%float) init 0
              (mkSeries Int64 [VInt 1; VNA; VInt 3])
              eq_refl eq_refl H)
    as (_ & _ & _ & _ & _ & _ & _ & _ & E).
  exact E.
Defined.

(** The same on a text column, with the numerals of the examples: "abc"
    becomes NA and its row is dropped, "12" becomes 12. *)
Lemma text_column_under_int_class :
  astype_Int64 (to_numeric (getitem 0 (Examples.texts "qty" ["abc"; "12"])))
  = Ok (mkSeries Int64 [VNA; VInt 12])
  /\ validate_column ("qty", Examples.rule PyInt false)
       (Examples.texts "qty" ["abc"; "12"]) init
     = (Ok (mkFrame [("qty", Int64)] [[VInt 12]]),
        mkPipeline ["Removed 1 rows with invalid qty"] 0 0 []).
Proof. split; reflexivity. Qed.

(** C4, the statement of the specification fails: under the tag
    "integer" nothing is parsed and "abc" stays in the column, with no
    entry. *)
Lemma integer_tag_coerces_nothing :
  _validate_data_types [("qty", Examples.rule (Tag "integer") false)]
    (Examples.texts "qty" ["abc"; "12"]) init
  = (Ok (Examples.texts "qty" ["abc"; "12"]), init)
  /\ clean_and_validate [("qty", Examples.rule (Tag "integer") false)]
       (Examples.texts "qty" ["abc"; "12"]) init
     = (Ok (Examples.texts "qty" ["abc"; "12"]),
        mkPipeline [] 2 2
          [(INFO, "Starting pipeline with 2 rows");
           (INFO, "Pipeline completed: 2/2 rows retained")]).
Proof. split; reflexivity. Qed.

(** "abc" under a rule of type [int]: one row counted and dropped. *)
Lemma invalid_rows_are_all_missing_after_coercion_witness :
  _validate_data_types [("qty", Examples.rule PyInt false)]
    (Examples.texts "qty" ["abc"; "12"]) init
  = (Ok (mkFrame [("qty", Int64)] [[VInt 12]]),
     mkPipeline ["Removed 1 rows with invalid qty"] 0 0 []).
Proof.
  assert (Hc : coerce PyInt 0 (Examples.texts "qty" ["abc"; "12"]) init
               = (Ok (mkFrame [("qty", Int64)] [[VNA]; [VInt 12]]), init))
    by (vm_compute; reflexivity).
  destruct (invalid_rows_are_all_missing_after_coercion
              [] [] "qty" (Examples.rule PyInt false) PyInt
              (Examples.texts "qty" ["abc"; "12"]) init
              (Examples.texts "qty" ["abc"; "12"]) init 0
              (mkFrame [("qty", Int64)] [[VNA]; [VInt 12]])
              eq_refl eq_refl eq_refl Hc) as [_ E].
  vm_compute in E. exact E.
Defined.

(** C5, the statement of the specification fails: a value that was
    missing before the coercion is counted and its row dropped. On a
    float column holding [1, NaN] the coercion to float changes nothing,
    so no value newly became missing, yet one row is counted; and a
    whole run on a column that is empty throughout logs the same entry. *)
Lemma missing_before_coercion_is_counted :
  coerce PyFloat 0 (Examples.floats "a" [1; F64.nan]%float) init
  = (Ok (Examples.floats "a" [1; F64.nan]%float), init)
  /\ newly_missing [VFloat 1; VFloat F64.nan] [VFloat 1; VFloat F64.nan] = 0
  /\ _validate_data_types [("a", Examples.rule PyFloat false)]
       (Examples.floats "a" [1; F64.nan]%float) init
     = (Ok (Examples.floats "a" [1]%float),
        mkPipeline ["Removed 1 rows with invalid a"] 0 0 [])
  /\ clean_and_validate [("a", Examples.rule PyFloat false)]
       (Examples.floats "a" [F64.nan]) init
     = (Ok (Examples.floats "a" []),
        mkPipeline ["Removed 1 rows with invalid a"] 0 1
          [(INFO, "Starting pipeline with 1 rows");
           (INFO, "Pipeline completed: 0/1 rows retained");
           (WARNING, "Removed 1 rows with invalid a")]).
Proof. repeat split; reflexivity. Qed.

(** A column of "abc" and "1.5" under a rule of type [int]: the
    conversion fails, the failure is logged with the text of the
    exception and the frame stays. *)
Lemma stage2_raises_only_without_type_key_witness :
  exists text,
    _validate_data_types [("qty", Examples.rule PyInt false)]
      (Examples.texts "qty" ["abc"; "1.5"]) init
    = (Ok (Examples.texts "qty" ["abc"; "1.5"]),
       mkPipeline [] 0 0
         [(ERROR, ("Type conversion error for qty: " ++ text)%string)]).
Proof.
  destruct (stage2_raises_only_without_type_key
              [("qty", Examples.rule PyInt false)]) as [_ H].
  - intros column rules [E|[]]. inversion E. discriminate.
  - specialize (H "qty" (Examples.rule PyInt false) PyInt
                  (Examples.texts "qty" ["abc"; "1.5"]) init 0
                  (unsafe_cast [VFloat F64.nan; VFloat 1.5%float])
                  (or_introl eq_refl) eq_refl eq_refl eq_refl).
    exists (cast_error_text [VFloat F64.nan; VFloat 1.5%float]).
    unfold _validate_data_types. cbn [for_each]. unfold bind.
    rewrite H. reflexivity.
Defined.

(** C2, the statement of the specification fails: a rule without a
    ['type'] key whose column is in the table makes the run raise
    [KeyError]. *)
Lemma missing_type_key_raises :
  clean_and_validate [("name", mkRule None None None None None)]
    (Examples.texts "name" ["x"]) init
  = (Raise (KeyError "type"),
     mkPipeline [] 0 1 [(INFO, "Starting pipeline with 1 rows")]).
Proof. reflexivity. Qed.

End StageTwoExamples.

(** ** Stage 3: constraints *)

(** NaN is below nothing, above nothing and equal to nothing. *)
Lemma nan_compares_false op x y :
  F64.is_nan x = true \/ F64.is_nan y = true -> compare_floats op x y = false.
Proof.
  assert (Hnan : forall f, F64.is_nan f = true -> Prim2SF f = S754_nan).
  { intros f H. unfold F64.is_nan, PrimFloat.is_nan in H.
    apply negb_true_iff in H. rewrite eqb_spec in H. unfold SFeqb in H.
    destruct (Prim2SF f) as [s|s| |s m e]; simpl in H; try discriminate.
    - destruct s; discriminate.
    - reflexivity.
    - rewrite Z.compare_refl, Pcompare_refl in H. destruct s; discriminate. }
  intros [H|H]; apply Hnan in H;
    destruct op; unfold compare_floats, F64.le, F64.lt;
    rewrite ?leb_spec, ?ltb_spec; unfold SFleb, SFltb; rewrite H; clear H Hnan;
    try reflexivity; destruct (Prim2SF _); reflexivity.
Qed.

(** A missing value passes no comparison, and raises none. *)
Lemma compare_cell_null op b v :
  isnull v = true ->
  exists m, compare_cell op b v = Ok m /\ selects m = false.
Proof.
  destruct v; simpl; try discriminate; intros H.
  - rewrite nan_compares_false by (left; exact H). eauto.
  - eauto.
  - eauto.
Qed.

Lemma bound_filter_rows op b i df p df' p' :
  bound_filter op (Some b) i df p = (Ok df', p') ->
  rows df'
  = filter (fun r => match compare_cell op b (cell i r) with
                     | Ok m => selects m
                     | Raise _ => false
                     end) (rows df).
Proof.
  unfold bound_filter, bind, lift, ret.
  destruct (compare_series op b (getitem i df)) as [mask|e] eqn:E; [|discriminate].
  intros H; inv H. apply compare_series_ok in E. destruct E as [-> _].
  simpl. rewrite map_map.
  rewrite (take_rows_map
             (fun r => match compare_cell op b (cell i r) with
                       | Ok m => m
                       | Raise _ => None
                       end)).
  apply filter_ext. intros r. destruct (compare_cell op b (cell i r)); reflexivity.
Qed.

Lemma bound_filter_keeps_present op b i df p df' p' :
  bound_filter op (Some b) i df p = (Ok df', p') ->
  forall r, In r (rows df') -> isnull (cell i r) = false.
Proof.
  intros E r Hr. rewrite (bound_filter_rows _ _ _ _ _ _ _ E) in Hr.
  apply filter_In in Hr. destruct Hr as [_ Hsel].
  destruct (isnull (cell i r)) eqn:Hnull; [|reflexivity].
  destruct (compare_cell_null op b _ Hnull) as [m [Hm Hs]].
  rewrite Hm, Hs in Hsel. discriminate.
Qed.

Lemma selection_column_index a b c :
  selection a b -> column_index c b = column_index c a.
Proof. intros [Hc _]. unfold column_index. now rewrite Hc. Qed.

Lemma constrain_column_keeps_present {ext : Externals}
  column rules df p df' p' i :
  column_index column df = Some i ->
  min_value rules <> None \/ max_value rules <> None ->
  constrain_column (column, rules) df p = (Ok df', p') ->
  forall r, In r (rows df') -> isnull (cell i r) = false.
Proof.
  intros Hi Hb. unfold constrain_column. rewrite Hi.
  unfold bind at 1.
  destruct (bound_filter GE (min_value rules) i df p) as [[d1|e] p1] eqn:E1;
    [|discriminate].
  unfold bind at 1.
  destruct (bound_filter LE (max_value rules) i d1 p1) as [[d2|e] p2] eqn:E2;
    [|discriminate].
  unfold bind at 1.
  destruct (pattern_filter (pattern rules) i d2 p2) as [[d3|e] p3] eqn:E3;
    [|discriminate].
  intros E r Hr.
  assert (Hd : df' = d3)
    by (destruct (0 <? len df - len d3)%nat; unfold_M; inv E; reflexivity).
  subst df'.
  pose proof (proj2 (pattern_filter_returns _ _ _ _ _ _ E3)) as S3.
  apply (selection_incl _ _ S3) in Hr.
  destruct (max_value rules) as [hi|] eqn:Emax.
  - eapply bound_filter_keeps_present; eassumption.
  - destruct (min_value rules) as [lo|] eqn:Emin; [|destruct Hb; congruence].
    pose proof (proj2 (bound_filter_returns _ _ _ _ _ _ _ E2)) as S2.
    apply (selection_incl _ _ S2) in Hr.
    eapply bound_filter_keeps_present; eassumption.
Qed.

Lemma stage3_selection {ext : Externals} schema df p df' p' :
  _apply_constraints schema df p = (Ok df', p') -> selection df df'.
Proof.
  intros E.
  apply (for_each_returns constrain_column (fun a _ b _ => selection a b)) in E;
    auto using selection_refl.
  - intros a _ b _ c _. apply selection_trans.
  - intros k d q d' q' E'. apply constrain_column_returns in E'. tauto.
Qed.

(** C10. In stage 3, a missing value passes neither bound comparison (and
    raises nothing); so when the stage returns, no row is left whose
    value is missing in a column of the table that the schema gives a
    [min_value] or a [max_value], and the rows left are rows of the
    input. *)
Theorem missing_value_fails_numeric_bounds {ext : Externals}
  schema column rules df p df' p' i :
  In (column, rules) schema ->
  column_index column df = Some i ->
  min_value rules <> None \/ max_value rules <> None ->
  _apply_constraints schema df p = (Ok df', p') ->
  (forall op b v, isnull v = true ->
                  exists m, compare_cell op b v = Ok m /\ selects m = false)
  /\ (forall r, In r (rows df') -> isnull (cell i r) = false)
  /\ incl (rows df') (rows df).
Proof.
  intros Hin Hi Hb E. split; [intros; now apply compare_cell_null|].
  split; [|apply selection_incl; eapply stage3_selection; eassumption].
  apply in_split in Hin. destruct Hin as [pre [post ->]].
  unfold _apply_constraints in E. rewrite for_each_app in E.
  destruct (for_each constrain_column pre df p) as [[d1|e] p1] eqn:E1;
    [|discriminate].
  cbn [for_each] in E. unfold bind at 1 in E.
  destruct (constrain_column (column, rules) d1 p1) as [[d2|e] p2] eqn:E2;
    [|discriminate].
  pose proof (stage3_selection pre df p d1 p1 E1) as S1.
  pose proof (stage3_selection post d2 p2 df' p' E) as S3.
  intros r Hr. apply (selection_incl _ _ S3) in Hr.
  apply (constrain_column_keeps_present column rules d1 p1 d2 p2 i);
    [rewrite (selection_column_index _ _ column S1); exact Hi
    | exact Hb | exact E2 | exact Hr].
Qed.

(** One iteration of stage 3: the three filters in the order min, max,
    pattern, and a single entry with the rows they removed together. *)
Lemma constrain_column_in_order {ext : Externals}
  column rules df p i d1 d2 d3 :
  column_index column df = Some i ->
  bound_filter GE (min_value rules) i df p = (Ok d1, p) ->
  bound_filter LE (max_value rules) i d1 p = (Ok d2, p) ->
  pattern_filter (pattern rules) i d2 p = (Ok d3, p) ->
  constrain_column (column, rules) df p
  = (Ok d3,
     if (0 <? len df - len d3)%nat
     then with_error ("Removed " ++ str_nat (len df - len d3)
                      ++ " rows failing " ++ column ++ " constraints") p
     else p).
Proof.
  intros Hi E1 E2 E3. unfold constrain_column. rewrite Hi.
  unfold bind at 1. rewrite E1. unfold bind at 1. rewrite E2.
  unfold bind at 1. rewrite E3.
  destruct (0 <? len df - len d3)%nat; unfold_M; reflexivity.
Qed.

(** Whatever the engine, the pattern filter keeps a NaN of a text column
    exactly when the pattern matches the text "nan". *)
Lemma pattern_filter_reads_nan_as_text {ext : Externals}
  pt compiled i df p r :
  dtype_at i df = object ->
  re_compile pt = Some compiled ->
  In r (rows df) ->
  cell i r = VFloat F64.nan ->
  exists df',
    pattern_filter (Some pt) i df p = (Ok df', p)
    /\ (In r (rows df') <-> compiled "nan" = true).
Proof.
  intros Hd Hc Hr Hcell. unfold pattern_filter. rewrite Hd, Hc. simpl.
  eexists. split; [reflexivity|]. simpl. unfold str_match. simpl.
  rewrite map_map.
  rewrite (take_rows_map (fun r => Some (compiled (astype_str (cell i r))))).
  rewrite filter_In. rewrite Hcell. simpl.
  destruct (compiled "nan"); split; intros H; auto; try tauto.
Qed.

Section StageThreeExamples.

#[local] Existing Instance Examples.literal_externals.

(** Scores 50, missing and 150 under the bounds 0 and 100: only 50 stays. *)
Lemma missing_value_fails_numeric_bounds_witness :
  _apply_constraints
    [("score", mkRule (Some PyFloat) None (Some (NInt 0)) (Some (NInt 100)) None)]
    (Examples.floats "score" [50; F64.nan; 150]%float) init
  = (Ok (Examples.floats "score" [50]%float),
     mkPipeline ["Removed 2 rows failing score constraints"] 0 0 [])
  /\ (forall r, In r (rows (Examples.floats "score" [50]%float)) ->
                isnull (cell 0 r) = false).
Proof.
  split; [reflexivity|].
  destruct (missing_value_fails_numeric_bounds
              [("score",
                mkRule (Some PyFloat) None (Some (NInt 0)) (Some (NInt 100)) None)]
              "score"
              (mkRule (Some PyFloat) None (Some (NInt 0)) (Some (NInt 100)) None)
              (Examples.floats "score" [50; F64.nan; 150]%float) init
              (Examples.floats "score" [50]%float)
              (mkPipeline ["Removed 2 rows failing score constraints"] 0 0 [])
              0 (or_introl eq_refl) eq_refl) as (_ & H & _).
  - left; discriminate.
  - reflexivity.
  - exact H.
Defined.

(** The stage called on its own, on a table that still has a missing
    value in a text column: the pattern filter turns every value into
    text first ([astype(str)]), so the missing value is matched as the
    text "nan".  Under the pattern "n" the row with the missing name is
    kept, next to "ned", and only "bob" is removed.  In a run no such
    table reaches the stage. *)
Lemma pattern_filter_matches_missing_value_as_text :
  _apply_constraints [("name", mkRule (Some PyStr) None None None (Some "n"))]
    (Examples.mixed "name" [VStr "bob"; VFloat F64.nan; VStr "ned"]) init
  = (Ok (Examples.mixed "name" [VFloat F64.nan; VStr "ned"]),
     mkPipeline ["Removed 1 rows failing name constraints"] 0 0 []).
Proof. reflexivity. Qed.

(** One value above the range [0, 100]: that row goes, with one entry. *)
Lemma range_constraint_example :
  clean_and_validate
    [("score", mkRule (Some PyFloat) None (Some (NInt 0)) (Some (NInt 100)) None)]
    (Examples.floats "score" [50; 150; 60; 55]%float) init
  = (Ok (Examples.floats "score" [50; 60; 55]%float),
     mkPipeline ["Removed 1 rows failing score constraints"] 3 4
       [(INFO, "Starting pipeline with 4 rows");
        (INFO, "Pipeline completed: 3/4 rows retained");
        (WARNING, "Removed 1 rows failing score constraints")]).
Proof. reflexivity. Qed.

(** A schema entry whose column is not in the table is passed over by
    every stage, even when it has no ['type'] key. *)
Lemma absent_column_example :
  clean_and_validate
    [("ghost", mkRule None (Some true) (Some (NInt 0)) None (Some "x"));
     ("score", Examples.rule PyFloat true)]
    (Examples.floats "score" [50; 60; 55]%float) init
  = (Ok (Examples.floats "score" [50; 60; 55]%float),
     mkPipeline [] 3 3
       [(INFO, "Starting pipeline with 3 rows");
        (INFO, "Pipeline completed: 3/3 rows retained")]).
Proof. reflexivity. Qed.

(** Stage 3 raises too: a bound on a text column is not comparable. *)
Lemma bound_on_text_column_raises :
  _apply_constraints
    [("name", mkRule (Some PyStr) None (Some (NInt 0)) None None)]
    (Examples.texts "name" ["bob"]) init
  = (Raise (TypeError "'>=' not supported between 'str' and a number"), init).
Proof. reflexivity. Qed.

End StageThreeExamples.

(** ** Stage 4: outliers *)

Lemma outlier_cell_number lower upper v :
  is_number v = true -> outlier_cell lower upper v = Some (outside lower upper v).
Proof.
  destruct v; try discriminate; intros _; unfold outlier_cell; simpl;
    destruct (F64.lt _ lower), (F64.lt upper _); reflexivity.
Qed.

Lemma compare_series_numbers op b i df :
  is_number_dtype (dtype_at i df) = true ->
  (forall r, In r (rows df) -> is_number (cell i r) = true) ->
  exists mask, compare_series op b (getitem i df) = Ok mask.
Proof.
  intros Hd Hn. unfold compare_series.
  assert (H : exists mask, mapM (compare_cell op b) (s_values (getitem i df)) = Ok mask).
  { apply mapM_ok_of_Forall. simpl. rewrite Forall_map. apply Forall_forall.
    intros r Hr. specialize (Hn r Hr).
    destruct (cell i r); try discriminate; simpl; [destruct b|]; eauto. }
  simpl in *. destruct (dtype_at i df); try discriminate; exact H.
Qed.

Lemma outlier_mask_numbers lower upper i df :
  is_number_dtype (dtype_at i df) = true ->
  (forall r, In r (rows df) -> is_number (cell i r) = true) ->
  outlier_mask lower upper (getitem i df)
  = Ok (map (fun r => Some (outside lower upper (cell i r))) (rows df)).
Proof.
  intros Hd Hn.
  destruct (compare_series_numbers LT (NFloat lower) i df Hd Hn) as [m1 E1].
  destruct (compare_series_numbers GT (NFloat upper) i df Hd Hn) as [m2 E2].
  destruct (outlier_mask lower upper (getitem i df)) as [mask|e] eqn:E.
  - apply outlier_mask_ok in E. destruct E as [-> _]. f_equal.
    apply map_ext_in. intros r Hr. apply outlier_cell_number, Hn, Hr.
  - unfold outlier_mask in E. rewrite E1, E2 in E. discriminate.
Qed.

(** NaN is never outside the bounds: stage 4 keeps the rows where the
    value is missing. *)
Lemma nan_is_no_outlier lower upper : outside lower upper (VFloat F64.nan) = false.
Proof.
  unfold outside.
  change (F64.lt F64.nan lower) with (compare_floats LT F64.nan lower).
  change (F64.lt upper F64.nan) with (compare_floats LT upper F64.nan).
  rewrite !nan_compares_false; auto.
Qed.

Lemma for_each_skip {K} (body : K -> DataFrame -> M DataFrame)
  (keep : K -> bool) items :
  (forall k df p, keep k = false -> body k df p = (Ok df, p)) ->
  forall df p,
    for_each body items df p = for_each body (filter keep items) df p.
Proof.
  intros Hskip. induction items as [|k items IH]; intros df p; simpl.
  - reflexivity.
  - destruct (keep k) eqn:Ek; simpl; unfold bind.
    + destruct (body k df p) as [[d|e] q]; [apply IH | reflexivity].
    + rewrite (Hskip k df p Ek). apply IH.
Qed.

Lemma quantile_is_interpolated q s :
  quantile q s = interpolated q (sort_floats (present_numbers (s_values s))).
Proof. reflexivity. Qed.

(** C9. Stage 4 visits the numeric columns of the table that appear in the
    schema, in the order of the table.  On a column that holds numbers
    (NaN included), the quartiles are taken on the values present, in
    ascending order, by linear interpolation: at the position
    [(n - 1) q], between the neighbours below and above it.  The bounds
    are [Q1 - 1.5 IQR] and [Q3 + 1.5 IQR]; exactly the rows whose value
    lies strictly outside the bounds are removed, and when their number
    [n] is positive the entry "Removed n outliers from column" is
    appended.  (A nullable integer column holds no NA when stage 2 has
    produced it, which is what the hypothesis on the cells asks.) *)
Theorem outliers_removed_by_iqr_bounds schema column df p i :
  in_schema column schema = true ->
  column_index column df = Some i ->
  is_number_dtype (dtype_at i df) = true ->
  (forall r, In r (rows df) -> is_number (cell i r) = true) ->
  let present_values := present_numbers (s_values (getitem i df)) in
  let in_order := sort_floats present_values in
  let Q1 := interpolated 0.25%float in_order in
  let Q3 := interpolated 0.75%float in_order in
  let IQR := PrimFloat.sub Q3 Q1 in
  let lower := PrimFloat.sub Q1 (PrimFloat.mul 1.5%float IQR) in
  let upper := PrimFloat.add Q3 (PrimFloat.mul 1.5%float IQR) in
  let n := List.length (filter (fun r => outside lower upper (cell i r)) (rows df)) in
  Permutation in_order present_values
  /\ ascending in_order
  /\ remove_outliers_column schema column df p
     = (Ok (mkFrame (columns df)
              (filter (fun r => negb (outside lower upper (cell i r))) (rows df))),
        if (0 <? n)%nat
        then with_error ("Removed " ++ str_nat n ++ " outliers from " ++ column) p
        else p)
  /\ (forall d q,
        _remove_outliers schema d q
        = for_each (remove_outliers_column schema)
            (filter (fun c => in_schema c schema) (numeric_columns d)) d q).
Proof.
  intros Hs Hi Hd Hn present_values in_order Q1 Q3 IQR lower upper n.
  destruct (sort_floats_sorts present_values) as [Hperm Hasc].
  split; [exact Hperm|]. split; [exact Hasc|]. split.
  - unfold remove_outliers_column. rewrite Hs, Hi.
    unfold bind at 1, lift.
    change (lower_bound (getitem i df)) with lower.
    change (upper_bound (getitem i df)) with upper.
    rewrite (outlier_mask_numbers lower upper i df Hd Hn).
    assert (Hsum : mask_sum (map (fun r => Some (outside lower upper (cell i r)))
                                 (rows df)) = n).
    { unfold mask_sum, n. rewrite filter_map_length. f_equal.
      apply filter_ext. intros r.
      destruct (outside lower upper (cell i r)); reflexivity. }
    rewrite Hsum. rewrite map_map.
    destruct (0 <? n)%nat eqn:Epos; unfold_M.
    + unfold boolean_index.
      rewrite (take_rows_map
                 (fun r => mask_not (Some (outside lower upper (cell i r))))).
      f_equal. f_equal. f_equal. apply filter_ext. intros r. simpl.
      destruct (outside lower upper (cell i r)); reflexivity.
    + apply Nat.ltb_ge in Epos. assert (Hz : n = 0) by lia.
      assert (Hall : filter (fun r => negb (outside lower upper (cell i r)))
                            (rows df) = rows df).
      { apply filter_all. rewrite <- Hz. unfold n.
        f_equal. apply filter_ext. intros r. apply negb_involutive. }
      rewrite Hall. destruct df; reflexivity.
  - intros d q. unfold _remove_outliers. apply for_each_skip.
    intros k d' q' Hk. unfold remove_outliers_column. rewrite Hk. reflexivity.
Qed.

(** The column [10, 0, 2, 1]: in ascending order 0, 1, 2, 10.  The first
    quartile is at position 0.75, between 0 and 1, so 0.75; the third is
    at position 2.25, between 2 and 10, so 4.  The bounds are -4.125 and
    8.875, and 10 is removed. *)
Lemma outliers_removed_by_iqr_bounds_witness :
  sort_floats (present_numbers [VFloat 10; VFloat 0; VFloat 2; VFloat 1]%float)
  = [0; 1; 2; 10]%float
  /\ interpolated 0.25%float [0; 1; 2; 10]%float = 0.75%float
  /\ interpolated 0.75%float [0; 1; 2; 10]%float = 4%float
  /\ lower_bound (getitem 0 (Examples.floats "x" [10; 0; 2; 1]%float))
     = (-4.125)%float
  /\ upper_bound (getitem 0 (Examples.floats "x" [10; 0; 2; 1]%float))
     = 8.875%float
  /\ remove_outliers_column [("x", Examples.rule PyFloat false)] "x"
       (Examples.floats "x" [10; 0; 2; 1]%float) init
     = (Ok (Examples.floats "x" [0; 2; 1]%float),
        mkPipeline ["Removed 1 outliers from x"] 0 0 [])
  /\ _remove_outliers [("x", Examples.rule PyFloat false)]
       (Examples.floats "x" [10; 0; 2; 1]%float) init
     = (Ok (Examples.floats "x" [0; 2; 1]%float),
        mkPipeline ["Removed 1 outliers from x"] 0 0 []).
Proof.
  do 5 (split; [reflexivity|]).
  destruct (outliers_removed_by_iqr_bounds
              [("x", Examples.rule PyFloat false)] "x"
              (Examples.floats "x" [10; 0; 2; 1]%float) init 0
              eq_refl eq_refl eq_refl) as (_ & _ & E1 & E2).
  - intros r Hr. simpl in Hr.
    repeat (destruct Hr as [<-|Hr]; [reflexivity|]). destruct Hr.
  - split; [exact E1 | rewrite E2; reflexivity].
Defined.

(** Quartiles that fall on values of the column: in [10, 12, 11, 13,
    1000] they are 11 and 13, the bounds 8 and 16, and 1000 is
    removed. *)
Lemma quartiles_on_data_points :
  quantile 0.25%float (getitem 0 (Examples.floats "x" [10; 12; 11; 13; 1000]%float))
  = 11%float
  /\ quantile 0.75%float (getitem 0 (Examples.floats "x" [10; 12; 11; 13; 1000]%float))
     = 13%float
  /\ _remove_outliers [("x", Examples.rule PyFloat false)]
       (Examples.floats "x" [10; 12; 11; 13; 1000]%float) init
     = (Ok (Examples.floats "x" [10; 12; 11; 13]%float),
        mkPipeline ["Removed 1 outliers from x"] 0 0 []).
Proof. repeat split; reflexivity. Qed.

(** The entries of stage 4 follow the columns of the table, not the
    entries of the schema. *)
Lemma outlier_entries_follow_table_order :
  _remove_outliers
    [("b", Examples.rule PyFloat false); ("a", Examples.rule PyFloat false)]
    (mkFrame [("a", float64); ("b", float64)]
       [[VFloat 10; VFloat 1]; [VFloat 12; VFloat 2]; [VFloat 11; VFloat 3];
        [VFloat 13; VFloat 2]; [VFloat 1000; VFloat 1]; [VFloat 12; VFloat 3];
        [VFloat 11; VFloat 2]; [VFloat 12; VFloat 500]]%float) init
  = (Ok (mkFrame [("a", float64); ("b", float64)]
           [[VFloat 10; VFloat 1]; [VFloat 12; VFloat 2]; [VFloat 11; VFloat 3];
            [VFloat 13; VFloat 2]; [VFloat 12; VFloat 3];
            [VFloat 11; VFloat 2]]%float),
     mkPipeline ["Removed 1 outliers from a"; "Removed 1 outliers from b"] 0 0 []).
Proof. reflexivity. Qed.

(** ** Running the pipeline on its own output *)

Lemma index_of_nth_error c names i :
  index_of c names = Some i -> nth_error names i = Some c.
Proof.
  revert i; induction names as [|n names IH]; simpl; intros i; [discriminate|].
  destruct (String.eqb c n) eqn:E.
  - intros H; inv H. apply String.eqb_eq in E. now subst.
  - destruct (index_of c names) as [j|]; simpl; intros H; inv H. now apply IH.
Qed.

Lemma column_index_inj c c' df i :
  column_index c df = Some i -> column_index c' df = Some i -> c = c'.
Proof.
  unfold column_index. intros H1 H2.
  apply index_of_nth_error in H1. apply index_of_nth_error in H2. congruence.
Qed.

Lemma column_index_lt c df i :
  column_index c df = Some i -> i < List.length (columns df).
Proof.
  unfold column_index. intros H. apply index_of_nth_error in H.
  rewrite <- (length_map fst). apply nth_error_Some. congruence.
Qed.

Lemma column_index_names a b c :
  map fst (columns b) = map fst (columns a) ->
  column_index c b = column_index c a.
Proof. unfold column_index. now intros ->. Qed.

Lemma set_nth_length {A} i (x : A) l : List.length (set_nth i x l) = List.length l.
Proof. revert i; induction l; intros [|i]; simpl; auto. Qed.

Lemma nth_set_nth_same {A} i (x d : A) l :
  i < List.length l -> nth i (set_nth i x l) d = x.
Proof.
  revert i; induction l as [|y l IH]; intros [|i]; simpl; intros H; try lia; auto.
  apply IH; lia.
Qed.

Lemma nth_set_nth_other {A} i j (x d : A) l :
  i <> j -> nth i (set_nth j x l) d = nth i l d.
Proof.
  revert i j; induction l as [|y l IH]; intros [|i] [|j]; simpl; intros H;
    try reflexivity; try congruence.
  apply IH. congruence.
Qed.

Lemma dtype_at_set_same i d cols :
  i < List.length cols -> nth i (map snd (set_dtype i d cols)) object = d.
Proof.
  revert i; induction cols as [|[c d'] cols IH]; intros [|i]; simpl; intros H;
    try lia; auto.
  apply IH; lia.
Qed.

Lemma dtype_at_set_other i j d cols :
  i <> j ->
  nth i (map snd (set_dtype j d cols)) object = nth i (map snd cols) object.
Proof.
  revert i j; induction cols as [|[c d'] cols IH]; intros [|i] [|j]; simpl;
    intros H; try reflexivity; try congruence.
  apply IH. congruence.
Qed.

(** A row with a value present in column [i] is long enough to have one. *)
Lemma present_cell_in_row i r : isnull (cell i r) = false -> i < List.length r.
Proof.
  intros H. destruct (Nat.lt_ge_cases i (List.length r)) as [|Hge]; [assumption|].
  unfold cell in H. rewrite nth_overflow in H by exact Hge. discriminate.
Qed.

Lemma set_cells_In i rs vs r' :
  List.length vs = List.length rs ->
  In r' (set_cells i rs vs) ->
  exists r v, In r rs /\ In v vs /\ r' = set_nth i v r.
Proof.
  revert vs; induction rs as [|r rs IH]; intros [|v vs]; simpl; intros HL Hin;
    try discriminate; try tauto.
  destruct Hin as [<-|Hin].
  - exists r, v. auto.
  - destruct (IH vs ltac:(lia) Hin) as [r0 [v0 [H1 [H2 H3]]]].
    exists r0, v0. auto.
Qed.

Lemma touches_only_refl j a : touches_only j a a.
Proof. repeat split; eauto. Qed.

Lemma selection_touches_only j a b : selection a b -> touches_only j a b.
Proof.
  intros S. pose proof (selection_incl _ _ S) as Hincl. destruct S as [Hc _].
  repeat split.
  - now rewrite Hc.
  - intros i _. unfold dtype_at. now rewrite Hc.
  - intros r' Hr'. exists r'. split; [apply Hincl, Hr' | reflexivity].
Qed.

Lemma touches_only_trans j a b c :
  touches_only j a b -> touches_only j b c -> touches_only j a c.
Proof.
  intros (N1 & D1 & R1) (N2 & D2 & R2). repeat split.
  - congruence.
  - intros i Hi. rewrite D2, D1; auto.
  - intros r'' Hr''. destruct (R2 r'' Hr'') as [r' [Hr' E2]].
    destruct (R1 r' Hr') as [r [Hr E1]]. exists r. split; [assumption|].
    intros i Hi. rewrite E2, E1; auto.
Qed.

Lemma setitem_touches_only j s df :
  List.length (s_values s) = len df -> touches_only j df (setitem j s df).
Proof.
  intros HL. repeat split.
  - apply set_dtype_names.
  - intros i Hi. unfold dtype_at, setitem; simpl. now apply dtype_at_set_other.
  - intros r' Hr'. simpl in Hr'.
    apply set_cells_In in Hr'; [|exact HL].
    destruct Hr' as [r [v [Hr [_ ->]]]]. exists r. split; [assumption|].
    intros i Hi. unfold cell. now apply nth_set_nth_other.
Qed.

Lemma column_holds_touches_only D V i j a b :
  i <> j -> touches_only j a b -> column_holds D V i a -> column_holds D V i b.
Proof.
  intros Hij (_ & HD & HR) [H1 H2]. split; rewrite (HD i Hij); [assumption|].
  intros r' Hr'. destruct (HR r' Hr') as [r [Hr E]]. rewrite (E i Hij). auto.
Qed.

Lemma column_holds_selection D V i a b :
  selection a b -> column_holds D V i a -> column_holds D V i b.
Proof.
  intros S [H1 H2]. pose proof (selection_incl _ _ S) as Hincl.
  destruct S as [Hc _]. unfold column_holds, dtype_at in *. rewrite Hc.
  split; [assumption|]. intros r Hr. apply H2, Hincl, Hr.
Qed.

Lemma for_each_preserves {K} (key : K -> string)
  (body : K -> DataFrame -> M DataFrame) (Q : DataFrame -> Prop) (name : string) :
  (forall k' df p df' p',
     name <> key k' -> body k' df p = (Ok df', p') -> Q df -> Q df') ->
  forall items, ~ In name (map key items) ->
  forall df p df' p',
    for_each body items df p = (Ok df', p') -> Q df -> Q df'.
Proof.
  intros Hpres items. induction items as [|k1 items IH]; intros Hnotin df p df' p';
    simpl.
  - unfold ret; intros E; inv E; auto.
  - unfold bind. destruct (body k1 df p) as [[d2|e] p2] eqn:E2; [|discriminate].
    intros E HQ. apply (IH (fun H => Hnotin (or_intror H)) d2 p2 df' p' E).
    apply (Hpres k1 df p d2 p2); auto.
    intros Heq. apply Hnotin. left. now symmetry.
Qed.

(** A loop over entries with distinct keys: what an iteration
    establishes for its own key, and the other iterations preserve,
    holds for every key when the loop returns.  [G] is a condition on
    the instance that holds before an iteration if it holds after. *)
Lemma for_each_establishes {K} (key : K -> string)
  (body : K -> DataFrame -> M DataFrame)
  (P : K -> DataFrame -> Prop) (G : Pipeline -> Prop) :
  (forall k df p df' p', body k df p = (Ok df', p') -> G p' -> G p /\ P k df') ->
  (forall k k' df p df' p',
     key k <> key k' -> body k' df p = (Ok df', p') -> P k df -> P k df') ->
  forall items, NoDup (map key items) ->
  forall df p df' p',
    for_each body items df p = (Ok df', p') -> G p' ->
    G p /\ forall k, In k items -> P k df'.
Proof.
  intros Hest Hpres items.
  induction items as [|k0 items IH]; intros ND df p df' p'; simpl.
  - unfold ret. intros E HG; inv E. split; [assumption | tauto].
  - inversion ND as [|? ? Hnotin ND']; subst.
    unfold bind. destruct (body k0 df p) as [[d1|e] p1] eqn:E1; [|discriminate].
    intros E HG. destruct (IH ND' d1 p1 df' p' E HG) as [G1 Hrest].
    destruct (Hest k0 df p d1 p1 E1 G1) as [G0 P0]. split; [assumption|].
    intros k [<-|Hk]; [|apply Hrest, Hk].
    apply (for_each_preserves key body (P k0) (key k0) (Hpres k0) items Hnotin
             d1 p1 df' p' E P0).
Qed.

Lemma to_numeric_dtype {ext : Externals} s :
  is_number_dtype (s_dtype (to_numeric s)) = true.
Proof.
  unfold to_numeric. destruct (s_dtype s) eqn:E; simpl; rewrite ?E; try reflexivity.
  destruct (forallb _ _); reflexivity.
Qed.

Lemma nullable_int_cell_not_float e v y :
  nullable_int_cell e v = Ok y -> match y with VFloat _ => False | _ => True end.
Proof.
  destruct v; simpl; try (intros E; inv E; exact I).
  destruct (F64.is_nan f); [intros E; inv E; exact I|].
  destruct (F64.to_Z f) as [z|]; [|discriminate].
  destruct (in_int64 z); [|discriminate]. intros E; inv E; exact I.
Qed.

Lemma to_datetime_shape {ext : Externals} s :
  s_dtype (to_datetime s) = datetime64
  /\ List.length (s_values (to_datetime s)) = List.length (s_values s).
Proof.
  unfold to_datetime. destruct (s_dtype s) eqn:E; simpl; rewrite ?length_map; auto.
Qed.

(** What the coercion assigns to the column when it returns. *)
Lemma coerce_returns {ext : Externals} t i df p df1 q :
  coerce t i df p = (Ok df1, q) ->
  q = p
  /\ exists s, df1 = setitem i s df
               /\ List.length (s_values s) = len df
               /\ stable_dtype t (s_dtype s)
               /\ (t = PyInt ->
                   forall v, In v (s_values s) ->
                             match v with VFloat _ => False | _ => True end).
Proof.
  destruct t as [tag| | |]; unfold coerce, stable_dtype; unfold_M.
  - destruct (String.eqb tag "datetime") eqn:Etag; intros E;
      injection E as <- <-; (split; [reflexivity|]).
    + exists (to_datetime (getitem i df)).
      destruct (to_datetime_shape (getitem i df)) as [Hd Hl].
      split; [reflexivity|]. split; [rewrite Hl; apply getitem_length|].
      split; [exact Hd | discriminate].
    + exists (getitem i df). rewrite setitem_getitem.
      split; [reflexivity|]. split; [apply getitem_length|].
      split; [exact I | discriminate].
  - destruct (astype_Int64 (to_numeric (getitem i df))) as [s|e] eqn:Es;
      intros E; [|discriminate]. injection E as <- <-.
    split; [reflexivity|]. exists s.
    apply astype_Int64_ok in Es. destruct Es as [Hd [Hv HF]].
    split; [reflexivity|]. split; [|split; [exact Hd|]].
    + rewrite Hv, length_map, to_numeric_length. apply getitem_length.
    + intros _ v Hin. rewrite Hv in Hin. apply in_map_iff in Hin.
      destruct Hin as [v0 [<- Hin0]]. rewrite Forall_forall in HF.
      destruct (HF v0 Hin0) as [y Hy]. rewrite Hy.
      eapply nullable_int_cell_not_float; eassumption.
  - intros E; injection E as <- <-. split; [reflexivity|].
    exists (to_numeric (getitem i df)).
    split; [reflexivity|]. split; [|split; [apply to_numeric_dtype | discriminate]].
    rewrite to_numeric_length. apply getitem_length.
  - intros E; injection E as <- <-. split; [reflexivity|].
    exists (getitem i df). rewrite setitem_getitem.
    split; [reflexivity|]. split; [apply getitem_length|].
    split; [exact I | discriminate].
Qed.

Lemma coerce_state {ext : Externals} t i df p :
  snd (coerce t i df p) = p.
Proof. destruct (coerce_cases t i df p) as [r [E _]]. now rewrite E. Qed.

(** The column just assigned, on the rows where it holds a value. *)
Lemma setitem_column_holds i s df (D : dtype -> Prop) (V : value -> Prop) rs :
  i < List.length (columns df) ->
  List.length (s_values s) = len df ->
  D (s_dtype s) ->
  (forall v, In v (s_values s) -> isnull v = false -> V v) ->
  incl rs (rows (setitem i s df)) ->
  (forall r, In r rs -> isnull (cell i r) = false) ->
  column_holds D (fun _ => V) i (mkFrame (columns (setitem i s df)) rs).
Proof.
  intros Hi HL HD HV Hincl Hpresent. split.
  - unfold dtype_at; simpl. now rewrite dtype_at_set_same.
  - simpl. intros r' Hr'. pose proof (Hpresent r' Hr') as Hnn.
    apply Hincl in Hr'. simpl in Hr'. apply set_cells_In in Hr'; [|exact HL].
    destruct Hr' as [r [v [_ [Hv ->]]]].
    pose proof (present_cell_in_row _ _ Hnn) as Hlen.
    rewrite set_nth_length in Hlen.
    unfold cell in *. rewrite nth_set_nth_same in * by exact Hlen. auto.
Qed.

(** One iteration of stage 2 that returns: what it logged, what it left
    alone, and what it made of its column. *)
Lemma validate_column_establishes {ext : Externals} item df p df' p' :
  validate_column item df p = (Ok df', p') ->
  (exists extra, logged p' = logged p ++ extra)
  /\ ((column_index (fst item) df = None /\ df' = df)
      \/ exists j, column_index (fst item) df = Some j /\ touches_only j df df')
  /\ (quiet p' -> typed item df').
Proof.
  destruct item as [column rules]. unfold validate_column. simpl fst.
  destruct (column_index column df) as [i|] eqn:Hi.
  2:{ unfold_M; intros E; inv E. split; [exists []; now rewrite app_nil_r|].
      split; [left; auto|]. intros _ j Hj. simpl in Hj. congruence. }
  destruct (rule_type rules) as [t|] eqn:Ht; [|unfold_M; discriminate].
  unfold try_except, bind at 1.
  destruct (coerce t i df p) as [[df1|e] q] eqn:Ec.
  - apply coerce_returns in Ec.
    destruct Ec as [-> [s [-> [HL [HD HV]]]]].
    pose proof (column_index_lt _ _ _ Hi) as Hlt.
    assert (Hnames : column_index column (setitem i s df) = Some i).
    { rewrite (column_index_names df); [exact Hi | apply set_dtype_names]. }
    assert (Hcell : forall v, In v (s_values s) -> isnull v = false ->
                              stable_cell t v).
    { intros v Hv Hn. split; [exact Hn|]. destruct t; try exact I.
      specialize (HV eq_refl v Hv). destruct v; auto. }
    destruct (0 <? count_null (getitem i (setitem i s df)))%nat eqn:Ecount;
      unfold_M; intros E; inv E.
    + split; [exists []; simpl; now rewrite app_nil_r|].
      split.
      * right. exists i. split; [reflexivity|].
        eapply touches_only_trans; [apply setitem_touches_only, HL|].
        apply selection_touches_only, dropna_selection.
      * intros _ j Hj. simpl in Hj.
        rewrite (column_index_names (setitem i s df)) in Hj by reflexivity.
        rewrite Hnames in Hj. injection Hj as <-. exists t. split; [exact Ht|].
        apply (setitem_column_holds i s df (stable_dtype t) (stable_cell t));
          auto.
        -- simpl. intros r Hr. apply filter_In in Hr. tauto.
        -- intros r Hr. apply filter_In in Hr.
           destruct Hr as [_ Hr]. now apply negb_true_iff in Hr.
    + split; [exists []; now rewrite app_nil_r|].
      split.
      * right. exists i. split; [reflexivity|]. apply setitem_touches_only, HL.
      * intros _ j Hj. simpl in Hj. rewrite Hnames in Hj. injection Hj as <-.
        exists t. split; [exact Ht|].
        apply Nat.ltb_ge in Ecount. rewrite count_null_rows in Ecount.
        assert (Hz : List.length (filter (fun r => isnull (cell i r))
                                         (rows (setitem i s df))) = 0) by lia.
        exact (setitem_column_holds i s df (stable_dtype t) (stable_cell t)
                 (rows (setitem i s df)) Hlt HL HD Hcell
                 (incl_refl _) (no_null_rows i _ Hz)).
  - pose proof (coerce_state t i df p) as Hq. rewrite Ec in Hq. simpl in Hq.
    subst q. unfold_M. intros E; inv E. simpl.
    split; [eexists; reflexivity|]. split.
    + right. exists i. split; [reflexivity | apply touches_only_refl].
    + intros Hquiet. exfalso. unfold quiet in Hquiet. simpl in Hquiet.
      eapply Hquiet; [apply in_or_app; right; left; reflexivity | reflexivity].
Qed.

Lemma typed_selection item a b : selection a b -> typed item a -> typed item b.
Proof.
  intros S H i Hi. rewrite (selection_column_index _ _ _ S) in Hi.
  destruct (H i Hi) as [t [Ht Hc]]. exists t. split; [exact Ht|].
  eapply column_holds_selection; eassumption.
Qed.

Lemma quiet_prefix p p' extra :
  logged p' = logged p ++ extra -> quiet p' -> quiet p.
Proof.
  intros E H e He. apply H. rewrite E. apply in_or_app. now left.
Qed.

(** After a stage 2 that logged no conversion error, every schema entry
    has its column typed. *)
Lemma stage2_typed {ext : Externals} schema df p df' p' :
  NoDup (map fst schema) ->
  _validate_data_types schema df p = (Ok df', p') ->
  quiet p' ->
  quiet p /\ forall item, In item schema -> typed item df'.
Proof.
  intros ND. unfold _validate_data_types.
  apply (for_each_establishes fst validate_column typed quiet); [| |exact ND].
  - intros k d q d' q' E Hq.
    destruct (validate_column_establishes k d q d' q' E) as [[extra Hl] [_ Ht]].
    split; [eapply quiet_prefix; eassumption | auto].
  - intros k k' d q d' q' Hkey E Htyped i Hi.
    destruct (validate_column_establishes k' d q d' q' E) as [_ [Hcase _]].
    destruct Hcase as [[_ ->]|[j [Hj Htouch]]]; [apply Htyped, Hi|].
    rewrite (column_index_names d) in Hi by apply Htouch.
    destruct (Htyped i Hi) as [t [Ht Hc]]. exists t. split; [exact Ht|].
    eapply column_holds_touches_only; [|exact Htouch|exact Hc].
    intros ->. apply Hkey. eapply column_index_inj; eassumption.
Qed.

(** The same for a loop whose iterations only ever select rows: no
    condition on the keys is needed. *)
Lemma for_each_establishes_selecting {K} (body : K -> DataFrame -> M DataFrame)
  (P : K -> DataFrame -> Prop) :
  (forall k df p df' p', body k df p = (Ok df', p') -> selection df df' /\ P k df') ->
  (forall k a b, selection a b -> P k a -> P k b) ->
  forall items df p df' p',
    for_each body items df p = (Ok df', p') ->
    forall k, In k items -> P k df'.
Proof.
  intros Hest Hsel items.
  induction items as [|k0 items IH]; intros df p df' p'; simpl.
  - tauto.
  - unfold bind. destruct (body k0 df p) as [[d1|e] p1] eqn:E1; [|discriminate].
    intros E k [<-|Hk]; [|eapply IH; eassumption].
    destruct (Hest _ _ _ _ _ E1) as [_ P0].
    apply (Hsel k0 d1 df'); [|exact P0].
    apply (for_each_returns body (fun a _ b _ => selection a b)) in E;
      auto using selection_refl.
    + intros a _ b _ c _. apply selection_trans.
    + intros k d q d' q' E'. apply (Hest _ _ _ _ _ E').
Qed.

Lemma compare_series_dtype op b s mask :
  compare_series op b s = Ok mask -> s_dtype s <> datetime64.
Proof. unfold compare_series. destruct (s_dtype s); discriminate. Qed.

Lemma bound_filter_passes op bound i df p df' p' :
  bound_filter op bound i df p = (Ok df', p') ->
  (bound <> None -> dtype_at i df <> datetime64)
  /\ forall r, In r (rows df') -> passes op bound (cell i r).
Proof.
  destruct bound as [b|]; [|split; [congruence | intros; exact I]].
  intros E. split.
  - intros _. unfold bound_filter, bind, lift in E.
    destruct (compare_series op b (getitem i df)) as [mask|e] eqn:Ec; [|discriminate].
    apply compare_series_dtype in Ec. exact Ec.
  - intros r Hr. rewrite (bound_filter_rows _ _ _ _ _ _ _ E) in Hr.
    apply filter_In in Hr. destruct Hr as [_ Hr]. simpl.
    destruct (compare_cell op b (cell i r)) as [[[|]|]|]; try discriminate.
    reflexivity.
Qed.

Lemma pattern_filter_matches {ext : Externals} pat i df p df' p' :
  pattern_filter pat i df p = (Ok df', p') ->
  (forall pt, pat = Some pt -> dtype_at i df = object -> re_compile pt <> None)
  /\ forall r, In r (rows df') ->
       forall pt compiled, pat = Some pt -> dtype_at i df = object ->
                           re_compile pt = Some compiled ->
                           compiled (astype_str (cell i r)) = true.
Proof.
  unfold pattern_filter. destruct pat as [pt|].
  2:{ intros _. split; intros; discriminate. }
  destruct (dtype_eqb (dtype_at i df) object) eqn:Ed.
  - destruct (re_compile pt) as [compiled|] eqn:Ec; [|discriminate].
    unfold ret. intros E; injection E as <- <-. split.
    + intros pt' Hpt _. injection Hpt as <-. congruence.
    + intros r Hr pt' compiled' Hpt _ Hc. injection Hpt as <-.
      rewrite Ec in Hc. injection Hc as <-.
      simpl in Hr. unfold str_match in Hr. simpl in Hr. rewrite map_map in Hr.
      rewrite (take_rows_map (fun r => Some (compiled (astype_str (cell i r)))))
        in Hr.
      apply filter_In in Hr. destruct Hr as [_ Hr]. simpl in Hr.
      destruct (compiled (astype_str (cell i r))); [reflexivity | discriminate].
  - intros _. split.
    + intros pt' _ Hd. rewrite Hd in Ed. discriminate.
    + intros r _ pt' compiled' _ Hd. rewrite Hd in Ed. discriminate.
Qed.

Lemma constrain_column_establishes {ext : Externals} item df p df' p' :
  constrain_column item df p = (Ok df', p') -> constrained item df'.
Proof.
  intros E i Hi.
  pose proof (constrain_column_returns _ _ _ _ _ E) as [S _].
  rewrite (selection_column_index _ _ _ S) in Hi.
  destruct item as [column rules]. simpl in *.
  unfold constrain_column in E. rewrite Hi in E.
  unfold bind at 1 in E.
  destruct (bound_filter GE (min_value rules) i df p) as [[d1|e] p1] eqn:E1;
    [|discriminate].
  unfold bind at 1 in E.
  destruct (bound_filter LE (max_value rules) i d1 p1) as [[d2|e] p2] eqn:E2;
    [|discriminate].
  unfold bind at 1 in E.
  destruct (pattern_filter (pattern rules) i d2 p2) as [[d3|e] p3] eqn:E3;
    [|discriminate].
  assert (Hd : df' = d3)
    by (destruct (0 <? len df - len d3)%nat; unfold_M; inv E; reflexivity).
  subst df'.
  pose proof (proj2 (bound_filter_returns _ _ _ _ _ _ _ E1)) as S1.
  pose proof (proj2 (bound_filter_returns _ _ _ _ _ _ _ E2)) as S2.
  pose proof (proj2 (pattern_filter_returns _ _ _ _ _ _ E3)) as S3.
  destruct (bound_filter_passes _ _ _ _ _ _ _ E1) as [D1 V1].
  destruct (bound_filter_passes _ _ _ _ _ _ _ E2) as [D2 V2].
  destruct (pattern_filter_matches _ _ _ _ _ _ E3) as [D3 V3].
  assert (T1 : dtype_at i d1 = dtype_at i df)
    by (unfold dtype_at; now rewrite (proj1 S1)).
  assert (T2 : dtype_at i d2 = dtype_at i df)
    by (unfold dtype_at; now rewrite (proj1 S2), (proj1 S1)).
  assert (T3 : dtype_at i d3 = dtype_at i df)
    by (unfold dtype_at; now rewrite (proj1 S3), (proj1 S2), (proj1 S1)).
  split; rewrite T3.
  - split.
    + intros [Hmin|Hmax]; [apply D1, Hmin | rewrite <- T1; apply D2, Hmax].
    + intros pt Hpt Hobj. apply (D3 pt Hpt). now rewrite T2.
  - intros r Hr. split; [|split].
    + apply V1. apply (selection_incl _ _ S2), (selection_incl _ _ S3), Hr.
    + apply V2. apply (selection_incl _ _ S3), Hr.
    + intros pt compiled Hpt Hobj Hc.
      apply (V3 r Hr pt compiled Hpt); [now rewrite T2 | exact Hc].
Qed.

Lemma constrained_selection {ext : Externals} item a b :
  selection a b -> constrained item a -> constrained item b.
Proof.
  intros S H i Hi. rewrite (selection_column_index _ _ _ S) in Hi.
  eapply column_holds_selection; [exact S | apply H, Hi].
Qed.

Lemma stage3_constrained {ext : Externals} schema df p df' p' :
  _apply_constraints schema df p = (Ok df', p') ->
  forall item, In item schema -> constrained item df'.
Proof.
  unfold _apply_constraints.
  apply (for_each_establishes_selecting constrain_column constrained).
  - intros k d q d' q' E. split.
    + apply (constrain_column_returns _ _ _ _ _ E).
    + eapply constrain_column_establishes; eassumption.
  - intros k a b. apply constrained_selection.
Qed.

Lemma compare_cell_comparable op b v :
  (exists m, compare_cell op b v = Ok m) <-> comparable v = true.
Proof.
  destruct v; simpl; split; intros H; try reflexivity; try discriminate; eauto.
  - destruct b; eauto.
  - destruct H; discriminate.
  - destruct H; discriminate.
Qed.

Lemma remove_outliers_column_establishes schema column df p df' p' :
  remove_outliers_column schema column df p = (Ok df', p') ->
  bounded schema column df'.
Proof.
  intros E Hs i Hi.
  pose proof (remove_outliers_column_returns _ _ _ _ _ _ E) as [S _].
  rewrite (selection_column_index _ _ _ S) in Hi.
  apply (column_holds_selection _ _ i df df' S).
  unfold remove_outliers_column in E. rewrite Hs, Hi in E.
  unfold bind at 1, lift in E.
  destruct (outlier_mask _ _ _) as [mask|e] eqn:Em; [|discriminate].
  unfold outlier_mask in Em.
  destruct (compare_series LT _ _) as [below|e] eqn:E1; [|discriminate].
  pose proof (compare_series_dtype _ _ _ _ E1) as Hd.
  apply compare_series_ok in E1. destruct E1 as [_ HF].
  split; [exact Hd|]. rewrite Forall_forall in HF.
  intros r Hr. apply (compare_cell_comparable LT (NFloat (lower_bound (getitem i df)))).
  apply HF, Hr.
Qed.

Lemma bounded_selection schema column a b :
  selection a b -> bounded schema column a -> bounded schema column b.
Proof.
  intros S H Hs i Hi. rewrite (selection_column_index _ _ _ S) in Hi.
  eapply column_holds_selection; [exact S | apply H; assumption].
Qed.

Lemma stage4_selection schema df p df' p' :
  _remove_outliers schema df p = (Ok df', p') -> selection df df'.
Proof.
  unfold _remove_outliers. intros E.
  apply (for_each_returns (remove_outliers_column schema)
           (fun a _ b _ => selection a b)) in E; auto using selection_refl.
  - intros a _ b _ c _. apply selection_trans.
  - intros k d q d' q' E'. apply (remove_outliers_column_returns _ _ _ _ _ _ E').
Qed.

Lemma stage4_bounded schema df p df' p' :
  _remove_outliers schema df p = (Ok df', p') ->
  forall column, In column (numeric_columns df') -> bounded schema column df'.
Proof.
  intros E column Hin.
  assert (Hcols : numeric_columns df' = numeric_columns df).
  { unfold numeric_columns. now rewrite (proj1 (stage4_selection _ _ _ _ _ E)). }
  rewrite Hcols in Hin. revert column Hin. unfold _remove_outliers in E.
  apply (for_each_establishes_selecting (remove_outliers_column schema)
           (bounded schema)) with (df := df) (p := p) (p' := p'); [| |exact E].
  - intros k d q d' q' E'. split.
    + apply (remove_outliers_column_returns _ _ _ _ _ _ E').
    + eapply remove_outliers_column_establishes; eassumption.
  - intros k a b. apply bounded_selection.
Qed.

(** *** The second run, iteration by iteration *)

Lemma for_each_fixed {K} (body : K -> DataFrame -> M DataFrame) items df :
  (forall k, In k items -> forall p, body k df p = (Ok df, p)) ->
  forall p, for_each body items df p = (Ok df, p).
Proof.
  induction items as [|k items IH]; intros H p; simpl; [reflexivity|].
  unfold bind. rewrite (H k (or_introl eq_refl)).
  apply IH. intros k' Hk'. apply H. now right.
Qed.

Lemma count_null_zero i df :
  (forall r, In r (rows df) -> isnull (cell i r) = false) ->
  count_null (getitem i df) = 0.
Proof.
  intros H. rewrite count_null_rows.
  induction (rows df) as [|r rs IH]; simpl; [reflexivity|].
  rewrite (H r (or_introl eq_refl)). apply IH. intros r' Hr'. apply H. now right.
Qed.

Lemma typed_no_null item df i :
  typed item df -> column_index (fst item) df = Some i ->
  count_null (getitem i df) = 0.
Proof.
  intros H Hi. destruct (H i Hi) as [t [_ [_ Hv]]].
  apply count_null_zero. intros r Hr. apply (Hv r Hr).
Qed.

Lemma fillna_nothing fill s : count_null s = 0 -> fillna fill s = Ok s.
Proof. unfold fillna. now intros ->. Qed.

Lemma handle_missing_column_fixed item df p :
  typed item df -> handle_missing_column item df p = (Ok df, p).
Proof.
  intros H. destruct item as [column rules]. unfold handle_missing_column.
  destruct (column_index column df) as [i|] eqn:Hi; [|reflexivity].
  pose proof (typed_no_null (column, rules) df i H Hi) as Hz.
  destruct (is_required rules).
  - rewrite Hz. reflexivity.
  - destruct (dtype_eqb _ _ || dtype_eqb _ _); unfold_M;
      rewrite (fillna_nothing _ _ Hz), setitem_getitem; reflexivity.
Qed.

Lemma mapM_fixed {A} (f : A -> result A) l :
  (forall x, In x l -> f x = Ok x) -> mapM f l = Ok l.
Proof.
  induction l as [|x l IH]; intros H; simpl; [reflexivity|].
  rewrite (H x (or_introl eq_refl)), IH; [reflexivity|].
  intros y Hy. apply H. now right.
Qed.

Lemma to_datetime_fixed {ext : Externals} s :
  s_dtype s = datetime64 -> to_datetime s = s.
Proof. unfold to_datetime. now intros ->. Qed.

Lemma to_numeric_fixed {ext : Externals} s :
  is_number_dtype (s_dtype s) = true -> to_numeric s = s.
Proof. unfold to_numeric. destruct (s_dtype s); try discriminate; reflexivity. Qed.

Lemma astype_Int64_fixed {ext : Externals} s :
  s_dtype s = Int64 ->
  (forall v, In v (s_values s) -> match v with VFloat _ => False | _ => True end) ->
  astype_Int64 s = Ok s.
Proof.
  intros Hd Hv. unfold astype_Int64. rewrite mapM_fixed.
  - destruct s; simpl in *. now subst.
  - intros v Hin. specialize (Hv v Hin). destruct v; try reflexivity. destruct Hv.
Qed.

Lemma coerce_fixed {ext : Externals} t i df p :
  column_holds (stable_dtype t) (fun _ => stable_cell t) i df ->
  coerce t i df p = (Ok df, p).
Proof.
  intros [HD HV]. destruct t as [tag| | |]; unfold coerce; unfold_M; simpl in HD.
  - destruct (String.eqb tag "datetime"); [|reflexivity].
    rewrite to_datetime_fixed by exact HD. now rewrite setitem_getitem.
  - rewrite to_numeric_fixed by (simpl; now rewrite HD).
    rewrite astype_Int64_fixed; [now rewrite setitem_getitem | exact HD |].
    intros v Hv. simpl in Hv. apply in_map_iff in Hv. destruct Hv as [r [<- Hr]].
    destruct (HV r Hr) as [_ Hnf]. destruct (cell i r); auto.
  - rewrite to_numeric_fixed by exact HD. now rewrite setitem_getitem.
  - reflexivity.
Qed.

Lemma validate_column_fixed {ext : Externals} item df p :
  typed item df -> validate_column item df p = (Ok df, p).
Proof.
  intros H. destruct item as [column rules]. unfold validate_column.
  destruct (column_index column df) as [i|] eqn:Hi; [|reflexivity].
  pose proof (typed_no_null (column, rules) df i H Hi) as Hz.
  destruct (H i Hi) as [t [Ht Hc]]. simpl in Ht. rewrite Ht.
  unfold try_except, bind at 1. rewrite (coerce_fixed t i df p Hc).
  rewrite Hz. reflexivity.
Qed.

Lemma mapM_const {A B} (f : A -> result B) (c : B) l :
  (forall x, In x l -> f x = Ok c) -> mapM f l = Ok (map (fun _ => c) l).
Proof.
  induction l as [|x l IH]; intros H; simpl; [reflexivity|].
  rewrite (H x (or_introl eq_refl)), IH; [reflexivity|].
  intros y Hy. apply H. now right.
Qed.

Lemma take_all_rows df (m : list value -> option bool) :
  (forall r, In r (rows df) -> m r = Some true) ->
  boolean_index (map m (rows df)) df = df.
Proof.
  intros H. unfold boolean_index. rewrite take_rows_map.
  replace (filter (fun r => selects (m r)) (rows df)) with (rows df);
    [destruct df; reflexivity|].
  induction (rows df) as [|r rs IH]; simpl; [reflexivity|].
  rewrite (H r (or_introl eq_refl)). simpl. f_equal. apply IH.
  intros r' Hr'. apply H. now right.
Qed.

Lemma bound_filter_fixed op bound i df p :
  (bound <> None -> dtype_at i df <> datetime64) ->
  (forall r, In r (rows df) -> passes op bound (cell i r)) ->
  bound_filter op bound i df p = (Ok df, p).
Proof.
  intros HD HV. unfold bound_filter. destruct bound as [b|]; [|reflexivity].
  unfold bind, lift, ret.
  assert (E : compare_series op b (getitem i df)
              = Ok (map (fun _ => Some true) (s_values (getitem i df)))).
  { unfold compare_series.
    assert (Hm : mapM (compare_cell op b) (s_values (getitem i df))
                 = Ok (map (fun _ => Some true) (s_values (getitem i df)))).
    { apply mapM_const. simpl. intros v Hv. apply in_map_iff in Hv.
      destruct Hv as [r [<- Hr]]. apply (HV r Hr). }
    specialize (HD ltac:(discriminate)). simpl in *.
    destruct (dtype_at i df); try exact Hm. congruence. }
  rewrite E. simpl. rewrite map_map.
  rewrite (take_all_rows df (fun _ => Some true)); auto.
Qed.

Lemma pattern_filter_fixed {ext : Externals} pat i df p :
  (forall pt, pat = Some pt -> dtype_at i df = object -> re_compile pt <> None) ->
  (forall r, In r (rows df) ->
     forall pt compiled, pat = Some pt -> dtype_at i df = object ->
                         re_compile pt = Some compiled ->
                         compiled (astype_str (cell i r)) = true) ->
  pattern_filter pat i df p = (Ok df, p).
Proof.
  intros HD HV. unfold pattern_filter. destruct pat as [pt|]; [|reflexivity].
  destruct (dtype_at i df) eqn:Ed; simpl; try reflexivity.
  destruct (re_compile pt) as [compiled|] eqn:Ec.
  - unfold ret, str_match. simpl. rewrite map_map.
    rewrite (take_all_rows df
               (fun r => Some (compiled (astype_str (cell i r))))); auto.
    intros r Hr. now rewrite (HV r Hr pt compiled eq_refl eq_refl Ec).
  - exfalso. now apply (HD pt eq_refl eq_refl).
Qed.

Lemma constrain_column_fixed {ext : Externals} item df p :
  constrained item df -> constrain_column item df p = (Ok df, p).
Proof.
  intros H. destruct item as [column rules]. unfold constrain_column.
  destruct (column_index column df) as [i|] eqn:Hi; [|reflexivity].
  destruct (H i Hi) as [[HD1 HD2] HV]. simpl in *.
  unfold bind at 1. rewrite bound_filter_fixed.
  - unfold bind at 1. rewrite bound_filter_fixed.
    + unfold bind at 1. rewrite pattern_filter_fixed.
      * rewrite Nat.sub_diag. reflexivity.
      * exact HD2.
      * intros r Hr. apply (HV r Hr).
    + intros Hb. apply HD1. now right.
    + intros r Hr. apply (HV r Hr).
  - intros Hb. apply HD1. now left.
  - intros r Hr. apply (HV r Hr).
Qed.

Lemma filter_none {A} (f : A -> bool) l :
  (forall x, In x l -> f x = false) -> List.length (filter f l) = 0.
Proof.
  induction l as [|x l IH]; intros H; simpl; [reflexivity|].
  rewrite (H x (or_introl eq_refl)). apply IH. intros y Hy. apply H. now right.
Qed.

Lemma outlier_cell_outside lower upper v :
  selects (outlier_cell lower upper v) = outside lower upper v.
Proof.
  destruct v; unfold outlier_cell; simpl; try reflexivity;
    destruct (F64.lt _ lower), (F64.lt upper _); reflexivity.
Qed.

Lemma outlier_mask_comparable lower upper i df :
  dtype_at i df <> datetime64 ->
  (forall r, In r (rows df) -> comparable (cell i r) = true) ->
  outlier_mask lower upper (getitem i df)
  = Ok (map (fun r => outlier_cell lower upper (cell i r)) (rows df)).
Proof.
  intros Hd Hc.
  assert (Hcmp : forall op b, exists mask,
             compare_series op b (getitem i df) = Ok mask).
  { intros op b. unfold compare_series.
    assert (H : exists mask,
               mapM (compare_cell op b) (s_values (getitem i df)) = Ok mask).
    { apply mapM_ok_of_Forall. simpl. rewrite Forall_map. apply Forall_forall.
      intros r Hr. apply compare_cell_comparable, Hc, Hr. }
    simpl in *. destruct (dtype_at i df); try exact H. congruence. }
  destruct (outlier_mask lower upper (getitem i df)) as [mask|e] eqn:E.
  - apply outlier_mask_ok in E. destruct E as [-> _]. reflexivity.
  - unfold outlier_mask in E.
    destruct (Hcmp LT (NFloat lower)) as [m1 E1].
    destruct (Hcmp GT (NFloat upper)) as [m2 E2].
    rewrite E1, E2 in E. discriminate.
Qed.

Lemma remove_outliers_column_fixed schema column df p :
  In column (numeric_columns df) ->
  bounded schema column df ->
  no_outliers schema df ->
  remove_outliers_column schema column df p = (Ok df, p).
Proof.
  intros Hin Hb Hno. unfold remove_outliers_column.
  destruct (in_schema column schema) eqn:Hs; [|reflexivity].
  destruct (column_index column df) as [i|] eqn:Hi; [|reflexivity].
  destruct (Hb Hs i Hi) as [HD HV].
  unfold bind at 1, lift.
  rewrite (outlier_mask_comparable _ _ i df HD HV).
  assert (Hsum : mask_sum
                   (map (fun r => outlier_cell (lower_bound (getitem i df))
                                    (upper_bound (getitem i df)) (cell i r))
                        (rows df)) = 0).
  { unfold mask_sum. rewrite filter_map_length. apply filter_none.
    intros r Hr. rewrite outlier_cell_outside. apply (Hno column i r); auto. }
  rewrite Hsum. reflexivity.
Qed.

Lemma stage3_logged {ext : Externals} schema df p df' p' :
  _apply_constraints schema df p = (Ok df', p') -> logged p' = logged p.
Proof.
  intros E.
  apply (for_each_returns constrain_column
           (fun _ p _ q => logged q = logged p)) in E; auto.
  - intros _ a _ b _ c H1 H2. congruence.
  - intros k d q d' q' E'. apply constrain_column_returns in E'. tauto.
Qed.

Lemma stage4_logged schema df p df' p' :
  _remove_outliers schema df p = (Ok df', p') -> logged p' = logged p.
Proof.
  unfold _remove_outliers. intros E.
  apply (for_each_returns (remove_outliers_column schema)
           (fun _ p _ q => logged q = logged p)) in E; auto.
  - intros _ a _ b _ c H1 H2. congruence.
  - intros k d q d' q' E'. apply remove_outliers_column_returns in E'. tauto.
Qed.

(** A frame that is typed and constrained for every schema entry, whose
    numeric columns can be compared and hold no outlier, goes through the
    four stages unchanged and without a word. *)
Lemma four_stages_fixed {ext : Externals} schema out p :
  (forall item, In item schema -> typed item out) ->
  (forall item, In item schema -> constrained item out) ->
  (forall column, In column (numeric_columns out) -> bounded schema column out) ->
  no_outliers schema out ->
  four_stages schema out p = (Ok out, p).
Proof.
  intros Ht Hc Hb Hno. unfold four_stages.
  unfold bind at 1. unfold _handle_missing_values.
  rewrite for_each_fixed
    by (intros k Hk q; apply handle_missing_column_fixed, Ht, Hk).
  unfold bind at 1. unfold _validate_data_types.
  rewrite for_each_fixed
    by (intros k Hk q; apply validate_column_fixed, Ht, Hk).
  unfold bind at 1. unfold _apply_constraints.
  rewrite for_each_fixed
    by (intros k Hk q; apply constrain_column_fixed, Hc, Hk).
  unfold _remove_outliers.
  apply for_each_fixed.
  intros k Hk q. apply remove_outliers_column_fixed; auto.
Qed.

(** C1, as the code has it. Take a schema (a dict: its keys are distinct)
    and a first run on a fresh instance that returns without logging a
    conversion error.  If no value of a numeric schema column of the
    output lies strictly outside the quartile bounds computed again on
    the output, a second run on the output with a fresh instance adds no
    entry to [errors] and returns the output itself, so the same number
    of rows. *)
Theorem second_run_is_silent_without_new_outliers {ext : Externals}
  schema df out p1 :
  NoDup (map fst schema) ->
  clean_and_validate schema df init = (Ok out, p1) ->
  quiet p1 ->
  no_outliers schema out ->
  exists l,
    clean_and_validate schema out init
    = (Ok out, mkPipeline [] (len out) (len out) l).
Proof.
  intros ND Hrun Hquiet Hno.
  pose proof (clean_and_validate_unfold schema df init) as U.
  destruct (four_stages schema df (started df init)) as [[out'|e] q] eqn:E4.
  2:{ rewrite U in Hrun. discriminate. }
  destruct U as [l U]. rewrite U in Hrun. injection Hrun as -> <-.
  assert (Hq : quiet q) by (eapply quiet_prefix; [|exact Hquiet]; reflexivity).
  clear Hquiet U.
  unfold four_stages in E4. unfold bind in E4.
  destruct (_handle_missing_values schema df (started df init))
    as [[d1|e] q1] eqn:E1; [|discriminate].
  destruct (_validate_data_types schema d1 q1) as [[d2|e] q2] eqn:E2;
    [|discriminate].
  destruct (_apply_constraints schema d2 q2) as [[d3|e] q3] eqn:E3;
    [|discriminate].
  pose proof (stage3_selection _ _ _ _ _ E3) as S3.
  pose proof (stage4_selection _ _ _ _ _ E4) as S4.
  assert (Hq2 : quiet q2).
  { intros x Hx. apply Hq.
    rewrite (stage4_logged _ _ _ _ _ E4), (stage3_logged _ _ _ _ _ E3). exact Hx. }
  destruct (stage2_typed schema d1 q1 d2 q2 ND E2 Hq2) as [_ Htyped].
  pose proof (stage3_constrained schema d2 q2 d3 q3 E3) as Hcons.
  pose proof (stage4_bounded schema d3 q3 out q E4) as Hbound.
  pose proof (clean_and_validate_unfold schema out init) as U2.
  assert (F : four_stages schema out (started out init)
              = (Ok out, started out init)).
  { apply four_stages_fixed; auto.
    - intros item Hin. apply (typed_selection item d3 out S4).
      apply (typed_selection item d2 d3 S3). apply Htyped, Hin.
    - intros item Hin. apply (constrained_selection item d3 out S4).
      apply Hcons, Hin. }
  rewrite F in U2. destruct U2 as [l2 U2]. rewrite U2. simpl. eauto.
Qed.

Section SecondRunExamples.

#[local] Existing Instance Examples.literal_externals.

(** C1, the statement of the specification fails: removing an outlier
    moves the quartiles. The first run on [0, 1, 2, 10, 1000] removes
    1000; on its output [0, 1, 2, 10] the bounds are -4.125 and 8.875,
    so the second run removes 10, logs a new entry and returns three
    rows for four. *)
Lemma second_run_removes_a_new_outlier :
  clean_and_validate [("a", Examples.rule PyFloat false)]
    (Examples.floats "a" [0; 1; 2; 10; 1000]%float) init
  = (Ok (Examples.floats "a" [0; 1; 2; 10]%float),
     mkPipeline ["Removed 1 outliers from a"] 4 5
       [(INFO, "Starting pipeline with 5 rows");
        (INFO, "Pipeline completed: 4/5 rows retained");
        (WARNING, "Removed 1 outliers from a")])
  /\ lower_bound (getitem 0 (Examples.floats "a" [0; 1; 2; 10]%float))
     = (-4.125)%float
  /\ upper_bound (getitem 0 (Examples.floats "a" [0; 1; 2; 10]%float))
     = 8.875%float
  /\ clean_and_validate [("a", Examples.rule PyFloat false)]
       (Examples.floats "a" [0; 1; 2; 10]%float) init
     = (Ok (Examples.floats "a" [0; 1; 2]%float),
        mkPipeline ["Removed 1 outliers from a"] 3 4
          [(INFO, "Starting pipeline with 4 rows");
           (INFO, "Pipeline completed: 3/4 rows retained");
           (WARNING, "Removed 1 outliers from a")]).
Proof. repeat split; reflexivity. Qed.

(** Why the first run must not have logged a conversion error: "1.5"
    makes the integer conversion fail and the column stays text; stage 3
    then removes "1.5", so on the output the conversion goes through and
    the second run drops "2x" as invalid. *)
Lemma second_run_after_conversion_error :
  (exists text,
     clean_and_validate
       [("c", mkRule (Some PyInt) None None None (Some "2"))]
       (Examples.texts "c" ["1.5"; "2"; "2x"]) init
     = (Ok (Examples.texts "c" ["2"; "2x"]),
        mkPipeline ["Removed 1 rows failing c constraints"] 2 3
          [(INFO, "Starting pipeline with 3 rows");
           (ERROR, ("Type conversion error for c: " ++ text)%string);
           (INFO, "Pipeline completed: 2/3 rows retained");
           (WARNING, "Removed 1 rows failing c constraints")]))
  /\ clean_and_validate
       [("c", mkRule (Some PyInt) None None None (Some "2"))]
       (Examples.texts "c" ["2"; "2x"]) init
     = (Ok (mkFrame [("c", Int64)] [[VInt 2]]),
        mkPipeline ["Removed 1 rows with invalid c"] 1 2
          [(INFO, "Starting pipeline with 2 rows");
           (INFO, "Pipeline completed: 1/2 rows retained");
           (WARNING, "Removed 1 rows with invalid c")]).
Proof.
  split; [|vm_compute; reflexivity].
  exists (cast_error_text [VFloat 1.5%float; VFloat 2%float; VFloat F64.nan]).
  vm_compute. reflexivity.
Qed.

(** The first run on [10, 12, 11, 13, 1000] removes 1000; on the output
    the bounds are 8.5 and 14.5, and the second run is silent. *)
Lemma second_run_is_silent_without_new_outliers_witness :
  exists l,
    clean_and_validate [("x", Examples.rule PyFloat false)]
      (Examples.floats "x" [10; 12; 11; 13]%float) init
    = (Ok (Examples.floats "x" [10; 12; 11; 13]%float), mkPipeline [] 4 4 l).
Proof.
  apply (second_run_is_silent_without_new_outliers
           [("x", Examples.rule PyFloat false)]
           (Examples.floats "x" [10; 12; 11; 13; 1000]%float)
           (Examples.floats "x" [10; 12; 11; 13]%float)
           (mkPipeline ["Removed 1 outliers from x"] 4 5
              [(INFO, "Starting pipeline with 5 rows");
               (INFO, "Pipeline completed: 4/5 rows retained");
               (WARNING, "Removed 1 outliers from x")])).
  - repeat constructor. simpl. tauto.
  - reflexivity.
  - intros e He. simpl in He.
    repeat (destruct He as [<-|He]; [discriminate|]). destruct He.
  - intros column i r Hin Hs Hi Hr. simpl in Hin.
    destruct Hin as [<-|[]]. injection Hi as <-. simpl in Hr.
    repeat (destruct Hr as [<-|Hr]; [reflexivity|]). destruct Hr.
Defined.

End SecondRunExamples.

(** * Further properties of the pipeline *)

(** ** How a run is put together *)

Lemma four_stages_returns {ext : Externals} schema df p out q :
  four_stages schema df p = (Ok out, q) ->
  exists d1 p1 d2 p2 d3 p3,
    _handle_missing_values schema df p = (Ok d1, p1)
    /\ _validate_data_types schema d1 p1 = (Ok d2, p2)
    /\ _apply_constraints schema d2 p2 = (Ok d3, p3)
    /\ _remove_outliers schema d3 p3 = (Ok out, q).
Proof.
  unfold four_stages, bind.
  destruct (_handle_missing_values schema df p) as [[d1|e] p1] eqn:E1;
    [|discriminate].
  destruct (_validate_data_types schema d1 p1) as [[d2|e] p2] eqn:E2;
    [|discriminate].
  destruct (_apply_constraints schema d2 p2) as [[d3|e] p3] eqn:E3;
    [|discriminate].
  intros E. exists d1, p1, d2, p2, d3, p3. repeat split; auto.
Qed.

Lemma warnings_exact (es : list string) (acc : M unit) p e c t l :
  acc p = (Ok tt, mkPipeline e c t l) ->
  fold_left (fun a w => (a ;;; log WARNING w)%pipeline) es acc p
  = (Ok tt, mkPipeline e c t (l ++ map (fun w => (WARNING, w)) es)).
Proof.
  revert acc l; induction es as [|w es IH]; intros acc l E; simpl.
  - now rewrite app_nil_r.
  - rewrite (IH (acc ;;; log WARNING w)%pipeline (l ++ [(WARNING, w)])).
    + now rewrite <- app_assoc.
    + unfold_M. rewrite E. reflexivity.
Qed.

Lemma generate_report_exact p :
  _generate_report p
  = (Ok tt,
     mkPipeline (errors p) (cleaned_rows p) (total_rows p)
       (logged p ++ (INFO, completed (cleaned_rows p) (total_rows p))
                 :: map (fun w => (WARNING, w)) (errors p))).
Proof.
  unfold _generate_report. unfold bind at 1. unfold get_counts.
  unfold bind at 1. unfold log at 1. unfold bind at 1. unfold get_errors at 1.
  cbn [fst snd errors cleaned_rows total_rows logged].
  match goal with
  | |- fold_left ?f ?es ?acc ?st = _ =>
      rewrite (warnings_exact es acc st _ _ _ _ eq_refl)
  end.
  rewrite <- app_assoc. reflexivity.
Qed.

Lemma clean_and_validate_exact {ext : Externals} schema df p :
  clean_and_validate schema df p
  = match four_stages schema df (started df p) with
    | (Ok out, q) =>
        (Ok out,
         mkPipeline (errors q) (len out) (total_rows q)
           (logged q ++ (INFO, completed (len out) (total_rows q))
                     :: map (fun w => (WARNING, w)) (errors q)))
    | (Raise e, q) => (Raise e, q)
    end.
Proof.
  unfold clean_and_validate, four_stages, started, bind, set_total_rows, log.
  cbn [errors cleaned_rows total_rows logged].
  destruct (_handle_missing_values schema df _) as [[d1|e] p1]; [|reflexivity].
  destruct (_validate_data_types schema d1 p1) as [[d2|e] p2]; [|reflexivity].
  destruct (_apply_constraints schema d2 p2) as [[d3|e] p3]; [|reflexivity].
  destruct (_remove_outliers schema d3 p3) as [[out|e] q]; [|reflexivity].
  unfold set_cleaned_rows. rewrite generate_report_exact. reflexivity.
Qed.

(** ** The instance only grows *)

Lemma grows_refl p : grows p p.
Proof. split; exists []; now rewrite app_nil_r. Qed.

Lemma grows_trans p q r : grows p q -> grows q r -> grows p r.
Proof.
  intros [[e1 E1] [l1 L1]] [[e2 E2] [l2 L2]]. split.
  - exists (e1 ++ e2). now rewrite E2, E1, app_assoc.
  - exists (l1 ++ l2). now rewrite L2, L1, app_assoc.
Qed.

Ltac solve_grows :=
  split; simpl;
  first [ exists []; now rewrite app_nil_r | eexists; reflexivity ].

Lemma handle_missing_column_grows item df p :
  grows p (snd (handle_missing_column item df p)).
Proof.
  destruct item as [column rules]. unfold handle_missing_column.
  destruct (column_index column df) as [i|]; [|apply grows_refl].
  destruct (is_required rules).
  - destruct (0 <? count_null (getitem i df))%nat; unfold_M; solve_grows.
  - destruct (dtype_eqb _ _ || dtype_eqb _ _); unfold_M;
      destruct (fillna _ _); apply grows_refl.
Qed.

Lemma validate_column_grows {ext : Externals} item df p :
  grows p (snd (validate_column item df p)).
Proof.
  destruct item as [column rules]. unfold validate_column.
  destruct (column_index column df) as [i|]; [|apply grows_refl].
  destruct (rule_type rules) as [t|]; [|apply grows_refl].
  destruct (coerce_cases t i df p) as [r [Er _]].
  unfold try_except, bind at 1. rewrite Er. destruct r as [df1|e].
  - destruct (0 <? count_null (getitem i df1))%nat; unfold_M; solve_grows.
  - unfold_M. solve_grows.
Qed.

Lemma constrain_column_grows {ext : Externals} item df p :
  grows p (snd (constrain_column item df p)).
Proof.
  destruct item as [column rules]. unfold constrain_column.
  destruct (column_index column df) as [i|]; [|apply grows_refl].
  unfold bind at 1.
  pose proof (bound_filter_state GE (min_value rules) i df p) as H1.
  destruct (bound_filter GE (min_value rules) i df p) as [[d1|e] p1];
    simpl in H1; subst p1; [|apply grows_refl].
  unfold bind at 1.
  pose proof (bound_filter_state LE (max_value rules) i d1 p) as H2.
  destruct (bound_filter LE (max_value rules) i d1 p) as [[d2|e] p2];
    simpl in H2; subst p2; [|apply grows_refl].
  unfold bind at 1.
  pose proof (pattern_filter_state (pattern rules) i d2 p) as H3.
  destruct (pattern_filter (pattern rules) i d2 p) as [[d3|e] p3];
    simpl in H3; subst p3; [|apply grows_refl].
  destruct (0 <? len df - len d3)%nat; unfold_M; solve_grows.
Qed.

Lemma remove_outliers_column_grows schema column df p :
  grows p (snd (remove_outliers_column schema column df p)).
Proof.
  unfold remove_outliers_column.
  destruct (in_schema column schema); [|apply grows_refl].
  destruct (column_index column df) as [i|]; [|apply grows_refl].
  unfold bind at 1, lift.
  destruct (outlier_mask _ _ _) as [mask|e]; [|apply grows_refl].
  destruct (0 <? mask_sum _)%nat; unfold_M; solve_grows.
Qed.

Lemma four_stages_grows {ext : Externals} schema df p :
  grows p (snd (four_stages schema df p)).
Proof.
  assert (G1 : forall d q, grows q (snd (_handle_missing_values schema d q)))
    by (intros; unfold _handle_missing_values; apply for_each_state;
        [apply grows_refl | apply grows_trans | intros; apply handle_missing_column_grows]).
  assert (G2 : forall d q, grows q (snd (_validate_data_types schema d q)))
    by (intros; unfold _validate_data_types; apply for_each_state;
        [apply grows_refl | apply grows_trans | intros; apply validate_column_grows]).
  assert (G3 : forall d q, grows q (snd (_apply_constraints schema d q)))
    by (intros; unfold _apply_constraints; apply for_each_state;
        [apply grows_refl | apply grows_trans | intros; apply constrain_column_grows]).
  assert (G4 : forall d q, grows q (snd (_remove_outliers schema d q)))
    by (intros; unfold _remove_outliers; apply for_each_state;
        [apply grows_refl | apply grows_trans | intros; apply remove_outliers_column_grows]).
  unfold four_stages, bind.
  specialize (G1 df p).
  destruct (_handle_missing_values schema df p) as [[d1|e] p1]; simpl in *; auto.
  specialize (G2 d1 p1).
  destruct (_validate_data_types schema d1 p1) as [[d2|e] p2]; simpl in *;
    [|eauto using grows_trans].
  specialize (G3 d2 p2).
  destruct (_apply_constraints schema d2 p2) as [[d3|e] p3]; simpl in *;
    [|eauto using grows_trans].
  specialize (G4 d3 p3). eauto using grows_trans.
Qed.

(** X1. Whatever a run does, return or raise, and whatever the instance
    held before, [errors] and the logger's records afterwards are those
    from before with new ones appended: nothing is ever cleared or
    rewritten, so a second run on the same instance keeps the entries of
    the first. *)
Theorem run_only_appends {ext : Externals} schema df p :
  grows p (snd (clean_and_validate schema df p)).
Proof.
  rewrite clean_and_validate_exact.
  pose proof (four_stages_grows schema df (started df p)) as G.
  assert (G0 : grows p (started df p)) by (unfold started; solve_grows).
  destruct (four_stages schema df (started df p)) as [[out|e] q]; simpl in *.
  - eapply grows_trans; [exact G0|]. eapply grows_trans; [exact G|].
    solve_grows.
  - eapply grows_trans; eassumption.
Qed.

(** ** What the logger receives *)

Lemma stage1_logged schema df p df' p' :
  _handle_missing_values schema df p = (Ok df', p') -> logged p' = logged p.
Proof.
  unfold _handle_missing_values. intros E.
  apply (for_each_returns handle_missing_column
           (fun _ p _ q => logged q = logged p)) in E; auto.
  - intros _ a _ b _ c H1 H2. congruence.
  - intros k d q d' q' E'. apply handle_missing_column_returns in E'. tauto.
Qed.

Lemma validate_column_logged {ext : Externals} item df p df' p' :
  validate_column item df p = (Ok df', p') ->
  exists failures, logged p' = logged p ++ failures
                   /\ Forall (fun r => fst r = ERROR) failures.
Proof.
  destruct item as [column rules]. unfold validate_column.
  destruct (column_index column df) as [i|].
  2:{ unfold_M; intros E; inv E. exists []. now rewrite app_nil_r. }
  destruct (rule_type rules) as [t|]; [|unfold_M; discriminate].
  destruct (coerce_cases t i df p) as [r [Er _]].
  unfold try_except, bind at 1. rewrite Er. destruct r as [df1|e].
  - destruct (0 <? count_null (getitem i df1))%nat; unfold_M; intros E; inv E;
      exists []; simpl; now rewrite app_nil_r.
  - unfold_M. intros E; inv E. simpl. eexists. split; [reflexivity|].
    constructor; [reflexivity | constructor].
Qed.

Lemma stage2_logged {ext : Externals} schema df p df' p' :
  _validate_data_types schema df p = (Ok df', p') ->
  exists failures, logged p' = logged p ++ failures
                   /\ Forall (fun r => fst r = ERROR) failures.
Proof.
  unfold _validate_data_types. intros E.
  apply (for_each_returns validate_column
           (fun _ p _ q =>
              exists failures, logged q = logged p ++ failures
                               /\ Forall (fun r => fst r = ERROR) failures))
    in E; auto.
  - intros _ q. exists []. now rewrite app_nil_r.
  - intros _ a _ b _ c [f1 [L1 F1]] [f2 [L2 F2]]. exists (f1 ++ f2).
    split; [now rewrite L2, L1, app_assoc | apply Forall_app; auto].
  - intros k d q d' q'. apply validate_column_logged.
Qed.

Lemma conversion_failure_severity {ext : Externals} iteration :
  Forall (fun r => fst r = ERROR) (conversion_failure iteration).
Proof.
  destruct iteration as [[[column rules] d] q]. unfold conversion_failure.
  destruct (column_index column d) as [i|]; [|constructor].
  destruct (rule_type rules) as [t|]; [|constructor].
  destruct (fst (coerce t i d q)); repeat constructor.
Qed.

Lemma validate_column_logs {ext : Externals} item df p df' p' :
  validate_column item df p = (Ok df', p') ->
  logged p' = logged p ++ conversion_failure (item, df, p).
Proof.
  destruct item as [column rules]. unfold conversion_failure.
  destruct (column_index column df) as [i|] eqn:Hi.
  2:{ rewrite (validate_column_absent column rules df p Hi). intros E; inv E.
      now rewrite app_nil_r. }
  destruct (rule_type rules) as [t|] eqn:Ht.
  2:{ rewrite (validate_column_without_type column rules df p i Hi Ht).
      discriminate. }
  destruct (coerce_cases t i df p) as [r [Er _]]. rewrite Er. cbn [fst].
  destruct r as [df1|e].
  - rewrite (validate_column_coerced column rules t df p i df1 Hi Ht Er).
    destruct (0 <? count_null (getitem i df1))%nat; intros E; inv E;
      simpl; now rewrite app_nil_r.
  - rewrite (validate_column_failed column rules t df p i e Hi Ht Er).
    intros E; inv E. reflexivity.
Qed.

(** Stage 2 logs the failed conversions of its iterations, in order, and
    nothing else. *)
Lemma stage2_logs {ext : Externals} schema df p df' p' :
  _validate_data_types schema df p = (Ok df', p') ->
  logged p'
  = logged p ++ flat_map conversion_failure (iterations validate_column schema df p).
Proof.
  unfold _validate_data_types. revert df p.
  induction schema as [|item rest IH]; intros df p; cbn [for_each iterations flat_map].
  - unfold ret. intros E; inv E. now rewrite app_nil_r.
  - unfold bind.
    destruct (validate_column item df p) as [[d1|e] q1] eqn:E1; [|discriminate].
    intros E. rewrite (IH d1 q1 E), (validate_column_logs _ _ _ _ _ E1).
    now rewrite app_assoc.
Qed.

(** X2. After a run that returns, the logger has received, after what it
    held: the announcement with the number of rows of the input; then,
    for the iterations of stage 2 in the order of the schema, the error
    record of each conversion that failed, with the text of its
    exception, and nothing for the others; then the summary with the
    rows retained over the rows of the input; and then a warning for
    every entry of [errors], those of earlier runs on the instance
    included. *)
Theorem run_logs_start_failures_summary_warnings {ext : Externals}
  schema df p out p' :
  clean_and_validate schema df p = (Ok out, p') ->
  exists d1 p1,
    _handle_missing_values schema df (started df p) = (Ok d1, p1)
    /\ let failures :=
         flat_map conversion_failure (iterations validate_column schema d1 p1) in
       Forall (fun r => fst r = ERROR) failures
       /\ logged p'
          = logged p
            ++ (INFO, ("Starting pipeline with " ++ str_nat (len df) ++ " rows")%string)
            :: failures
            ++ (INFO, completed (len out) (len df))
            :: map (fun w => (WARNING, w)) (errors p').
Proof.
  rewrite clean_and_validate_exact.
  destruct (four_stages schema df (started df p)) as [[out'|e] q] eqn:E4;
    [|discriminate].
  intros H. injection H as -> <-. simpl.
  pose proof (proj1 (four_stages_ok schema) _ _ _ _ E4) as [_ [_ Ht]].
  simpl in Ht. rewrite Ht.
  apply four_stages_returns in E4.
  destruct E4 as (d1 & p1 & d2 & p2 & d3 & p3 & E1 & E2 & E3 & E4).
  exists d1, p1. split; [exact E1|]. split.
  - apply Forall_flat_map, Forall_forall. intros it _.
    apply conversion_failure_severity.
  - apply stage1_logged in E1. apply stage2_logs in E2.
    apply stage3_logged in E3. apply stage4_logged in E4.
    rewrite E4, E3, E2, E1. unfold started. simpl.
    rewrite <- !app_assoc. reflexivity.
Qed.

(** ** Entries against rows *)

Lemma accounts_intro a p b q new :
  len b <= len a ->
  errors q = errors p ++ new ->
  List.length new <= len a - len b ->
  (len b < len a -> new <> []) ->
  accounts a p b q.
Proof. intros. split; [assumption|]. exists new. auto. Qed.

Lemma accounts_quiet a p b q :
  len b = len a -> errors q = errors p -> accounts a p b q.
Proof.
  intros Hl He. apply (accounts_intro a p b q []).
  - lia.
  - now rewrite app_nil_r.
  - simpl. lia.
  - intros H. lia.
Qed.

Lemma accounts_entry a p b entry :
  len b < len a -> accounts a p b (with_error entry p).
Proof.
  intros Hl. apply (accounts_intro a p b _ [entry]); simpl; try lia;
    [reflexivity | discriminate].
Qed.

Lemma accounts_trans a p b q c r :
  accounts a p b q -> accounts b q c r -> accounts a p c r.
Proof.
  intros [L1 [n1 [E1 [B1 N1]]]] [L2 [n2 [E2 [B2 N2]]]].
  apply (accounts_intro a p c r (n1 ++ n2)).
  - lia.
  - now rewrite E2, E1, app_assoc.
  - rewrite length_app. lia.
  - intros Hlt Heq. apply app_eq_nil in Heq. destruct Heq as [-> ->].
    destruct (Nat.lt_ge_cases (len b) (len a)) as [H|H].
    + now apply N1.
    + apply N2; [lia | reflexivity].
Qed.

Lemma dropna_len i df :
  len (dropna i df) = len df - count_null (getitem i df).
Proof.
  rewrite count_null_rows. unfold len, dropna; simpl.
  pose proof (filter_length_split (fun r => isnull (cell i r)) (rows df)) as H.
  cbv beta in H. lia.
Qed.

Lemma setitem_len i s df : len (setitem i s df) = len df.
Proof. unfold len; simpl. apply set_cells_length. Qed.

Lemma count_null_le i df : count_null (getitem i df) <= len df.
Proof. rewrite count_null_rows. apply filter_length_le. Qed.

Lemma handle_missing_column_accounts item df p df' p' :
  handle_missing_column item df p = (Ok df', p') -> accounts df p df' p'.
Proof.
  destruct item as [column rules]. unfold handle_missing_column.
  destruct (column_index column df) as [i|].
  2:{ unfold_M; intros E; inv E. now apply accounts_quiet. }
  destruct (is_required rules).
  - destruct (0 <? count_null (getitem i df))%nat eqn:Ec; unfold_M;
      intros E; inv E.
    + apply Nat.ltb_lt in Ec. apply accounts_entry.
      rewrite dropna_len. pose proof (count_null_le i df). lia.
    + now apply accounts_quiet.
  - destruct (dtype_eqb _ _ || dtype_eqb _ _); unfold_M;
      destruct (fillna _ _) as [s|e]; intros E; inv E;
      (apply accounts_quiet; [apply setitem_len | reflexivity]).
Qed.

Lemma validate_column_accounts {ext : Externals} item df p df' p' :
  validate_column item df p = (Ok df', p') -> accounts df p df' p'.
Proof.
  destruct item as [column rules]. unfold validate_column.
  destruct (column_index column df) as [i|].
  2:{ unfold_M; intros E; inv E. now apply accounts_quiet. }
  destruct (rule_type rules) as [t|]; [|unfold_M; discriminate].
  destruct (coerce_cases t i df p) as [r [Er Hr]].
  unfold try_except, bind at 1. rewrite Er. destruct r as [df1|e].
  - assert (Hl : len df1 = len df)
      by (destruct Hr as [->|[s ->]]; [reflexivity | apply setitem_len]).
    destruct (0 <? count_null (getitem i df1))%nat eqn:Ec; unfold_M;
      intros E; inv E.
    + apply Nat.ltb_lt in Ec. apply accounts_entry.
      rewrite dropna_len. pose proof (count_null_le i df1). lia.
    + now apply accounts_quiet.
  - unfold_M. intros E; inv E. now apply accounts_quiet.
Qed.

Lemma constrain_column_accounts {ext : Externals} item df p df' p' :
  constrain_column item df p = (Ok df', p') -> accounts df p df' p'.
Proof.
  intros E.
  pose proof (constrain_column_returns _ _ _ _ _ E) as [S _].
  apply selection_shrinks in S. destruct S as [_ Hle].
  destruct item as [column rules]. unfold constrain_column in E.
  destruct (column_index column df) as [i|].
  2:{ unfold_M; inv E. now apply accounts_quiet. }
  unfold bind at 1 in E.
  pose proof (bound_filter_state GE (min_value rules) i df p) as H1.
  destruct (bound_filter GE (min_value rules) i df p) as [[d1|e] p1];
    simpl in H1; subst p1; [|discriminate].
  unfold bind at 1 in E.
  pose proof (bound_filter_state LE (max_value rules) i d1 p) as H2.
  destruct (bound_filter LE (max_value rules) i d1 p) as [[d2|e] p2];
    simpl in H2; subst p2; [|discriminate].
  unfold bind at 1 in E.
  pose proof (pattern_filter_state (pattern rules) i d2 p) as H3.
  destruct (pattern_filter (pattern rules) i d2 p) as [[d3|e] p3];
    simpl in H3; subst p3; [|discriminate].
  destruct (0 <? len df - len d3)%nat eqn:Ec; unfold_M; inv E.
  - apply Nat.ltb_lt in Ec. apply accounts_entry. lia.
  - apply Nat.ltb_ge in Ec. apply accounts_quiet; [lia | reflexivity].
Qed.

Lemma take_not_selected_length (m : list value -> option bool) rs :
  List.length (take_rows rs (map (fun r => mask_not (m r)) rs))
  + List.length (filter (fun r => selects (m r)) rs)
  <= List.length rs.
Proof.
  induction rs as [|r rs IH]; simpl; [lia|].
  destruct (m r) as [[|]|]; simpl; lia.
Qed.

Lemma remove_outliers_column_accounts schema column df p df' p' :
  remove_outliers_column schema column df p = (Ok df', p') ->
  accounts df p df' p'.
Proof.
  unfold remove_outliers_column.
  destruct (in_schema column schema).
  2:{ unfold_M; intros E; inv E. now apply accounts_quiet. }
  destruct (column_index column df) as [i|].
  2:{ unfold_M; intros E; inv E. now apply accounts_quiet. }
  unfold bind at 1, lift.
  destruct (outlier_mask _ _ _) as [mask|e] eqn:Em; [|discriminate].
  apply outlier_mask_ok in Em. destruct Em as [-> _].
  destruct (0 <? mask_sum _)%nat eqn:Ec; unfold_M; intros E; inv E.
  - apply Nat.ltb_lt in Ec. apply accounts_entry.
    unfold mask_sum in Ec. rewrite filter_map_length in Ec.
    unfold len; simpl. rewrite map_map.
    pose proof (take_not_selected_length
                  (fun r => outlier_cell (lower_bound (getitem i df))
                              (upper_bound (getitem i df)) (cell i r))
                  (rows df)) as H.
    cbv beta in H. lia.
  - now apply accounts_quiet.
Qed.

Lemma accounts_refl a p : accounts a p a p.
Proof. now apply accounts_quiet. Qed.

Lemma four_stages_accounts {ext : Externals} schema df p out q :
  four_stages schema df p = (Ok out, q) -> accounts df p out q.
Proof.
  intros E. apply four_stages_returns in E.
  destruct E as (d1 & p1 & d2 & p2 & d3 & p3 & E1 & E2 & E3 & E4).
  apply (for_each_returns handle_missing_column accounts) in E1;
    [| apply accounts_refl | apply accounts_trans
     | apply handle_missing_column_accounts].
  apply (for_each_returns validate_column accounts) in E2;
    [| apply accounts_refl | apply accounts_trans
     | apply validate_column_accounts].
  apply (for_each_returns constrain_column accounts) in E3;
    [| apply accounts_refl | apply accounts_trans
     | apply constrain_column_accounts].
  apply (for_each_returns (remove_outliers_column schema) accounts) in E4;
    [| apply accounts_refl | apply accounts_trans
     | apply remove_outliers_column_accounts].
  eauto using accounts_trans.
Qed.

(** X3. A run that returns never removes a row without saying so, and
    never says so without removing one: the entries it appends to
    [errors] are at most as many as the rows it removed, and there is at
    least one as soon as a row is removed.  So the output has as many
    rows as the input exactly when the run appended nothing, and a table
    without rows comes back without rows and without entries. *)
Theorem entries_account_for_removed_rows {ext : Externals}
  schema df p out p' :
  clean_and_validate schema df p = (Ok out, p') ->
  exists new,
    errors p' = errors p ++ new
    /\ len out <= len df
    /\ List.length new <= len df - len out
    /\ (new = [] <-> len out = len df).
Proof.
  rewrite clean_and_validate_exact.
  destruct (four_stages schema df (started df p)) as [[out'|e] q] eqn:E4;
    [|discriminate].
  intros H. injection H as -> <-. simpl.
  apply four_stages_accounts in E4.
  destruct E4 as [Hle [new [He [Hb Hn]]]]. exists new. simpl in He.
  repeat split; auto.
  - intros ->. destruct (Nat.lt_ge_cases (len out) (len df)) as [H|H]; [|lia].
    now elim (Hn H).
  - intros Heq. destruct new; [reflexivity | simpl in Hb; lia].
Qed.

(** ** What a run leaves alone *)

Lemma kept_rows_refl (Q : list value -> list value -> Prop) rs :
  (forall r, Q r r) -> kept_rows Q rs rs.
Proof.
  intros HQ. induction rs; [apply kept_nil | apply kept_keep; auto].
Qed.

Lemma kept_rows_filter (Q : list value -> list value -> Prop) f rs :
  (forall r, Q r r) -> kept_rows Q rs (filter f rs).
Proof.
  intros HQ. induction rs as [|r rs IH]; simpl; [apply kept_nil|].
  destruct (f r); [apply kept_keep; auto | apply kept_drop; auto].
Qed.

Lemma kept_rows_impl (Q Q' : list value -> list value -> Prop) rs rs' :
  (forall r r', Q r r' -> Q' r r') -> kept_rows Q rs rs' -> kept_rows Q' rs rs'.
Proof.
  intros HQ H.
  induction H; [apply kept_nil | apply kept_drop | apply kept_keep]; auto.
Qed.

Lemma kept_rows_trans (Q : list value -> list value -> Prop) a b c :
  (forall x y z, Q x y -> Q y z -> Q x z) ->
  kept_rows Q a b -> kept_rows Q b c -> kept_rows Q a c.
Proof.
  intros HQ H1. revert c. induction H1; intros c H2.
  - exact H2.
  - apply kept_drop. auto.
  - inversion H2; subst.
    + apply kept_drop. auto.
    + apply kept_keep; eauto.
Qed.

Lemma kept_rows_In (Q : list value -> list value -> Prop) rs rs' r' :
  kept_rows Q rs rs' -> In r' rs' -> exists r, In r rs /\ Q r r'.
Proof.
  intros H. induction H; simpl; intros Hin.
  - destruct Hin.
  - destruct (IHkept_rows Hin) as [x [Hx HQ]]. eauto.
  - destruct Hin as [<-|Hin]; [eauto|].
    destruct (IHkept_rows Hin) as [x [Hx HQ]]. eauto.
Qed.

Lemma kept_rows_length (Q : list value -> list value -> Prop) rs rs' :
  kept_rows Q rs rs' -> List.length rs' <= List.length rs.
Proof. intros H. induction H; simpl; lia. Qed.

Lemma same_outside_refl (S : nat -> Prop) r : same_outside S r r.
Proof. intros k _. reflexivity. Qed.

Lemma same_outside_trans (S : nat -> Prop) x y z :
  same_outside S x y -> same_outside S y z -> same_outside S x z.
Proof. intros H1 H2 k Hk. rewrite (H2 k Hk). apply H1, Hk. Qed.

Lemma kept_rows_set_cells (S : nat -> Prop) i rs vs :
  S i -> kept_rows (same_outside S) rs (set_cells i rs vs).
Proof.
  intros Hi. revert vs. induction rs as [|r rs IH]; intros vs; simpl.
  - apply kept_nil.
  - destruct vs as [|v vs].
    + apply kept_rows_refl, same_outside_refl.
    + apply kept_keep; [|apply IH].
      intros k Hk. unfold cell. apply nth_set_nth_other.
      intros ->. now apply Hk.
Qed.

Lemma preserves_outside_refl S a : preserves_outside S a a.
Proof.
  repeat split; auto. apply kept_rows_refl, same_outside_refl.
Qed.

Lemma preserves_outside_trans S a b c :
  preserves_outside S a b -> preserves_outside S b c -> preserves_outside S a c.
Proof.
  intros (N1 & D1 & K1) (N2 & D2 & K2). repeat split.
  - congruence.
  - intros k Hk. rewrite D2, D1; auto.
  - eapply kept_rows_trans; [apply same_outside_trans | exact K1 | exact K2].
Qed.

Lemma preserves_outside_impl (S S' : nat -> Prop) a b :
  (forall k, S k -> S' k) -> preserves_outside S a b -> preserves_outside S' a b.
Proof.
  intros HS (N & D & K). repeat split; auto.
  eapply kept_rows_impl; [|exact K]. intros r r' H k Hk. apply H. auto.
Qed.

Lemma selection_preserves_outside S a b :
  selection a b -> preserves_outside S a b.
Proof.
  intros [Hc [f Hf]]. repeat split.
  - now rewrite Hc.
  - intros k _. unfold dtype_at. now rewrite Hc.
  - rewrite Hf. apply kept_rows_filter, same_outside_refl.
Qed.

Lemma setitem_preserves_outside (S : nat -> Prop) i s df :
  S i -> preserves_outside S df (setitem i s df).
Proof.
  intros Hi. repeat split.
  - apply set_dtype_names.
  - intros k Hk. unfold dtype_at, setitem; simpl. apply dtype_at_set_other.
    intros ->. now apply Hk.
  - apply kept_rows_set_cells, Hi.
Qed.

Lemma handle_missing_column_preserves (S : nat -> Prop) item df p df' p' :
  (forall i, column_index (fst item) df = Some i -> S i) ->
  handle_missing_column item df p = (Ok df', p') ->
  preserves_outside S df df'.
Proof.
  destruct item as [column rules]. unfold handle_missing_column. simpl fst.
  destruct (column_index column df) as [i|].
  2:{ unfold_M; intros _ E; inv E. apply preserves_outside_refl. }
  intros HS. specialize (HS i eq_refl).
  destruct (is_required rules).
  - destruct (0 <? count_null (getitem i df))%nat; unfold_M; intros E; inv E.
    + apply selection_preserves_outside, dropna_selection.
    + apply preserves_outside_refl.
  - destruct (dtype_eqb _ _ || dtype_eqb _ _); unfold_M;
      destruct (fillna _ _) as [s|e]; intros E; inv E;
      now apply setitem_preserves_outside.
Qed.

Lemma validate_column_preserves {ext : Externals} (S : nat -> Prop)
  item df p df' p' :
  (forall i, column_index (fst item) df = Some i -> S i) ->
  validate_column item df p = (Ok df', p') ->
  preserves_outside S df df'.
Proof.
  destruct item as [column rules]. unfold validate_column. simpl fst.
  destruct (column_index column df) as [i|].
  2:{ unfold_M; intros _ E; inv E. apply preserves_outside_refl. }
  intros HS. specialize (HS i eq_refl).
  destruct (rule_type rules) as [t|]; [|unfold_M; discriminate].
  destruct (coerce_cases t i df p) as [r [Er Hr]].
  unfold try_except, bind at 1. rewrite Er. destruct r as [df1|e].
  - assert (H1 : preserves_outside S df df1).
    { destruct Hr as [->|[s ->]];
        [apply preserves_outside_refl | now apply setitem_preserves_outside]. }
    destruct (0 <? count_null (getitem i df1))%nat; unfold_M; intros E; inv E.
    + eapply preserves_outside_trans; [exact H1|].
      apply selection_preserves_outside, dropna_selection.
    + exact H1.
  - unfold_M. intros E; inv E. apply preserves_outside_refl.
Qed.

Lemma schema_position_names schema a b k :
  map fst (columns b) = map fst (columns a) ->
  schema_position schema b k -> schema_position schema a k.
Proof.
  intros N [column [Hs Hk]]. exists column. split; [exact Hs|].
  now rewrite <- (column_index_names a b column N).
Qed.

Lemma in_schema_In (item : string * ColumnRule) schema :
  In item schema -> in_schema (fst item) schema = true.
Proof.
  intros Hin. unfold in_schema. apply existsb_exists. exists (fst item).
  split; [now apply in_map | apply String.eqb_refl].
Qed.

(** A loop whose iterations keep the positions of the schema's columns:
    what each iteration guarantees for the entry it is at, relative to
    the frame it receives, the loop guarantees relative to its input. *)
Lemma for_each_preserves_outside (body : string * ColumnRule -> DataFrame -> M DataFrame)
  schema items :
  (forall item df p df' p',
     In item items -> body item df p = (Ok df', p') ->
     preserves_outside (schema_position schema df) df df') ->
  forall df p df' p',
    for_each body items df p = (Ok df', p') ->
    preserves_outside (schema_position schema df) df df'.
Proof.
  induction items as [|k items IH]; intros Hbody df p df' p'; simpl.
  - unfold ret; intros E; inv E. apply preserves_outside_refl.
  - unfold bind. destruct (body k df p) as [[d1|e] p1] eqn:E1; [|discriminate].
    intros E. pose proof (Hbody k df p d1 p1 (or_introl eq_refl) E1) as H1.
    eapply preserves_outside_trans; [exact H1|].
    apply (preserves_outside_impl (schema_position schema d1)).
    + intros j. apply schema_position_names, H1.
    + apply (IH (fun item d q d' q' Hin => Hbody item d q d' q' (or_intror Hin))
               d1 p1 df' p' E).
Qed.

Lemma four_stages_preserves {ext : Externals} schema df p out q :
  four_stages schema df p = (Ok out, q) ->
  preserves_outside (schema_position schema df) df out.
Proof.
  intros E. apply four_stages_returns in E.
  destruct E as (d1 & p1 & d2 & p2 & d3 & p3 & E1 & E2 & E3 & E4).
  apply (for_each_preserves_outside handle_missing_column schema) in E1.
  2:{ intros item d r d' r' Hin. apply handle_missing_column_preserves.
      intros i Hi. exists (fst item). split; [now apply in_schema_In | exact Hi]. }
  apply (for_each_preserves_outside validate_column schema) in E2.
  2:{ intros item d r d' r' Hin. apply validate_column_preserves.
      intros i Hi. exists (fst item). split; [now apply in_schema_In | exact Hi]. }
  apply stage3_selection in E3. apply stage4_selection in E4.
  eapply preserves_outside_trans; [exact E1|].
  apply (preserves_outside_impl (schema_position schema d1));
    [intros j; apply schema_position_names, E1|].
  eapply preserves_outside_trans; [exact E2|].
  apply selection_preserves_outside.
  eapply selection_trans; eassumption.
Qed.

(** X4. A run that returns leaves alone every column that the schema
    does not name: the output has the column names of the input in the
    same order; a column that is not looked up under a schema key keeps
    its dtype, and in every row that is kept its cell; and the rows kept
    are in the order of the input. *)
Theorem columns_outside_schema_untouched {ext : Externals}
  schema df p out p' :
  clean_and_validate schema df p = (Ok out, p') ->
  preserves_outside (schema_position schema df) df out.
Proof.
  rewrite clean_and_validate_exact.
  destruct (four_stages schema df (started df p)) as [[out'|e] q] eqn:E4;
    [|discriminate].
  intros H. injection H as -> <-.
  eapply four_stages_preserves; eassumption.
Qed.

(** ** What the output of a run satisfies *)

(** X5. In the output of a run that returns, every value of a schema
    column passes the entry's filters: it is at least [min_value], at
    most [max_value], and, when the column is of text, its text matches
    [pattern] from the start.  The removal of outliers afterwards only
    selects rows, so what stage 3 has established still holds. *)
Theorem output_satisfies_constraints {ext : Externals} schema df p out p' :
  clean_and_validate schema df p = (Ok out, p') ->
  forall item, In item schema -> constrained item out.
Proof.
  rewrite clean_and_validate_exact.
  destruct (four_stages schema df (started df p)) as [[out'|e] q] eqn:E;
    [|discriminate].
  intros H. injection H as -> <-.
  apply four_stages_returns in E.
  destruct E as (d1 & p1 & d2 & p2 & d3 & p3 & E1 & E2 & E3 & E4).
  intros item Hin.
  apply (constrained_selection item d3 out (stage4_selection _ _ _ _ _ E4)).
  apply (stage3_constrained schema d2 p2 d3 p3 E3 item Hin).
Qed.

(** X6. Take a schema with distinct keys and a run that returns with
    nothing at error severity in the logger.  Then every schema column
    of the output holds no missing value and has the dtype the
    conversion of stage 2 produces for the entry's type: datetime64 under
    the tag "datetime", the nullable integer dtype under [int], a numeric
    dtype under [float]. *)
Theorem quiet_run_output_is_typed {ext : Externals} schema df p out p' :
  NoDup (map fst schema) ->
  clean_and_validate schema df p = (Ok out, p') ->
  quiet p' ->
  forall item, In item schema -> typed item out.
Proof.
  intros ND. rewrite clean_and_validate_exact.
  destruct (four_stages schema df (started df p)) as [[out'|e] q] eqn:E;
    [|discriminate].
  intros H Hquiet. injection H as -> <-.
  assert (Hq : quiet q) by (eapply quiet_prefix; [|exact Hquiet]; reflexivity).
  apply four_stages_returns in E.
  destruct E as (d1 & p1 & d2 & p2 & d3 & p3 & E1 & E2 & E3 & E4).
  assert (Hq2 : quiet p2).
  { intros x Hx. apply Hq.
    rewrite (stage4_logged _ _ _ _ _ E4), (stage3_logged _ _ _ _ _ E3). exact Hx. }
  destruct (stage2_typed schema d1 p1 d2 p2 ND E2 Hq2) as [_ Htyped].
  intros item Hin.
  apply (typed_selection item d3 out (stage4_selection _ _ _ _ _ E4)).
  apply (typed_selection item d2 d3 (stage3_selection _ _ _ _ _ E3)).
  apply Htyped, Hin.
Qed.

Lemma preserves_outside_cells (S : nat -> Prop) a b i :
  ~ S i -> preserves_outside S a b ->
  (forall r, In r (rows a) -> isnull (cell i r) = false) ->
  forall r, In r (rows b) -> isnull (cell i r) = false.
Proof.
  intros Hi (_ & _ & K) H r' Hr'.
  destruct (kept_rows_In _ _ _ _ K Hr') as [r [Hr HQ]].
  rewrite (HQ i Hi). apply H, Hr.
Qed.

Lemma dropna_no_null i df r :
  In r (rows (dropna i df)) -> isnull (cell i r) = false.
Proof.
  simpl. intros H. apply filter_In in H. destruct H as [_ H].
  now apply negb_true_iff in H.
Qed.

Lemma count_null_zero_inv i df :
  count_null (getitem i df) = 0 ->
  forall r, In r (rows df) -> isnull (cell i r) = false.
Proof.
  rewrite count_null_rows. intros H r Hr.
  destruct (isnull (cell i r)) eqn:E; [|reflexivity].
  assert (Hin : In r (filter (fun r => isnull (cell i r)) (rows df)))
    by (apply filter_In; auto).
  destruct (filter _ (rows df)); [destruct Hin | discriminate].
Qed.

Lemma required_present_selection item a b :
  selection a b -> required_present item a -> required_present item b.
Proof.
  intros S H Hreq i Hi r Hr. rewrite (selection_column_index _ _ _ S) in Hi.
  apply (H Hreq i Hi). apply (selection_incl _ _ S), Hr.
Qed.

Lemma handle_missing_column_required item df p df' p' :
  handle_missing_column item df p = (Ok df', p') -> required_present item df'.
Proof.
  destruct item as [column rules]. unfold handle_missing_column, required_present.
  simpl fst; simpl snd.
  destruct (column_index column df) as [i|] eqn:Hi.
  2:{ unfold_M; intros E; inv E. congruence. }
  destruct (is_required rules).
  - destruct (0 <? count_null (getitem i df))%nat eqn:Ec; unfold_M;
      intros E; inv E; intros _ j Hj r Hr.
    + rewrite (selection_column_index _ _ _ (dropna_selection i df)) in Hj.
      assert (j = i) by congruence. subst j. eapply dropna_no_null, Hr.
    + assert (j = i) by congruence. subst j.
      apply Nat.ltb_ge in Ec. apply (count_null_zero_inv i df'); [lia | exact Hr].
  - intros _ Hfalse. discriminate.
Qed.

Lemma required_present_other (item : string * ColumnRule) j a b :
  (forall i, column_index (fst item) a = Some i -> i <> j) ->
  preserves_outside (fun k => k = j) a b ->
  required_present item a -> required_present item b.
Proof.
  intros Hne Hp H Hreq i Hi.
  rewrite (column_index_names a b) in Hi by apply Hp.
  apply (preserves_outside_cells (fun k => k = j) a b i); auto.
Qed.

Lemma stage1_required schema df p df' p' :
  NoDup (map fst schema) ->
  _handle_missing_values schema df p = (Ok df', p') ->
  forall item, In item schema -> required_present item df'.
Proof.
  intros ND E.
  refine (proj2 (for_each_establishes fst handle_missing_column required_present
                   (fun _ => True) _ _ schema ND df p df' p' E I)).
  - intros k d q d' q' E' _. split; [exact I|].
    eapply handle_missing_column_required; eassumption.
  - intros k k' d q d' q' Hkey E' HP.
    destruct (column_index (fst k') d) as [j|] eqn:Hj.
    + apply (required_present_other k j d d'); auto.
      * intros i Hi ->. apply Hkey. eapply column_index_inj; eassumption.
      * eapply handle_missing_column_preserves; [|exact E'].
        intros i Hi. congruence.
    + destruct k' as [column' rules']. unfold handle_missing_column in E'.
      simpl in Hj. rewrite Hj in E'. unfold ret in E'. inv E'. exact HP.
Qed.

Lemma validate_column_own {ext : Externals} column rules df p df' p' i :
  column_index column df = Some i ->
  validate_column (column, rules) df p = (Ok df', p') ->
  df' = df \/ forall r, In r (rows df') -> isnull (cell i r) = false.
Proof.
  intros Hi. unfold validate_column. rewrite Hi.
  destruct (rule_type rules) as [t|]; [|unfold_M; discriminate].
  destruct (coerce_cases t i df p) as [r [Er Hr]].
  unfold try_except, bind at 1. rewrite Er. destruct r as [df1|e].
  - destruct (0 <? count_null (getitem i df1))%nat eqn:Ec; unfold_M;
      intros E; inv E; right; intros r Hr'.
    + eapply dropna_no_null, Hr'.
    + apply Nat.ltb_ge in Ec. apply (count_null_zero_inv i df'); [lia | exact Hr'].
  - unfold_M. intros E; inv E. now left.
Qed.

Lemma validate_column_required {ext : Externals} item item' df p df' p' :
  validate_column item' df p = (Ok df', p') ->
  required_present item df -> required_present item df'.
Proof.
  intros E HP.
  destruct (column_index (fst item') df) as [j|] eqn:Hj.
  2:{ destruct item' as [column' rules']. unfold validate_column in E.
      simpl in Hj. rewrite Hj in E. unfold ret in E. inv E. exact HP. }
  assert (Hp : preserves_outside (fun k => k = j) df df').
  { eapply validate_column_preserves; [|exact E]. intros i Hi. congruence. }
  destruct (column_index (fst item) df) as [i|] eqn:Hi.
  2:{ apply (required_present_other item j df df'); auto. congruence. }
  destruct (Nat.eq_dec i j) as [->|Hne].
  2:{ apply (required_present_other item j df df'); auto. congruence. }
  destruct item' as [column' rules']. simpl in Hj.
  destruct (validate_column_own column' rules' df p df' p' j Hj E) as [->|Hnn];
    [exact HP|].
  intros _ k Hk. rewrite (column_index_names df df') in Hk by apply Hp.
  assert (k = j) by congruence. subst k. exact Hnn.
Qed.

Lemma stage2_required {ext : Externals} schema item df p df' p' :
  _validate_data_types schema df p = (Ok df', p') ->
  required_present item df -> required_present item df'.
Proof.
  unfold _validate_data_types. intros E.
  refine (for_each_returns validate_column
            (fun a _ b _ => required_present item a -> required_present item b)
            _ _ _ schema df p df' p' E).
  - auto.
  - intros a _ b _ c _ H1 H2 H. auto.
  - intros k d q d' q'. apply validate_column_required.
Qed.

(** X7. Take a schema with distinct keys.  In the output of a run that
    returns, no column of a required entry holds a missing value,
    whether or not a conversion failed on the way: stage 1 drops the rows
    where one is missing, an iteration of stage 2 on the column leaves
    it as it is or without missing value, and every other step leaves
    the cells of the rows it keeps. *)
Theorem required_columns_have_no_missing_value {ext : Externals}
  schema df p out p' :
  NoDup (map fst schema) ->
  clean_and_validate schema df p = (Ok out, p') ->
  forall column rules i r,
    In (column, rules) schema ->
    required rules = Some true ->
    column_index column out = Some i ->
    In r (rows out) ->
    isnull (cell i r) = false.
Proof.
  intros ND. rewrite clean_and_validate_exact.
  destruct (four_stages schema df (started df p)) as [[out'|e] q] eqn:E;
    [|discriminate].
  intros H. injection H as -> <-.
  apply four_stages_returns in E.
  destruct E as (d1 & p1 & d2 & p2 & d3 & p3 & E1 & E2 & E3 & E4).
  intros column rules i r Hin Hreq Hi Hr.
  pose proof (stage1_required schema _ _ _ _ ND E1 (column, rules) Hin) as H1.
  apply (stage2_required schema _ _ _ _ _ E2) in H1.
  apply (required_present_selection _ _ _ (stage3_selection _ _ _ _ _ E3)) in H1.
  apply (required_present_selection _ _ _ (stage4_selection _ _ _ _ _ E4)) in H1.
  apply (H1 ltac:(unfold is_required; simpl; now rewrite Hreq) i Hi r Hr).
Qed.

(** ** Stage 3 inside a run *)

Lemma set_dtype_length i d cols :
  List.length (set_dtype i d cols) = List.length cols.
Proof.
  revert i; induction cols as [|[c d'] cols IH]; intros [|i]; simpl; auto.
Qed.

Lemma fill_rows_rectangular i fill df cols :
  List.length cols = List.length (columns df) ->
  rectangular df ->
  rectangular
    (mkFrame cols
       (map (fun r => if isnull (cell i r) then set_nth i fill r else r) (rows df))).
Proof.
  intros Hc H r' Hr'. simpl in *. apply in_map_iff in Hr'.
  destruct Hr' as [r [<- Hr]]. rewrite Hc.
  destruct (isnull (cell i r)); [rewrite set_nth_length|]; apply H, Hr.
Qed.

Lemma filled_columns_length i df :
  List.length (filled_columns i df) = List.length (columns df).
Proof.
  unfold filled_columns. destruct (fill_value i df); try reflexivity.
  destruct (Nat.eqb _ _); [reflexivity | apply set_dtype_length].
Qed.

Lemma filled_columns_names i df :
  map fst (filled_columns i df) = map fst (columns df).
Proof.
  unfold filled_columns. destruct (fill_value i df); try reflexivity.
  destruct (Nat.eqb _ _); [reflexivity | apply set_dtype_names].
Qed.

(** A numeric fill leaves the dtype of the column. *)
Lemma filled_columns_numeric i df :
  dtype_eqb (dtype_at i df) int64 || dtype_eqb (dtype_at i df) float64 = true ->
  filled_columns i df = columns df.
Proof. intros H. unfold filled_columns, fill_value. now rewrite H. Qed.

Lemma handle_missing_column_rectangular item df p df' p' :
  rectangular df ->
  handle_missing_column item df p = (Ok df', p') ->
  rectangular df'.
Proof.
  destruct item as [column rules]. intros Hrect E.
  destruct (column_index column df) as [i|] eqn:Hi.
  2:{ unfold handle_missing_column in E. rewrite Hi in E. unfold ret in E.
      inv E. exact Hrect. }
  destruct (is_required rules) eqn:Hreq.
  - unfold handle_missing_column in E. rewrite Hi, Hreq in E.
    destruct (0 <? count_null (getitem i df))%nat; unfold_M; inv E;
      [|exact Hrect].
    intros r Hr. simpl in *. apply filter_In in Hr. apply Hrect, Hr.
  - destruct (refused_fill i df) eqn:Href.
    + destruct (handle_missing_refused column rules df p i Hi Hreq Href) as [t Et].
      congruence.
    + rewrite (handle_missing_optional column rules df p i Hi Hreq Href) in E.
      inv E. apply fill_rows_rectangular; [apply filled_columns_length | exact Hrect].
Qed.

(** What an iteration of stage 1 leaves in a text column of its own. *)
Lemma handle_missing_column_text_filled item df p df' p' :
  rectangular df ->
  handle_missing_column item df p = (Ok df', p') ->
  text_filled item df'.
Proof.
  destruct item as [column rules]. intros Hrect E j Hj Hobj r' Hr'. simpl in Hj.
  destruct (column_index column df) as [i|] eqn:Hi.
  2:{ unfold handle_missing_column in E. rewrite Hi in E. unfold ret in E.
      inv E. congruence. }
  destruct (is_required rules) eqn:Hreq.
  - unfold handle_missing_column in E. rewrite Hi, Hreq in E.
    destruct (0 <? count_null (getitem i df))%nat eqn:Ec; unfold_M; inv E.
    + rewrite (selection_column_index _ _ _ (dropna_selection i df)) in Hj.
      assert (j = i) by congruence. subst j. eapply dropna_no_null, Hr'.
    + assert (j = i) by congruence. subst j. apply Nat.ltb_ge in Ec.
      apply (count_null_zero_inv i df'); [lia | exact Hr'].
  - destruct (refused_fill i df) eqn:Href.
    + destruct (handle_missing_refused column rules df p i Hi Hreq Href) as [t Et].
      congruence.
    + rewrite (handle_missing_optional column rules df p i Hi Hreq Href) in E.
      inv E. unfold column_index in Hj. simpl in Hj, Hobj, Hr'.
      rewrite filled_columns_names in Hj. fold (column_index column df) in Hj.
      assert (j = i) by congruence. subst j.
      apply in_map_iff in Hr'. destruct Hr' as [r [<- Hr]].
      destruct (isnull (cell i r)) eqn:Hnull; [|exact Hnull].
      unfold cell. rewrite nth_set_nth_same.
      * unfold fill_value.
        destruct (dtype_eqb (dtype_at i df) int64
                  || dtype_eqb (dtype_at i df) float64) eqn:Hnum; [|reflexivity].
        unfold dtype_at in Hobj. simpl in Hobj.
        rewrite (filled_columns_numeric i df Hnum) in Hobj.
        fold (dtype_at i df) in Hobj. rewrite Hobj in Hnum. discriminate.
      * rewrite (Hrect r Hr). eapply column_index_lt, Hi.
Qed.

Lemma text_filled_other (item : string * ColumnRule) j a b :
  (forall i, column_index (fst item) a = Some i -> i <> j) ->
  preserves_outside (fun k => k = j) a b ->
  text_filled item a -> text_filled item b.
Proof.
  intros Hne Hp H i Hi Hobj.
  rewrite (column_index_names a b) in Hi by apply Hp.
  assert (Hij : ~ (fun k => k = j) i) by (apply (Hne i Hi)).
  destruct Hp as (Hn & Hd & Hk).
  rewrite (Hd i Hij) in Hobj.
  apply (preserves_outside_cells (fun k => k = j) a b i Hij);
    [repeat split; assumption | apply (H i Hi Hobj)].
Qed.

Lemma text_filled_selection item a b :
  selection a b -> text_filled item a -> text_filled item b.
Proof.
  intros S H i Hi Hobj r Hr. rewrite (selection_column_index _ _ _ S) in Hi.
  unfold dtype_at in Hobj. rewrite (proj1 S) in Hobj.
  apply (H i Hi Hobj). apply (selection_incl _ _ S), Hr.
Qed.

(** A loop over entries with distinct keys whose iterations keep a
    condition on the frame: what an iteration establishes for its own
    key under the condition, and the others preserve, holds for every
    key when the loop returns. *)
Lemma for_each_preserves_under {K} (key : K -> string)
  (body : K -> DataFrame -> M DataFrame) (Inv : DataFrame -> Prop)
  (Q : DataFrame -> Prop) (name : string) :
  (forall k df p df' p', Inv df -> body k df p = (Ok df', p') -> Inv df') ->
  (forall k' df p df' p',
     name <> key k' -> Inv df -> body k' df p = (Ok df', p') -> Q df -> Q df') ->
  forall items, ~ In name (map key items) ->
  forall df p df' p',
    Inv df -> for_each body items df p = (Ok df', p') -> Q df -> Q df'.
Proof.
  intros Hinv Hpres items.
  induction items as [|k1 items IH]; intros Hnotin df p df' p' HI; simpl.
  - unfold ret; intros E; inv E; auto.
  - unfold bind. destruct (body k1 df p) as [[d2|e] p2] eqn:E2; [|discriminate].
    intros E HQ.
    apply (IH (fun H => Hnotin (or_intror H)) d2 p2 df' p'
              (Hinv _ _ _ _ _ HI E2) E).
    apply (Hpres k1 df p d2 p2); auto.
    intros Heq. apply Hnotin. left. now symmetry.
Qed.

Lemma for_each_establishes_under {K} (key : K -> string)
  (body : K -> DataFrame -> M DataFrame)
  (P : K -> DataFrame -> Prop) (Inv : DataFrame -> Prop) :
  (forall k df p df' p', Inv df -> body k df p = (Ok df', p') -> Inv df') ->
  (forall k df p df' p', Inv df -> body k df p = (Ok df', p') -> P k df') ->
  (forall k k' df p df' p',
     key k <> key k' -> Inv df -> body k' df p = (Ok df', p') ->
     P k df -> P k df') ->
  forall items, NoDup (map key items) ->
  forall df p df' p',
    Inv df -> for_each body items df p = (Ok df', p') ->
    forall k, In k items -> P k df'.
Proof.
  intros Hinv Hest Hpres items.
  induction items as [|k0 items IH]; intros ND df p df' p' HI; simpl.
  - tauto.
  - inversion ND as [|? ? Hnotin ND']; subst.
    unfold bind. destruct (body k0 df p) as [[d1|e] p1] eqn:E1; [|discriminate].
    intros E k [<-|Hk].
    + apply (for_each_preserves_under key body Inv (P k0) (key k0) Hinv
               (Hpres k0) items Hnotin d1 p1 df' p'
               (Hinv _ _ _ _ _ HI E1) E).
      eapply Hest; eassumption.
    + apply (IH ND' d1 p1 df' p' (Hinv _ _ _ _ _ HI E1) E k Hk).
Qed.

Lemma stage1_text_filled schema df p df' p' :
  NoDup (map fst schema) ->
  rectangular df ->
  _handle_missing_values schema df p = (Ok df', p') ->
  forall item, In item schema -> text_filled item df'.
Proof.
  intros ND Hrect E.
  apply (for_each_establishes_under fst handle_missing_column text_filled
           rectangular) with (items := schema) (df := df) (p := p) (p' := p');
    auto.
  - intros k d q d' q'. apply handle_missing_column_rectangular.
  - intros k d q d' q'. apply handle_missing_column_text_filled.
  - intros k k' d q d' q' Hkey _ E' HP.
    destruct (column_index (fst k') d) as [j|] eqn:Hj.
    + apply (text_filled_other k j d d'); auto.
      * intros i Hi ->. apply Hkey. eapply column_index_inj; eassumption.
      * eapply handle_missing_column_preserves; [|exact E'].
        intros i Hi. congruence.
    + destruct k' as [column' rules']. unfold handle_missing_column in E'.
      simpl in Hj. rewrite Hj in E'. unfold ret in E'. inv E'. exact HP.
Qed.

Lemma validate_column_text_filled {ext : Externals} item item' df p df' p' :
  validate_column item' df p = (Ok df', p') ->
  text_filled item df -> text_filled item df'.
Proof.
  intros E HP.
  destruct (column_index (fst item') df) as [j|] eqn:Hj.
  2:{ destruct item' as [column' rules']. unfold validate_column in E.
      simpl in Hj. rewrite Hj in E. unfold ret in E. inv E. exact HP. }
  assert (Hp : preserves_outside (fun k => k = j) df df').
  { eapply validate_column_preserves; [|exact E]. intros i Hi. congruence. }
  destruct (column_index (fst item) df) as [i|] eqn:Hi.
  2:{ apply (text_filled_other item j df df'); auto. congruence. }
  destruct (Nat.eq_dec i j) as [->|Hne].
  2:{ apply (text_filled_other item j df df'); auto. congruence. }
  destruct item' as [column' rules']. simpl in Hj.
  destruct (validate_column_own column' rules' df p df' p' j Hj E) as [->|Hnn];
    [exact HP|].
  intros k Hk _. rewrite (column_index_names df df') in Hk by apply Hp.
  assert (k = j) by congruence. subst k. exact Hnn.
Qed.

Lemma stage2_text_filled {ext : Externals} schema item df p df' p' :
  _validate_data_types schema df p = (Ok df', p') ->
  text_filled item df -> text_filled item df'.
Proof.
  unfold _validate_data_types. intros E.
  refine (for_each_returns validate_column
            (fun a _ b _ => text_filled item a -> text_filled item b)
            _ _ _ schema df p df' p' E).
  - auto.
  - intros a _ b _ c _ H1 H2 H. auto.
  - intros k d q d' q'. apply validate_column_text_filled.
Qed.

Lemma filter_true {A} (l : list A) : filter (fun _ => true) l = l.
Proof. induction l; simpl; congruence. Qed.

Lemma bound_filter_result op bound i df p df' p' :
  bound_filter op bound i df p = (Ok df', p') ->
  df' = mkFrame (columns df) (filter (passes_bound op bound i) (rows df))
  /\ p' = p.
Proof.
  intros E. pose proof (bound_filter_returns _ _ _ _ _ _ _ E) as [-> [Hc _]].
  split; [|reflexivity]. destruct bound as [b|].
  - pose proof (bound_filter_rows _ _ _ _ _ _ _ E) as Hr.
    destruct df' as [c r]. simpl in *. now subst.
  - unfold bound_filter, ret in E. inv E. unfold passes_bound.
    rewrite filter_true. now destruct df'.
Qed.

Lemma pattern_filter_result {ext : Externals} pat i df p df' p' :
  pattern_filter pat i df p = (Ok df', p') ->
  df' = mkFrame (columns df)
          (filter (matches_pattern pat (dtype_at i df) i) (rows df))
  /\ p' = p.
Proof.
  unfold pattern_filter, matches_pattern. destruct pat as [pt|].
  - destruct (dtype_eqb (dtype_at i df) object).
    + destruct (re_compile pt) as [compiled|]; [|discriminate].
      unfold ret. intros E; inv E. split; [|reflexivity].
      unfold boolean_index, str_match. simpl. rewrite map_map.
      rewrite (take_rows_map (fun r => Some (compiled (astype_str (cell i r))))).
      f_equal. apply filter_ext. intros r.
      destruct (compiled (astype_str (cell i r))); reflexivity.
    + unfold ret. intros E; inv E. rewrite filter_true. now destruct df'.
  - unfold ret. intros E; inv E. rewrite filter_true. now destruct df'.
Qed.

(** C8. In a run, when the loop of stage 3 reaches a column of the
    table and the iteration returns: the rows kept are those that pass
    the [min_value] filter (value >= bound), then the [max_value] filter
    (value <= bound), then, on a column of dtype object only, the
    pattern filter (the text of the value matches from the start), in
    that order; and when the three filters together removed [n > 0]
    rows, the one entry "Removed n rows failing column constraints" is
    appended.  A missing value never matches: stages 1 and 2 have
    filled or dropped every missing value of a text column of the
    schema, so none reaches the pattern filter, and no row kept holds
    one.  (The table given to the run has a cell in every row for every
    column, and the keys of the schema, a dict, are distinct.) *)
Theorem constraint_filters_apply_in_order {ext : Externals}
  schema pre column rules post df0 p0 d1 p1 d2 p2 df p i out p' :
  NoDup (map fst schema) ->
  rectangular df0 ->
  schema = pre ++ (column, rules) :: post ->
  _handle_missing_values schema df0 p0 = (Ok d1, p1) ->
  _validate_data_types schema d1 p1 = (Ok d2, p2) ->
  _apply_constraints pre d2 p2 = (Ok df, p) ->
  column_index column df = Some i ->
  constrain_column (column, rules) df p = (Ok out, p') ->
  let after_min := filter (passes_bound GE (min_value rules) i) (rows df) in
  let after_max := filter (passes_bound LE (max_value rules) i) after_min in
  let after_pattern :=
    filter (matches_pattern (pattern rules) (dtype_at i df) i) after_max in
  let n := len df - List.length after_pattern in
  out = mkFrame (columns df) after_pattern
  /\ p' = (if (0 <? n)%nat
           then with_error ("Removed " ++ str_nat n ++ " rows failing "
                            ++ column ++ " constraints") p
           else p)
  /\ (dtype_at i df = object ->
      forall r, In r (rows df) -> isnull (cell i r) = false)
  /\ (pattern rules <> None -> dtype_at i df = object ->
      forall r, In r (rows df) -> isnull (cell i r) = true ->
                ~ In r (rows out))
  /\ (pattern rules <> None -> dtype_at i df = object ->
      forall r, In r (rows out) -> isnull (cell i r) = false).
Proof.
  intros ND Hrect Hschema E1 E2 E3 Hi E after_min after_max after_pattern n.
  assert (Hin : In (column, rules) schema)
    by (rewrite Hschema; apply in_or_app; right; now left).
  assert (Hfilled : text_filled (column, rules) df).
  { apply (text_filled_selection _ d2 df (stage3_selection _ _ _ _ _ E3)).
    apply (stage2_text_filled schema _ _ _ _ _ E2).
    apply (stage1_text_filled schema df0 p0 d1 p1 ND Hrect E1 _ Hin). }
  assert (Hclean : dtype_at i df = object ->
                   forall r, In r (rows df) -> isnull (cell i r) = false)
    by (intros Hobj; apply (Hfilled i Hi Hobj)).
  unfold constrain_column in E. rewrite Hi in E. unfold bind at 1 in E.
  destruct (bound_filter GE (min_value rules) i df p) as [[a|e] q1] eqn:B1;
    [|discriminate].
  apply bound_filter_result in B1. destruct B1 as [-> ->].
  unfold bind at 1 in E.
  destruct (bound_filter LE (max_value rules) i _ p) as [[b|e] q2] eqn:B2;
    [|discriminate].
  apply bound_filter_result in B2. destruct B2 as [-> ->].
  unfold bind at 1 in E.
  destruct (pattern_filter (pattern rules) i _ p) as [[c|e] q3] eqn:B3;
    [|discriminate].
  apply pattern_filter_result in B3. destruct B3 as [-> ->].
  cbn [columns rows] in E.
  change (dtype_at i {| columns := columns df; rows := _ |})
    with (dtype_at i df) in E.
  fold after_min in E. fold after_max in E. fold after_pattern in E.
  assert (Hout : out = mkFrame (columns df) after_pattern
                 /\ p' = (if (0 <? n)%nat
                          then with_error ("Removed " ++ str_nat n ++ " rows failing "
                                           ++ column ++ " constraints") p
                          else p)).
  { unfold len at 2 in E. cbn [rows] in E. fold n in E.
    destruct (0 <? n)%nat; unfold_M; inv E; auto. }
  destruct Hout as [-> ->].
  assert (Hsub : forall r, In r after_pattern -> In r (rows df)).
  { intros r Hr. unfold after_pattern, after_max, after_min in Hr.
    apply filter_In in Hr. destruct Hr as [Hr _].
    apply filter_In in Hr. destruct Hr as [Hr _].
    apply filter_In in Hr. apply Hr. }
  split; [reflexivity|]. split; [reflexivity|]. split; [exact Hclean|]. split.
  - intros _ Hobj r Hr Hnull _. rewrite (Hclean Hobj r Hr) in Hnull. discriminate.
  - intros _ Hobj r Hr. apply (Hclean Hobj), Hsub, Hr.
Qed.

(** ** The two filtering stages *)

(** X8. Stages 3 and 4 only select rows: each returns a table with the
    header of its input, names and dtypes, and with some of its rows,
    unchanged and in order; neither sends anything to the logger. *)
Theorem filtering_stages_select_rows {ext : Externals}
  schema df p d3 p3 out p' :
  _apply_constraints schema df p = (Ok d3, p3) ->
  _remove_outliers schema d3 p3 = (Ok out, p') ->
  selection df d3 /\ selection d3 out /\ selection df out
  /\ logged p' = logged p.
Proof.
  intros E3 E4.
  pose proof (stage3_selection _ _ _ _ _ E3) as S3.
  pose proof (stage4_selection _ _ _ _ _ E4) as S4.
  repeat split; try apply S3; try apply S4.
  - destruct S3, S4; congruence.
  - apply (selection_trans _ _ _ S3 S4).
  - rewrite (stage4_logged _ _ _ _ _ E4). apply (stage3_logged _ _ _ _ _ E3).
Qed.

(** ** When stage 2 raises *)

(** X9. What decides whether stage 2 raises.  If it raises, the
    exception is [KeyError('type')] and some entry without a ['type'] key
    names a column of the table; if it returns, every entry that names a
    column of the table has the key.  An entry without the key is
    harmless as long as its column is not in the table. *)
Theorem stage2_raises_exactly_for_missing_type_key {ext : Externals}
  schema df p :
  match fst (_validate_data_types schema df p) with
  | Raise e =>
      e = KeyError "type"
      /\ exists column rules,
           In (column, rules) schema /\ rule_type rules = None
           /\ column_index column df <> None
  | Ok _ =>
      forall column rules,
        In (column, rules) schema -> column_index column df <> None ->
        rule_type rules <> None
  end.
Proof.
  unfold _validate_data_types. revert df p.
  induction schema as [|[c rl] rest IH]; intros df p; cbn [for_each].
  - simpl. intros column rules [].
  - unfold bind.
    destruct (column_index c df) as [i|] eqn:Hi.
    + destruct (rule_type rl) as [t|] eqn:Ht.
      * destruct (validate_column_total c rl df p ltac:(congruence))
          as [d1 [p1 E1]].
        rewrite E1.
        pose proof (validate_column_returns _ _ _ _ _ E1) as [[N _] _].
        specialize (IH d1 p1).
        destruct (for_each validate_column rest d1 p1) as [[d2|e] p2]; simpl in *.
        -- intros column rules [Heq|Hin] Hc.
           ++ inv Heq. congruence.
           ++ apply (IH column rules Hin).
              now rewrite (column_index_names df d1 column N).
        -- destruct IH as [-> [column [rules [Hin [Hn Hc]]]]]. split; [reflexivity|].
           exists column, rules. repeat split; auto.
           now rewrite <- (column_index_names df d1 column N).
      * rewrite (validate_column_without_type c rl df p i Hi Ht). simpl.
        split; [reflexivity|]. exists c, rl. repeat split; auto. congruence.
    + rewrite (validate_column_absent c rl df p Hi).
      specialize (IH df p).
      destruct (for_each validate_column rest df p) as [[d2|e] p2]; simpl in *.
      * intros column rules [Heq|Hin] Hc; [inv Heq; congruence | eauto].
      * destruct IH as [-> [column [rules [Hin [Hn Hc]]]]]. split; [reflexivity|].
        exists column, rules. auto.
Qed.

(** ** Entries for columns the table does not have *)

Lemma for_each_skip_on {K} (body : K -> DataFrame -> M DataFrame)
  (keep : K -> bool) (N : DataFrame -> Prop) items :
  (forall k df p, N df -> keep k = false -> body k df p = (Ok df, p)) ->
  (forall k df p df' p', N df -> body k df p = (Ok df', p') -> N df') ->
  forall df p, N df ->
    for_each body items df p = for_each body (filter keep items) df p.
Proof.
  intros Hskip Hpres. induction items as [|k items IH]; intros df p HN;
    cbn [for_each filter].
  - reflexivity.
  - destruct (keep k) eqn:Ek; cbn [for_each]; unfold bind.
    + destruct (body k df p) as [[d|e] q] eqn:E; [|reflexivity].
      apply IH. eapply Hpres; eassumption.
    + rewrite (Hskip k df p HN Ek). now apply IH.
Qed.

Lemma for_each_ext_on {K} (body body' : K -> DataFrame -> M DataFrame)
  (N : DataFrame -> Prop) items :
  (forall k df p, N df -> body k df p = body' k df p) ->
  (forall k df p df' p', N df -> body k df p = (Ok df', p') -> N df') ->
  forall df p, N df -> for_each body items df p = for_each body' items df p.
Proof.
  intros Hext Hpres. induction items as [|k items IH]; intros df p HN;
    cbn [for_each].
  - reflexivity.
  - unfold bind. rewrite <- (Hext k df p HN).
    destruct (body k df p) as [[d|e] q] eqn:E; [|reflexivity].
    apply IH. eapply Hpres; eassumption.
Qed.

Lemma has_column_names a b c :
  map fst (columns b) = map fst (columns a) -> has_column c b = has_column c a.
Proof. intros N. unfold has_column. now rewrite (column_index_names a b c N). Qed.

Lemma in_schema_present c schema df :
  in_schema c (present_entries schema df)
  = in_schema c schema && has_column c df.
Proof.
  unfold in_schema, present_entries.
  induction schema as [|[c' rl] rest IH]; simpl; [reflexivity|].
  destruct (has_column c' df) eqn:Hc; simpl; rewrite IH.
  - destruct (String.eqb c c') eqn:E; simpl; [|reflexivity].
    apply String.eqb_eq in E. subst c'. now rewrite Hc.
  - destruct (String.eqb c c') eqn:E; simpl; [|reflexivity].
    apply String.eqb_eq in E. subst c'. rewrite Hc.
    now rewrite andb_false_r.
Qed.

Lemma handle_missing_column_absent item df p :
  has_column (fst item) df = false ->
  handle_missing_column item df p = (Ok df, p).
Proof.
  destruct item as [c rl]. unfold has_column, handle_missing_column. simpl.
  destruct (column_index c df); [discriminate | reflexivity].
Qed.

Lemma constrain_column_absent {ext : Externals} item df p :
  has_column (fst item) df = false ->
  constrain_column item df p = (Ok df, p).
Proof.
  destruct item as [c rl]. unfold has_column, constrain_column. simpl.
  destruct (column_index c df); [discriminate | reflexivity].
Qed.

Lemma remove_outliers_column_present schema df0 c df p :
  map fst (columns df) = map fst (columns df0) ->
  remove_outliers_column schema c df p
  = remove_outliers_column (present_entries schema df0) c df p.
Proof.
  intros N. unfold remove_outliers_column. rewrite in_schema_present.
  rewrite <- (has_column_names df0 df c N). unfold has_column.
  destruct (in_schema c schema); simpl; [|reflexivity].
  destruct (column_index c df); reflexivity.
Qed.

Lemma four_stages_present {ext : Externals} schema df p :
  four_stages schema df p = four_stages (present_entries schema df) df p.
Proof.
  set (N := fun d : DataFrame => map fst (columns d) = map fst (columns df)).
  assert (N0 : N df) by reflexivity.
  assert (S1 : forall d q, N d ->
            _handle_missing_values schema d q
            = _handle_missing_values (present_entries schema df) d q).
  { intros d q Hd. unfold _handle_missing_values, present_entries.
    apply (for_each_skip_on handle_missing_column _ N); auto.
    - intros k d' q' Hd' Hk. apply handle_missing_column_absent.
      now rewrite (has_column_names df d' (fst k) Hd').
    - intros k d' q' d'' q'' Hd' E. unfold N in *.
      apply handle_missing_column_returns in E. destruct E as [[E _] _].
      congruence. }
  assert (S2 : forall d q, N d ->
            _validate_data_types schema d q
            = _validate_data_types (present_entries schema df) d q).
  { intros d q Hd. unfold _validate_data_types, present_entries.
    apply (for_each_skip_on validate_column _ N); auto.
    - intros [c rl] d' q' Hd' Hk. apply validate_column_absent.
      simpl in Hk. rewrite <- (has_column_names df d' c Hd') in Hk.
      unfold has_column in Hk. destruct (column_index c d'); [discriminate|auto].
    - intros k d' q' d'' q'' Hd' E. unfold N in *.
      apply validate_column_returns in E. destruct E as [[E _] _].
      congruence. }
  assert (S3 : forall d q, N d ->
            _apply_constraints schema d q
            = _apply_constraints (present_entries schema df) d q).
  { intros d q Hd. unfold _apply_constraints, present_entries.
    apply (for_each_skip_on constrain_column _ N); auto.
    - intros k d' q' Hd' Hk. apply constrain_column_absent.
      now rewrite (has_column_names df d' (fst k) Hd').
    - intros k d' q' d'' q'' Hd' E. unfold N in *.
      apply constrain_column_returns in E. destruct E as [[E _] _].
      congruence. }
  assert (S4 : forall d q, N d ->
            _remove_outliers schema d q
            = _remove_outliers (present_entries schema df) d q).
  { intros d q Hd. unfold _remove_outliers.
    apply (for_each_ext_on _ _ N); auto.
    - intros c d' q' Hd'. now apply remove_outliers_column_present.
    - intros k d' q' d'' q'' Hd' E. unfold N in *.
      apply remove_outliers_column_returns in E. destruct E as [[E _] _].
      congruence. }
  unfold four_stages, bind.
  rewrite <- (S1 df p N0).
  destruct (_handle_missing_values schema df p) as [[d1|e] p1] eqn:E1;
    [|reflexivity].
  assert (N1 : N d1).
  { apply (proj1 (stage1_ok schema)) in E1. apply E1. }
  rewrite <- (S2 d1 p1 N1).
  destruct (_validate_data_types schema d1 p1) as [[d2|e] p2] eqn:E2;
    [|reflexivity].
  assert (N2 : N d2).
  { apply (proj1 (stage2_ok schema)) in E2. unfold N in *.
    destruct E2 as [[E2 _] _]. congruence. }
  rewrite <- (S3 d2 p2 N2).
  destruct (_apply_constraints schema d2 p2) as [[d3|e] p3] eqn:E3;
    [|reflexivity].
  assert (N3 : N d3).
  { apply (proj1 (stage3_ok schema)) in E3. unfold N in *.
    destruct E3 as [[E3 _] _]. congruence. }
  apply (S4 d3 p3 N3).
Qed.

(** X10. The entries of the schema whose column is not in the input
    table do nothing in a run, whatever they hold, a missing ['type']
    key included: the run gives the same table, the same exception if it
    raises, and leaves the instance in the same state as the run with
    these entries taken out of the schema. *)
Theorem entries_for_absent_columns_do_nothing {ext : Externals} schema df p :
  clean_and_validate schema df p
  = clean_and_validate (present_entries schema df) df p.
Proof.
  rewrite !clean_and_validate_exact. now rewrite <- four_stages_present.
Qed.

(** ** A run that raises *)

Lemma only_failures_refl p : only_failures p p.
Proof. exists []. split; [now rewrite app_nil_r | constructor]. Qed.

Lemma only_failures_trans p q r :
  only_failures p q -> only_failures q r -> only_failures p r.
Proof.
  intros [f1 [L1 F1]] [f2 [L2 F2]]. exists (f1 ++ f2).
  split; [now rewrite L2, L1, app_assoc | apply Forall_app; auto].
Qed.

Lemma only_failures_same p q : logged q = logged p -> only_failures p q.
Proof. intros H. exists []. split; [now rewrite app_nil_r | constructor]. Qed.

Lemma handle_missing_column_failures item df p :
  only_failures p (snd (handle_missing_column item df p)).
Proof.
  destruct item as [column rules]. unfold handle_missing_column.
  destruct (column_index column df) as [i|]; [|apply only_failures_refl].
  destruct (is_required rules).
  - destruct (0 <? count_null (getitem i df))%nat; unfold_M;
      now apply only_failures_same.
  - destruct (dtype_eqb _ _ || dtype_eqb _ _); unfold_M;
      destruct (fillna _ _); apply only_failures_refl.
Qed.

Lemma validate_column_failures {ext : Externals} item df p :
  only_failures p (snd (validate_column item df p)).
Proof.
  destruct item as [column rules]. unfold validate_column.
  destruct (column_index column df) as [i|]; [|apply only_failures_refl].
  destruct (rule_type rules) as [t|]; [|apply only_failures_refl].
  destruct (coerce_cases t i df p) as [r [Er _]].
  unfold try_except, bind at 1. rewrite Er. destruct r as [df1|e].
  - destruct (0 <? count_null (getitem i df1))%nat; unfold_M;
      now apply only_failures_same.
  - unfold_M. simpl. eexists. split; [reflexivity|].
    constructor; [reflexivity | constructor].
Qed.

Lemma constrain_column_failures {ext : Externals} item df p :
  only_failures p (snd (constrain_column item df p)).
Proof.
  destruct item as [column rules]. unfold constrain_column.
  destruct (column_index column df) as [i|]; [|apply only_failures_refl].
  unfold bind at 1.
  pose proof (bound_filter_state GE (min_value rules) i df p) as H1.
  destruct (bound_filter GE (min_value rules) i df p) as [[d1|e] p1];
    simpl in H1; subst p1; [|apply only_failures_refl].
  unfold bind at 1.
  pose proof (bound_filter_state LE (max_value rules) i d1 p) as H2.
  destruct (bound_filter LE (max_value rules) i d1 p) as [[d2|e] p2];
    simpl in H2; subst p2; [|apply only_failures_refl].
  unfold bind at 1.
  pose proof (pattern_filter_state (pattern rules) i d2 p) as H3.
  destruct (pattern_filter (pattern rules) i d2 p) as [[d3|e] p3];
    simpl in H3; subst p3; [|apply only_failures_refl].
  destruct (0 <? len df - len d3)%nat; unfold_M; now apply only_failures_same.
Qed.

Lemma remove_outliers_column_failures schema column df p :
  only_failures p (snd (remove_outliers_column schema column df p)).
Proof.
  unfold remove_outliers_column.
  destruct (in_schema column schema); [|apply only_failures_refl].
  destruct (column_index column df) as [i|]; [|apply only_failures_refl].
  unfold bind at 1, lift.
  destruct (outlier_mask _ _ _) as [mask|e]; [|apply only_failures_refl].
  destruct (0 <? mask_sum _)%nat; unfold_M; now apply only_failures_same.
Qed.

Lemma four_stages_failures {ext : Externals} schema df p :
  only_failures p (snd (four_stages schema df p)).
Proof.
  assert (G1 : forall d q, only_failures q (snd (_handle_missing_values schema d q)))
    by (intros; unfold _handle_missing_values; apply for_each_state;
        [apply only_failures_refl | apply only_failures_trans
         | intros; apply handle_missing_column_failures]).
  assert (G2 : forall d q, only_failures q (snd (_validate_data_types schema d q)))
    by (intros; unfold _validate_data_types; apply for_each_state;
        [apply only_failures_refl | apply only_failures_trans
         | intros; apply validate_column_failures]).
  assert (G3 : forall d q, only_failures q (snd (_apply_constraints schema d q)))
    by (intros; unfold _apply_constraints; apply for_each_state;
        [apply only_failures_refl | apply only_failures_trans
         | intros; apply constrain_column_failures]).
  assert (G4 : forall d q, only_failures q (snd (_remove_outliers schema d q)))
    by (intros; unfold _remove_outliers; apply for_each_state;
        [apply only_failures_refl | apply only_failures_trans
         | intros; apply remove_outliers_column_failures]).
  unfold four_stages, bind.
  specialize (G1 df p).
  destruct (_handle_missing_values schema df p) as [[d1|e] p1]; simpl in *; auto.
  specialize (G2 d1 p1).
  destruct (_validate_data_types schema d1 p1) as [[d2|e] p2]; simpl in *;
    [|eauto using only_failures_trans].
  specialize (G3 d2 p2).
  destruct (_apply_constraints schema d2 p2) as [[d3|e] p3]; simpl in *;
    [|eauto using only_failures_trans].
  specialize (G4 d3 p3). eauto using only_failures_trans.
Qed.

(** X11. A run that raises reports nothing: after the announcement the
    logger has received error records of failed conversions only, no
    summary and no warning, although [errors] may have gained entries
    before the exception.  [cleaned_rows] is left as it was and
    [total_rows] is the number of rows of the input. *)
Theorem raising_run_reports_nothing {ext : Externals} schema df p e p' :
  clean_and_validate schema df p = (Raise e, p') ->
  (exists failures,
     Forall (fun r => fst r = ERROR) failures
     /\ logged p'
        = logged p
          ++ (INFO, ("Starting pipeline with " ++ str_nat (len df) ++ " rows")%string)
          :: failures)
  /\ (exists new, errors p' = errors p ++ new)
  /\ cleaned_rows p' = cleaned_rows p
  /\ total_rows p' = len df.
Proof.
  rewrite clean_and_validate_exact.
  pose proof (four_stages_failures schema df (started df p)) as F.
  pose proof (four_stages_grows schema df (started df p)) as G.
  pose proof (proj2 (four_stages_ok schema) df (started df p)) as C.
  destruct (four_stages schema df (started df p)) as [[out|e'] q];
    [discriminate|].
  intros H. injection H as -> ->. simpl in *.
  destruct F as [failures [L HF]]. destruct G as [G _]. destruct C as [C1 C2].
  repeat split; auto.
  exists failures. split; [exact HF|].
  rewrite L. unfold started. cbn [logged]. rewrite <- app_assoc. reflexivity.
Qed.

(** ** The page *)

(** X12. What the page shows after a click agrees with itself.  The
    metric "Rows Retained" reads the rows of the table offered for
    download over the rows of the uploaded table; "Errors Fixed" counts
    the entries of the cleaning log, is at most the number of rows
    removed, and is 0 exactly when no row was removed, because the
    pipeline is new at every click; the preview is the first ten rows of
    the download. *)
Theorem clean_data_view_is_consistent {ext : Externals} schema df view :
  clean_data_clicked schema df = Ok view ->
  rows_retained view
  = (str_nat (len (download view)) ++ "/" ++ str_nat (len df))%string
  /\ len (download view) <= len df
  /\ errors_fixed view = List.length (cleaning_log view)
  /\ errors_fixed view <= len df - len (download view)
  /\ (errors_fixed view = 0 <-> len (download view) = len df)
  /\ cleaned_preview view = head 10 (download view)
  /\ len (cleaned_preview view) = Nat.min 10 (len (download view)).
Proof.
  unfold clean_data_clicked. rewrite clean_and_validate_exact.
  destruct (four_stages schema df (started df init)) as [[out|e] q] eqn:E;
    [|discriminate].
  intros H. injection H as <-.
  cbn [rows_retained errors_fixed cleaned_preview cleaning_log download
       cleaned_rows total_rows errors].
  pose proof (proj1 (four_stages_ok schema) _ _ _ _ E) as [_ [_ Ht]].
  simpl in Ht. rewrite Ht.
  apply four_stages_accounts in E.
  destruct E as [Hle [new [He [Hb Hn]]]]. simpl in He.
  rewrite He.
  repeat split; auto.
  - intros H0. destruct new; [|discriminate].
    destruct (Nat.lt_ge_cases (len out) (len df)) as [H|H]; [|lia].
    now elim (Hn H).
  - intros Heq. destruct new; [reflexivity | simpl in Hb; lia].
  - unfold len, head. cbn [rows]. apply length_firstn.
Qed.

(** ** Stage 1 without a required entry *)

Lemma handle_missing_column_optional item df p df' p' :
  is_required (snd item) = false ->
  handle_missing_column item df p = (Ok df', p') ->
  len df' = len df /\ p' = p.
Proof.
  destruct item as [column rules]. simpl. intros Hreq.
  unfold handle_missing_column. rewrite Hreq.
  destruct (column_index column df) as [i|].
  2:{ unfold_M; intros E; inv E. auto. }
  destruct (dtype_eqb _ _ || dtype_eqb _ _); unfold_M;
    destruct (fillna _ _) as [s|e]; intros E; inv E;
    (split; [apply setitem_len | reflexivity]).
Qed.

(** X13. Only a required entry makes stage 1 remove rows.  With a schema
    in which no entry is required, stage 1, when it returns, gives a
    table with as many rows as it received and leaves the instance as it
    was: filling appends nothing to [errors] and logs nothing. *)
Theorem stage1_without_required_entry_keeps_rows schema df p df' p' :
  (forall column rules, In (column, rules) schema -> is_required rules = false) ->
  _handle_missing_values schema df p = (Ok df', p') ->
  len df' = len df /\ p' = p.
Proof.
  unfold _handle_missing_values. revert df p.
  induction schema as [|[c rl] rest IH]; intros df p Hreq; cbn [for_each].
  - unfold ret. intros E; inv E. auto.
  - unfold bind.
    destruct (handle_missing_column (c, rl) df p) as [[d1|e] p1] eqn:E1;
      [|discriminate].
    apply handle_missing_column_optional in E1;
      [|apply (Hreq c rl); now left].
    destruct E1 as [L1 ->]. intros E.
    apply IH in E; [|intros column rules Hin; apply (Hreq column rules); now right].
    destruct E as [L2 ->]. split; [congruence | reflexivity].
Qed.

(** ** The further properties on a sample table *)

Section RosterExamples.

#[local] Existing Instance Examples.literal_externals.

Lemma roster_run :
  clean_and_validate roster_schema roster init = (Ok roster_cleaned, roster_done).
Proof. reflexivity. Qed.

Lemma roster_schema_keys : NoDup (map fst roster_schema).
Proof. repeat constructor; simpl; intuition discriminate. Qed.

Lemma roster_done_quiet : quiet roster_done.
Proof.
  intros e He. simpl in He.
  repeat (destruct He as [<-|He]; [discriminate|]). destruct He.
Qed.

(** A run with one failed conversion: "1.5" makes the integer
    conversion of the column fail, and the logger receives the
    announcement, the record of that failure, the summary "2/3" and the
    warning for the one entry. *)
Lemma run_logs_start_failures_summary_warnings_witness :
  exists d1 p1,
    _handle_missing_values [("c", mkRule (Some PyInt) None None None (Some "2"))]
      (Examples.texts "c" ["1.5"; "2"; "2x"])
      (started (Examples.texts "c" ["1.5"; "2"; "2x"]) init)
    = (Ok d1, p1)
    /\ let failures :=
         flat_map conversion_failure
           (iterations validate_column
              [("c", mkRule (Some PyInt) None None None (Some "2"))] d1 p1) in
       Forall (fun r => fst r = ERROR) failures
       /\ [(INFO, "Starting pipeline with 3 rows");
           (ERROR, ("Type conversion error for c: "
                    ++ cast_error_text
                         [VFloat 1.5%float; VFloat 2%float; VFloat F64.nan])%string);
           (INFO, "Pipeline completed: 2/3 rows retained");
           (WARNING, "Removed 1 rows failing c constraints")]
          = logged init
            ++ (INFO, ("Starting pipeline with "
                       ++ str_nat (len (Examples.texts "c" ["1.5"; "2"; "2x"]))
                       ++ " rows")%string)
            :: failures
            ++ (INFO, completed (len (Examples.texts "c" ["2"; "2x"]))
                        (len (Examples.texts "c" ["1.5"; "2"; "2x"])))
            :: map (fun w => (WARNING, w)) ["Removed 1 rows failing c constraints"].
Proof.
  apply (run_logs_start_failures_summary_warnings
           [("c", mkRule (Some PyInt) None None None (Some "2"))]
           (Examples.texts "c" ["1.5"; "2"; "2x"]) init
           (Examples.texts "c" ["2"; "2x"])
           (mkPipeline ["Removed 1 rows failing c constraints"] 2 3
              [(INFO, "Starting pipeline with 3 rows");
               (ERROR, ("Type conversion error for c: "
                        ++ cast_error_text
                             [VFloat 1.5%float; VFloat 2%float; VFloat F64.nan])%string);
               (INFO, "Pipeline completed: 2/3 rows retained");
               (WARNING, "Removed 1 rows failing c constraints")])).
  vm_compute. reflexivity.
Defined.

(** The list of failures of that run, computed: the one record. *)
Lemma one_failed_conversion :
  flat_map conversion_failure
    (iterations validate_column
       [("c", mkRule (Some PyInt) None None None (Some "2"))]
       (Examples.texts "c" ["1.5"; "2"; "2x"])
       (started (Examples.texts "c" ["1.5"; "2"; "2x"]) init))
  = [(ERROR, ("Type conversion error for c: "
              ++ cast_error_text
                   [VFloat 1.5%float; VFloat 2%float; VFloat F64.nan])%string)].
Proof. vm_compute. reflexivity. Qed.

(** Two rows of the roster are removed, by two entries. *)
Lemma entries_account_for_removed_rows_witness :
  exists new,
    errors roster_done = errors init ++ new
    /\ len roster_cleaned <= len roster
    /\ List.length new <= len roster - len roster_cleaned
    /\ (new = [] <-> len roster_cleaned = len roster).
Proof.
  apply (entries_account_for_removed_rows roster_schema roster init
           roster_cleaned roster_done).
  reflexivity.
Defined.

(** The column "note" of the roster is not in the schema: it keeps its
    dtype and, in the three rows kept, its cells, the missing one
    included. *)
Lemma columns_outside_schema_untouched_witness :
  preserves_outside (schema_position roster_schema roster) roster roster_cleaned.
Proof.
  apply (columns_outside_schema_untouched roster_schema roster init
           roster_cleaned roster_done).
  reflexivity.
Defined.

(** Every age left in the roster is between 0 and 120. *)
Lemma output_satisfies_constraints_witness :
  Forall (fun r => passes GE (Some (NInt 0)) (cell 1 r)
                   /\ passes LE (Some (NInt 120)) (cell 1 r))
         (rows roster_cleaned).
Proof.
  destruct (output_satisfies_constraints roster_schema roster init
              roster_cleaned roster_done eq_refl ("age", age_rule)
              (or_introl eq_refl) 1 eq_refl) as [_ Hv].
  apply Forall_forall. intros r Hr. destruct (Hv r Hr) as (A & B & _).
  split; assumption.
Defined.

(** The run on the roster is quiet, and its column "age" comes out
    numeric and without missing value. *)
Lemma quiet_run_output_is_typed_witness :
  exists t, rule_type age_rule = Some t
            /\ column_holds (stable_dtype t) (fun _ => stable_cell t) 1
                 roster_cleaned.
Proof.
  apply (quiet_run_output_is_typed roster_schema roster init
           roster_cleaned roster_done roster_schema_keys eq_refl
           roster_done_quiet ("age", age_rule) (or_introl eq_refl) 1 eq_refl).
Defined.

(** "age" is required in the roster's schema. *)
Lemma required_columns_have_no_missing_value_witness :
  Forall (fun r => isnull (cell 1 r) = false) (rows roster_cleaned).
Proof.
  apply Forall_forall. intros r Hr.
  apply (required_columns_have_no_missing_value roster_schema roster init
           roster_cleaned roster_done roster_schema_keys eq_refl
           "age" age_rule 1 r (or_introl eq_refl) eq_refl eq_refl Hr).
Defined.

(** The names "bob", missing, "ned" under the pattern "n", in a run:
    stage 1 fills the missing name with "Unknown", so no missing value
    reaches the pattern filter; "bob" and "Unknown" do not match, and
    the iteration removes two rows with one entry. *)
Lemma constraint_filters_apply_in_order_witness :
  _handle_missing_values
    [("name", mkRule (Some PyStr) None None None (Some "n"))]
    (Examples.mixed "name" [VStr "bob"; VFloat F64.nan; VStr "ned"]) init
  = (Ok (Examples.texts "name" ["bob"; "Unknown"; "ned"]), init)
  /\ Examples.texts "name" ["ned"]
     = mkFrame [("name", object)]
         (filter (matches_pattern (Some "n") object 0)
            (filter (passes_bound LE None 0)
               (filter (passes_bound GE None 0)
                  (rows (Examples.texts "name" ["bob"; "Unknown"; "ned"])))))
  /\ with_error "Removed 2 rows failing name constraints" init
     = with_error ("Removed " ++ str_nat 2 ++ " rows failing name constraints") init
  /\ Forall (fun r => isnull (cell 0 r) = false)
       (rows (Examples.texts "name" ["bob"; "Unknown"; "ned"]))
  /\ clean_and_validate
       [("name", mkRule (Some PyStr) None None None (Some "n"))]
       (Examples.mixed "name" [VStr "bob"; VFloat F64.nan; VStr "ned"]) init
     = (Ok (Examples.texts "name" ["ned"]),
        mkPipeline ["Removed 2 rows failing name constraints"] 1 3
          [(INFO, "Starting pipeline with 3 rows");
           (INFO, "Pipeline completed: 1/3 rows retained");
           (WARNING, "Removed 2 rows failing name constraints")]).
Proof.
  split; [reflexivity|].
  destruct (constraint_filters_apply_in_order
              [("name", mkRule (Some PyStr) None None None (Some "n"))]
              [] "name" (mkRule (Some PyStr) None None None (Some "n")) []
              (Examples.mixed "name" [VStr "bob"; VFloat F64.nan; VStr "ned"]) init
              (Examples.texts "name" ["bob"; "Unknown"; "ned"]) init
              (Examples.texts "name" ["bob"; "Unknown"; "ned"]) init
              (Examples.texts "name" ["bob"; "Unknown"; "ned"]) init 0
              (Examples.texts "name" ["ned"])
              (with_error "Removed 2 rows failing name constraints" init))
    as (E1 & E2 & E3 & _).
  - repeat constructor. simpl. tauto.
  - intros r Hr. simpl in Hr.
    repeat (destruct Hr as [<-|Hr]; [reflexivity|]). destruct Hr.
  - reflexivity.
  - reflexivity.
  - reflexivity.
  - reflexivity.
  - reflexivity.
  - reflexivity.
  - split; [exact E1|]. split; [exact E2|]. split.
    + apply Forall_forall. apply E3. reflexivity.
    + reflexivity.
Defined.

(** Stage 3 on the roster itself removes the row without age and the
    row with age 200 in one entry; stage 4 then removes nothing. *)
Lemma filtering_stages_select_rows_witness :
  selection roster roster_cleaned
  /\ selection roster_cleaned roster_cleaned
  /\ selection roster roster_cleaned
  /\ logged (with_error "Removed 2 rows failing age constraints" init)
     = logged init.
Proof.
  apply (filtering_stages_select_rows roster_schema roster init
           roster_cleaned
           (with_error "Removed 2 rows failing age constraints" init)
           roster_cleaned
           (with_error "Removed 2 rows failing age constraints" init));
    reflexivity.
Defined.

(** With an entry for "age" that has no ['type'] key the run raises in
    stage 2, after stage 1 has appended its entry: no summary and no
    warning is logged. *)
Lemma raising_run_reports_nothing_witness :
  (exists failures,
     Forall (fun r => fst r = ERROR) failures
     /\ [(INFO, "Starting pipeline with 5 rows")]
        = logged init
          ++ (INFO, ("Starting pipeline with " ++ str_nat (len roster) ++ " rows")%string)
          :: failures)
  /\ (exists new, ["Removed 1 rows with missing age"] = errors init ++ new)
  /\ 0 = cleaned_rows init
  /\ 5 = len roster.
Proof.
  apply (raising_run_reports_nothing
           [("age", mkRule None (Some true) None None None)] roster init
           (KeyError "type")
           (mkPipeline ["Removed 1 rows with missing age"] 0 5
              [(INFO, "Starting pipeline with 5 rows")])).
  reflexivity.
Defined.

(** The page for the roster: "3/5", two errors fixed, three rows in the
    preview and in the download. *)
Lemma clean_data_view_is_consistent_witness :
  "3/5" = (str_nat (len roster_cleaned) ++ "/" ++ str_nat (len roster))%string
  /\ len roster_cleaned <= len roster
  /\ 2 = List.length (errors roster_done)
  /\ 2 <= len roster - len roster_cleaned
  /\ (2 = 0 <-> len roster_cleaned = len roster)
  /\ head 10 roster_cleaned = head 10 roster_cleaned
  /\ len (head 10 roster_cleaned) = Nat.min 10 (len roster_cleaned).
Proof.
  apply (clean_data_view_is_consistent roster_schema roster
           (mkView "3/5" 2 (head 10 roster_cleaned) (errors roster_done)
              roster_cleaned)).
  reflexivity.
Defined.

(** Three of the ten ages are missing and the entry is not required: the
    ten rows stay and the instance is as before. *)
Lemma stage1_without_required_entry_keeps_rows_witness :
  len (Examples.floats "age" [31; 39; 40; 28; 39; 35; 52; 39; 47; 39]%float)
  = len Examples.ten_ages
  /\ init = init.
Proof.
  apply (stage1_without_required_entry_keeps_rows
           [("age", Examples.rule PyFloat false)] Examples.ten_ages init
           (Examples.floats "age" [31; 39; 40; 28; 39; 35; 52; 39; 47; 39]%float)
           init).
  - intros column rules [H|[]]. inv H. reflexivity.
  - reflexivity.
Defined.

End RosterExamples.
